(** * Yandex Cloud provisioning in the Outline manager: a shallow embedding

    The development follows two source files:

    - [server_manager/cloud/yandex_api.ts]: the XHR session
      ([RestApiSession]), the fetch client ([RestApiClient]) and the
      locator helpers ([parseZoneUrl]);
    - [server_manager/www/yandex_account.ts]: the installation state machine
      ([YandexServer]) and the host handle ([YandexHost]).

    Promises are modelled by the value they settle with, asynchronous
    continuations by explicit events, and every request that leaves the
    process by an entry of a trace. *)

From Stdlib Require Import ZArith QArith Ascii String Bool Lia.
From Stdlib Require Import Decimal DecimalString DecimalPos DecimalZ.
From stdpp Require Import base option list gmap strings.

Local Open Scope Z_scope.

(** ** JavaScript strings

    A [string] stands for a JavaScript string, one [ascii] per code unit.
    Only the operations the two files use are here. *)

Module Js.

(** [c] lies in the closed range [lo-hi] of a character class. *)
Definition inRange (lo hi c : ascii) : bool :=
  (N_of_ascii lo <=? N_of_ascii c)%N && (N_of_ascii c <=? N_of_ascii hi)%N.

Definition isUpper (c : ascii) : bool := inRange "A" "Z" c.

Definition lowerChar (c : ascii) : ascii :=
  if isUpper c then ascii_of_N (N_of_ascii c + 32) else c.

(** [String.prototype.toLowerCase], on the letters A-Z. *)
Fixpoint toLowerCase (s : string) : string :=
  match s with
  | EmptyString => EmptyString
  | String c rest => String (lowerChar c) (toLowerCase rest)
  end.

(** [s.startsWith(p)]. *)
Fixpoint startsWith (p s : string) : bool :=
  match p, s with
  | EmptyString, _ => true
  | String _ _, EmptyString => false
  | String a p', String b s' => if Ascii.eqb a b then startsWith p' s' else false
  end.

Fixpoint indexOfFrom (i : Z) (s needle : string) : Z :=
  if startsWith needle s then i
  else match s with
       | EmptyString => -1
       | String _ rest => indexOfFrom (i + 1) rest needle
       end.

(** [s.indexOf(needle)]: the first position of [needle], or -1. *)
Definition indexOf (s needle : string) : Z := indexOfFrom 0 s needle.

(** [s.replace(/[^...]/g, '')] for a one-character class [keep]. *)
Fixpoint removeOutside (keep : ascii -> bool) (s : string) : string :=
  match s with
  | EmptyString => EmptyString
  | String c rest =>
      if keep c then String c (removeOutside keep rest)
      else removeOutside keep rest
  end.

(** The characters of a string, in order. *)
Definition chars (s : string) : list ascii := list_ascii_of_string s.

End Js.

(** ** Outcomes

    How a call ends, or how an awaited promise settles: with a value, or
    with a thrown (rejected) error. *)

Inductive Outcome (E A : Type) : Type :=
| Returned (value : A)
| Thrown (reason : E).
Arguments Returned {E A} value.
Arguments Thrown {E A} reason.

(** ** The XHR session: [RestApiSession] *)

Module Session.

Record YandexInstanceSpecification := {
  installCommand : string;
  size : string;
  image : string;
  tags : list string;
}.

Inductive InstanceStatus := PROVISIONING | RUNNING | STOPPING | STOPPED.

(** [InstanceInfo], its nested objects flattened: [zone] is [zone.id],
    [transfer] and [price_monthly] are those of [size], and [address] is
    [networkInterfaces.primaryV4Address.address]. *)
Record InstanceInfo := {
  id : string;
  status : InstanceStatus;
  instanceTags : list string;
  zone : string;
  transfer : Q;
  price_monthly : Q;
  address : string;
}.

(** What [request] rejects with: [new XhrError()], whose message is
    empty, or [new Error(message)]. *)
Inductive RequestError :=
| XhrError
| Error (message : string).

Definition message (e : RequestError) : string :=
  match e with
  | XhrError => ""
  | Error m => m
  end.

(** The JSON bodies the session sends. *)
Inductive RequestData :=
| KeyData (name public_key : string)
| InstanceData (name region size image : string) (ssh_keys : list string)
    (user_data : string) (tags : list string) (ipv6 : bool).

Record Request := {
  method : string;
  actionPath : string;
  data : option RequestData;
}.

(** What an execution does that the outside can see. *)
Inductive Action :=
| Send (r : Request)
| SetTimeout (ms : Z).

(** A computation: the actions performed and how its promise settles
    ([None]: not settled within the unfolding bound). *)
Definition Task (A : Type) : Type :=
  list Action * option (Outcome RequestError A).

(** [promise.then(k)] *)
Definition andThen {A B} (t : Task A) (k : A -> Task B) : Task B :=
  match t with
  | (tr, Some (Returned a)) => let '(tr', p) := k a in (tr ++ tr', p)
  | (tr, Some (Thrown e)) => (tr, Some (Thrown e))
  | (tr, None) => (tr, None)
  end.

Definition isNameChar (c : ascii) : bool :=
  Js.inRange "A" "Z" c || Js.inRange "a" "z" c || Js.inRange "0" "9" c
  || Ascii.eqb c "-".

(** [name.replace(/[^A-Za-z0-9-]/g, '')] *)
Definition makeValidInstanceName (name : string) : string :=
  Js.removeOutside isNameChar name.

Definition MAX_REQUESTS : nat := 10.
Definition RETRY_TIMEOUT_MS : Z := 5000.

Definition createRequest (instanceName region keyId : string)
    (instanceSpec : YandexInstanceSpecification) : Request :=
  {| method := "POST";
     actionPath := "instances";
     data := Some (InstanceData instanceName region (size instanceSpec)
                     (image instanceSpec) [keyId]
                     (installCommand instanceSpec) (tags instanceSpec) true) |}.

(** The [catch] test of [makeRequestRecursive]. *)
Definition shouldRetry (e : RequestError) (requestCount : nat) : bool :=
  (0 <=? Js.indexOf (Js.toLowerCase (message e)) "finalizing")
  && (requestCount <? MAX_REQUESTS)%nat.

Section CreateInstance.

(** [reply n] is how the [n]-th [POST instances] request settles;
    [keyReply] is how the key registration settles. *)
Variable reply : nat -> Outcome RequestError InstanceInfo.
Variable keyReply : Outcome RequestError string.

Variables (instanceName region keyId : string).
Variable instanceSpec : YandexInstanceSpecification.

(** [makeRequestRecursive], with the captured counter as an argument.
    [fuel] bounds the unfolding of the timer callbacks. *)
Fixpoint makeRequestRecursive (fuel requestCount : nat) : Task InstanceInfo :=
  match fuel with
  | O => ([], None)
  | S fuel' =>
      let requestCount := S requestCount in
      let sent := Send (createRequest instanceName region keyId instanceSpec) in
      match reply requestCount with
      | Returned r => ([sent], Some (Returned r))
      | Thrown e =>
          if shouldRetry e requestCount then
            let '(tr, p) := makeRequestRecursive fuel' requestCount in
            (sent :: SetTimeout RETRY_TIMEOUT_MS :: tr, p)
          else ([sent], Some (Thrown e))
      end
  end.

Definition makeCreateInstanceRequest : Task InstanceInfo :=
  makeRequestRecursive MAX_REQUESTS 0.

Definition registerKey_ (keyName publicKeyForSSH : string) : Task string :=
  ([Send {| method := "POST"; actionPath := "account/keys";
            data := Some (KeyData keyName publicKeyForSSH) |}],
   Some keyReply).

End CreateInstance.

Definition createInstance (reply : nat -> Outcome RequestError InstanceInfo)
    (keyReply : Outcome RequestError string)
    (displayName region publicKeyForSSH : string)
    (instanceSpec : YandexInstanceSpecification) : Task InstanceInfo :=
  let instanceName := makeValidInstanceName displayName in
  andThen (registerKey_ keyReply instanceName publicKeyForSSH)
    (fun keyId =>
       makeCreateInstanceRequest reply instanceName region keyId instanceSpec).

End Session.

(** ** Errors of the fetch client and of the server model *)

Inductive TypeErrorCause :=
| InvalidURL                       (* [new URL(s)] on a string that is no URL *)
| PropertyOfNull (prop : string).  (* [null.prop] *)

(** Modelled from the spec: the classes [HttpError] and [GcpError] are used
    by yandex_api.ts and yandex_account.ts but declared in neither; the spec
    has a transport error that "carries the numeric status code and a status
    message" and an operation error "carrying the first error's code and
    message".  [ServerInstallFailedError] and [ServerInstallCanceledError]
    come from the server model; [ServerInstallFailedFrom text e] is that
    same class built from the template [`text${e}`].  [TypeError] and
    [InvalidCharacterError] are the platform's, [PlainError] is [Error],
    and [ClosedStreamError] is the refusal of a closed value stream. *)
Inductive JsError :=
| TypeError (cause : TypeErrorCause)
| PlainError (message : string)
| InvalidCharacterError
| ClosedStreamError
| HttpError (statusCode : Z) (message : string)
| GcpError (code message : option string)
| ServerInstallFailedError (message : string)
| ServerInstallFailedFrom (text : string) (interpolated : JsError)
| ServerInstallCanceledError.

Abbreviation Result := (Outcome JsError).

(** [is404] of yandex_account.ts:
    [error instanceof HttpError && error.getStatusCode() === 404]. *)
Definition is404 (error : JsError) : bool :=
  match error with
  | HttpError statusCode _ => statusCode =? 404
  | _ => false
  end.

(** The errors that the spec's kind [ParseError] ("malformed locator URL or
    response body") names in the code.  The only one is the
    [new Error('Error parsing response body: ' + ...)] of
    [fetchUnauthenticated]; no class stands for a malformed locator URL. *)
Definition isParseError (error : JsError) : bool :=
  match error with
  | PlainError message => Js.startsWith "Error parsing response body: " message
  | _ => false
  end.

(** ** The fetch client: [RestApiClient] and the locators *)

Module Cloud.

Record RegionLocator := { regionProjectId : string; regionId : string }.
Record ZoneLocator := { projectId : string; zoneId : string }.
Record InstanceLocator := { zoneOf : ZoneLocator; instanceId : string }.

(** One entry of [operation.error.errors]. *)
Record Status := { code : option string; message : option string }.

(** Modelled from the spec: the type [ComputeEngineOperation] is not
    declared in the sources; an operation handle is "an opaque identifier
    plus a done/error discriminator".  [errors] is what
    [operation.error?.errors] evaluates to: [None] when the error or its
    list is absent, [Some l] for the array [l] (an empty array is a
    value, and truthy). *)
Record ComputeEngineOperation := {
  name : string;
  targetId : string;
  errors : option (list Status);
}.

(** Modelled from the spec: the type [GuestAttributes] is not declared in
    the sources; the endpoint returns "a list of key/value entries".
    [items] is [queryValue?.items], absent or a list of entries. *)
Record Item := { key : string; value : string }.
Record GuestAttributes := { items : option (list Item) }.

(** *** Long-running operation waiters

    [fetched] is how the [fetchAuthenticated] call of the wait endpoint
    settles. *)

(** [errors[0]?.code], [errors[0]?.message] *)
Definition firstCode (l : list Status) : option string :=
  match l with [] => None | e :: _ => code e end.
Definition firstMessage (l : list Status) : option string :=
  match l with [] => None | e :: _ => message e end.

Definition computeEngineOperationZoneWait
    (fetched : Result ComputeEngineOperation) : Result ComputeEngineOperation :=
  match fetched with
  | Thrown e => Thrown e
  | Returned operation =>
      match errors operation with
      | Some errs => Thrown (GcpError (firstCode errs) (firstMessage errs))
      | None => Returned operation
      end
  end.

Definition computeEngineOperationRegionWait
    (fetched : Result ComputeEngineOperation) : Result ComputeEngineOperation :=
  fetched.

Definition computeEngineOperationGlobalWait
    (fetched : Result ComputeEngineOperation) : Result ComputeEngineOperation :=
  fetched.

Inductive Scope := ZoneScope | RegionScope | GlobalScope.

(** The waiter of a scope. *)
Definition operationWait (scope : Scope) :
    Result ComputeEngineOperation -> Result ComputeEngineOperation :=
  match scope with
  | ZoneScope => computeEngineOperationZoneWait
  | RegionScope => computeEngineOperationRegionWait
  | GlobalScope => computeEngineOperationGlobalWait
  end.

(** *** Guest attributes *)

(** [getGuestAttributes]: the [catch (error)] returns [undefined]. *)
Definition getGuestAttributes (fetched : Result GuestAttributes)
    : Result (option GuestAttributes) :=
  match fetched with
  | Returned attributes => Returned (Some attributes)
  | Thrown _ => Returned None
  end.

(** *** [parseZoneUrl] *)

Definition notSlash (c : ascii) : bool := negb (Ascii.eqb c "/").

(** The longest prefix matching [[^/]*], and what follows it. *)
Fixpoint spanNotSlash (s : string) : string * string :=
  match s with
  | EmptyString => (EmptyString, EmptyString)
  | String c rest =>
      if notSlash c then
        let '(run, after) := spanNotSlash rest in (String c run, after)
      else (EmptyString, s)
  end.

(** [s] without its literal prefix [p]. *)
Fixpoint dropLiteral (p s : string) : option string :=
  match p, s with
  | EmptyString, _ => Some s
  | String _ _, EmptyString => None
  | String a p', String b s' =>
      if Ascii.eqb a b then dropLiteral p' s' else None
  end.

Definition isEmpty (s : string) : bool :=
  match s with EmptyString => true | String _ _ => false end.

(** [zoneUrlRegExp] tried at the start of [s].  A group [[^/]+] is greedy;
    giving back characters never helps, as the next item is a slash or
    the end of the input. *)
Definition matchZoneUrlHere (s : string) : option (string * string) :=
  match dropLiteral "/compute/v1/projects/" s with
  | None => None
  | Some rest =>
      let '(projectId, rest) := spanNotSlash rest in
      if isEmpty projectId then None else
      match dropLiteral "/zones/" rest with
      | None => None
      | Some rest =>
          let '(zoneId, rest) := spanNotSlash rest in
          if isEmpty zoneId then None else
          if isEmpty rest then Some (projectId, zoneId) else None
      end
  end.

(** [pathname.match(zoneUrlRegExp)]: the leftmost match, or [null]. *)
Fixpoint matchZoneUrl (s : string) : option (string * string) :=
  match matchZoneUrlHere s with
  | Some groups => Some groups
  | None =>
      match s with
      | EmptyString => None
      | String _ rest => matchZoneUrl rest
      end
  end.

Section ParseZoneUrl.

(** [pathname url] is [new URL(url).pathname], and [None] where the
    constructor throws. *)
Variable pathname : string -> option string.

Definition parseZoneUrl (url : string) : Result ZoneLocator :=
  match pathname url with
  | None => Thrown (TypeError InvalidURL)
  | Some path =>
      match matchZoneUrl path with
      | None => Thrown (TypeError (PropertyOfNull "groups"))
      | Some (projectId, zoneId) =>
          Returned {| projectId := projectId; zoneId := zoneId |}
      end
  end.

End ParseZoneUrl.

End Cloud.

(** ** [atob]

    The platform's forgiving base64 decoder: white space is dropped, then
    up to two padding characters of a text whose length is a multiple of
    four; a length of 1 modulo 4 or a character outside the alphabet
    fails. *)

Module Base64.

Definition isSpace (c : ascii) : bool :=
  let n := N_of_ascii c in
  ((n =? 9) || (n =? 10) || (n =? 12) || (n =? 13) || (n =? 32))%N.

Definition sextet (c : ascii) : option N :=
  let n := N_of_ascii c in
  if Js.inRange "A" "Z" c then Some (n - 65)%N
  else if Js.inRange "a" "z" c then Some (n - 71)%N
  else if Js.inRange "0" "9" c then Some (n + 4)%N
  else if Ascii.eqb c "+" then Some 62%N
  else if Ascii.eqb c "/" then Some 63%N
  else None.

Definition dropPadding (l : list ascii) : list ascii :=
  if (length l mod 4 =? 0)%nat then
    match rev l with
    | "="%char :: "="%char :: r => rev r
    | "="%char :: r => rev r
    | _ => l
    end
  else l.

Fixpoint sextets (l : list ascii) : option (list N) :=
  match l with
  | [] => Some []
  | c :: rest =>
      match sextet c, sextets rest with
      | Some n, Some ns => Some (n :: ns)
      | _, _ => None
      end
  end.

Fixpoint bytes (l : list N) : list ascii :=
  match l with
  | a :: b :: c :: d :: rest =>
      ascii_of_N (a * 4 + b / 16)
      :: ascii_of_N ((b mod 16) * 16 + c / 4)
      :: ascii_of_N ((c mod 4) * 64 + d)
      :: bytes rest
  | [a; b; c] =>
      [ascii_of_N (a * 4 + b / 16); ascii_of_N ((b mod 16) * 16 + c / 4)]
  | [a; b] => [ascii_of_N (a * 4 + b / 16)]
  | _ => []
  end%N.

Definition atob (data : string) : Result string :=
  let l := dropPadding (filter (fun c => negb (isSpace c)) (Js.chars data)) in
  if (length l mod 4 =? 1)%nat then Thrown InvalidCharacterError
  else match sextets l with
       | None => Thrown InvalidCharacterError
       | Some ns => Returned (string_of_list_ascii (bytes ns))
       end.

End Base64.

(** ** The value stream *)

Module ValueStream.

(** Modelled from the spec: the class [ValueStream] of
    [@outline/infrastructure/value_stream] is not among the sources.  The
    spec describes "single-value-latest-plus-subscribe semantics", closed on
    a terminal state: "terminal states close the state machine to further
    writes; readers observe a final value".  A stream is its latest value
    and a closed flag; a write to a closed stream is refused with an
    exception.  What [watch()] delivers to a consumer, a finite sequence
    that "ends when a terminal state is reached", is an argument of
    [monitorInstallProgress] below. *)
Record t (A : Type) := make { value : A; closed : bool }.
Arguments make {A} value closed.
Arguments value {A} _.
Arguments closed {A} _.

Definition create {A} (initial : A) : t A := make initial false.
Definition get {A} (s : t A) : A := value s.
Definition isClosed {A} (s : t A) : bool := closed s.
Definition close {A} (s : t A) : t A := make (value s) true.

Definition set {A} (newValue : A) (s : t A) : Result (t A) :=
  if closed s then Thrown ClosedStreamError
  else Returned (make newValue false).

End ValueStream.

(** ** The installation state machine: [YandexServer] *)

Module Install.

Inductive InstallState :=
| UNKNOWN
| INSTANCE_CREATED
| IP_ALLOCATED
| INSTANCE_RUNNING
| CERTIFICATE_CREATED
| COMPLETED
| FAILED
| CANCELED.

Global Instance InstallState_eq_dec : EqDecision InstallState.
Proof. solve_decision. Defined.

(** The numeric value of an enum member. *)
Definition rank (state : InstallState) : nat :=
  match state with
  | UNKNOWN => 0
  | INSTANCE_CREATED => 1
  | IP_ALLOCATED => 2
  | INSTANCE_RUNNING => 3
  | CERTIFICATE_CREATED => 4
  | COMPLETED => 5
  | FAILED => 6
  | CANCELED => 7
  end.

Definition getCompletionFraction (state : InstallState) : Q :=
  match state with
  | UNKNOWN => 1 # 100
  | INSTANCE_CREATED => 12 # 100
  | IP_ALLOCATED => 14 # 100
  | INSTANCE_RUNNING => 4 # 10
  | CERTIFICATE_CREATED => 7 # 10
  | COMPLETED => 1
  | _ => 0
  end.

Definition isFinal (state : InstallState) : bool :=
  bool_decide (state = COMPLETED) || bool_decide (state = FAILED)
  || bool_decide (state = CANCELED).

(** Modelled from the spec: [makePathApiClient] of [./fetcher] is not
    among the sources; it builds "a management endpoint handle derived
    from the URL and the attached certificate fingerprint". *)
Record PathApiClient := makePathApiClient {
  base : string;
  fingerprint : string;
}.

(** Where the constructor's promise chain is suspended, or how
    [instanceReadiness] settled. *)
Inductive Chain :=
| AwaitCreation             (* [instanceCreation] has not settled *)
| AwaitHasStaticIp          (* at [await hasStaticIp] *)
| AwaitPromotion            (* at [await this.promoteEphemeralIp()] *)
| Settled (readiness : Result unit).

(** Where [pollInstallState] is suspended. *)
Inductive Poll :=
| NotPolling
| AwaitAttributes           (* at [await this.getOutlineGuestAttributes()] *)
| AwaitSleep.               (* at [await sleep(...)] *)

Record YandexServer := {
  installState : ValueStream.t InstallState;
  managementApi : option PathApiClient;
  chain : Chain;
  poll : Poll;
}.

Definition withInstallState (v : ValueStream.t InstallState) (s : YandexServer) :=
  {| installState := v; managementApi := managementApi s;
     chain := chain s; poll := poll s |}.
Definition withManagementApi (api : PathApiClient) (s : YandexServer) :=
  {| installState := installState s; managementApi := Some api;
     chain := chain s; poll := poll s |}.
Definition withChain (c : Chain) (s : YandexServer) :=
  {| installState := installState s; managementApi := managementApi s;
     chain := c; poll := poll s |}.
Definition withPoll (p : Poll) (s : YandexServer) :=
  {| installState := installState s; managementApi := managementApi s;
     chain := chain s; poll := p |}.

(** The server as its constructor leaves it. *)
Definition new : YandexServer :=
  {| installState := ValueStream.create UNKNOWN; managementApi := None;
     chain := AwaitCreation; poll := NotPolling |}.

(** The recorded state: [this.installState.get()]. *)
Definition state (s : YandexServer) : InstallState :=
  ValueStream.get (installState s).

(** *** Methods, as computations on the server that may throw *)

Definition M (A : Type) : Type := YandexServer -> YandexServer * Result A.

Definition ret {A} (a : A) : M A := fun s => (s, Returned a).
Definition throw {A} (e : JsError) : M A := fun s => (s, Thrown e).
Definition bind {A B} (m : M A) (k : A -> M B) : M B :=
  fun s =>
    match m s with
    | (s', Returned a) => k a s'
    | (s', Thrown e) => (s', Thrown e)
    end.
Definition lift {A} (r : Result A) : M A := fun s => (s, r).

Declare Scope server_scope.
Delimit Scope server_scope with server.
Notation "x <- m ;; k" := (bind m (fun x => k))
  (at level 100, m at next level, right associativity) : server_scope.
Notation "m ;; k" := (bind m (fun _ => k))
  (at level 100, right associativity) : server_scope.
Local Open Scope server_scope.

Definition isClosed : M bool :=
  fun s => (s, Returned (ValueStream.isClosed (installState s))).

Definition setManagementApi (api : PathApiClient) : M unit :=
  fun s => (withManagementApi api s, Returned tt).

Definition setInstallState (newState : InstallState) : M unit :=
  fun s =>
    match ValueStream.set newState (installState s) with
    | Thrown e => (s, Thrown e)
    | Returned written =>
        (withInstallState
           (if isFinal newState then ValueStream.close written else written) s,
         Returned tt)
    end.

Definition onDelete : M unit :=
  closed <- isClosed ;;
  if closed then ret tt else setInstallState CANCELED.

(** [hasStaticIp]; [fetched] is how [getStaticIp] settles. *)
Definition hasStaticIp {StaticIp} (fetched : Result StaticIp) : Result bool :=
  match fetched with
  | Returned _ => Returned true
  | Thrown e =>
      if is404 e then Returned false
      else Thrown (ServerInstallFailedFrom "Static IP check failed: " e)
  end.

(** [getOutlineGuestAttributes]; [fetched] is how the request of
    [getGuestAttributes] settles. *)
Definition getOutlineGuestAttributes (fetched : Result Cloud.GuestAttributes)
    : Result (gmap string string) :=
  match Cloud.getGuestAttributes fetched with
  | Thrown e => Thrown e
  | Returned guestAttributes =>
      let attributes := default [] (guestAttributes ≫= Cloud.items) in
      Returned (foldl (fun result entry =>
                         <[Cloud.key entry := Cloud.value entry]> result)
                  ∅ attributes)
  end.

Inductive LoopControl := Break | Continue.

(** One iteration of the loop of [pollInstallState], from the attributes
    to the [break] or the [sleep]. *)
Definition pollIteration (outlineGuestAttributes : gmap string string)
    : M LoopControl :=
  let has key := bool_decide (is_Some (outlineGuestAttributes !! key)) in
  match outlineGuestAttributes !! "apiUrl",
        outlineGuestAttributes !! "certSha256" with
  | Some apiUrl, Some certSha256 =>
      decoded <- lift (Base64.atob certSha256) ;;
      setManagementApi (makePathApiClient apiUrl decoded) ;;
      setInstallState COMPLETED ;;
      ret Break
  | _, _ =>
      if has "install-error" then
        setInstallState FAILED ;; ret Break
      else if has "certSha256" then
        setInstallState CERTIFICATE_CREATED ;; ret Continue
      else if has "install-started" then
        setInstallState INSTANCE_RUNNING ;; ret Continue
      else ret Continue
  end.

(** The loop test of [pollInstallState] and, when it passes, the request
    for the attributes. *)
Definition pollLoopTest (s : YandexServer) : YandexServer :=
  if ValueStream.isClosed (installState s) then withPoll NotPolling s
  else withPoll AwaitAttributes s.

(** The loop resumed with the fetched attributes.  An exception ends the
    loop: its promise is rejected and nothing observes it. *)
Definition pollResume (fetched : Result Cloud.GuestAttributes)
    (s : YandexServer) : YandexServer :=
  match (attributes <- lift (getOutlineGuestAttributes fetched) ;;
         pollIteration attributes) s with
  | (s', Returned Continue) => withPoll AwaitSleep s'
  | (s', Returned Break) => withPoll NotPolling s'
  | (s', Thrown _) => withPoll NotPolling s'
  end.

(** How far a piece of the [then] callback of the constructor gets. *)
Inductive Next := SuspendAt (c : Chain) | Done.

(** From the fulfilment of [instanceCreation] to [await hasStaticIp]. *)
Definition onCreated : M Next :=
  closed <- isClosed ;;
  if closed then ret Done
  else setInstallState INSTANCE_CREATED ;; ret (SuspendAt AwaitHasStaticIp).

(** From the static address being there to the end of the callback;
    [pollInstallState()] is started and not awaited. *)
Definition onIpReady : M Next :=
  closed <- isClosed ;;
  if closed then ret Done
  else setInstallState IP_ALLOCATED ;;
       (fun s => (pollLoopTest s, Returned Done)).

(** From the result of [hasStaticIp] to the next await. *)
Definition onStaticIpChecked (found : bool) : M Next :=
  if found then onIpReady else ret (SuspendAt AwaitPromotion).

(** The [catch] of the chain: [setInstallState(FAILED); throw e]. *)
Definition onRejected (e : JsError) : M unit :=
  setInstallState FAILED ;; throw e.

(** Runs a piece of the chain and records where it stops. *)
Definition advance (piece : M Next) (s : YandexServer) : YandexServer :=
  match piece s with
  | (s', Returned (SuspendAt c)) => withChain c s'
  | (s', Returned Done) => withChain (Settled (Returned tt)) s'
  | (s', Thrown e) =>
      let '(s'', readiness) := onRejected e s' in
      withChain (Settled readiness) s''
  end.

(** What the environment does to a server. *)
Inductive Event :=
| InstanceCreationSettled (r : Result unit)
| StaticIpFetched (r : Result unit)
| PromotionSettled (r : Result unit)
| GuestAttributesFetched (r : Result Cloud.GuestAttributes)
| SleepElapsed
| DeleteRequested.

(** One event; an event that no suspended continuation waits for changes
    nothing. *)
Definition step (s : YandexServer) (ev : Event) : YandexServer :=
  match ev with
  | DeleteRequested => fst (onDelete s)
  | InstanceCreationSettled r =>
      match chain s with
      | AwaitCreation => advance (lift r ;; onCreated) s
      | _ => s
      end
  | StaticIpFetched r =>
      match chain s with
      | AwaitHasStaticIp =>
          advance (found <- lift (hasStaticIp r) ;; onStaticIpChecked found) s
      | _ => s
      end
  | PromotionSettled r =>
      match chain s with
      | AwaitPromotion => advance (lift r ;; onIpReady) s
      | _ => s
      end
  | GuestAttributesFetched r =>
      match poll s with
      | AwaitAttributes => pollResume r s
      | _ => s
      end
  | SleepElapsed =>
      match poll s with
      | AwaitSleep => pollLoopTest s
      | _ => s
      end
  end.

Definition run (s : YandexServer) (events : list Event) : YandexServer :=
  foldl step s events.

(** The recorded state after each event. *)
Fixpoint recorded (s : YandexServer) (events : list Event) : list InstallState :=
  match events with
  | [] => []
  | ev :: rest => state (step s ev) :: recorded (step s ev) rest
  end.

(** The history of a fresh server under [events]. *)
Definition history (events : list Event) : list InstallState :=
  state new :: recorded new events.

Fixpoint nonDecreasing (l : list InstallState) : bool :=
  match l with
  | a :: (b :: _) as rest => (rank a <=? rank b)%nat && nonDecreasing rest
  | _ => true
  end.

(** [monitorInstallProgress]: [watched] is what the loop over
    [this.installState.watch()] received before the stream ended, and
    [installState] the stream at that point.  The result is the values
    yielded and how the generator ends. *)
Definition monitorInstallProgress (watched : list InstallState)
    (installState : ValueStream.t InstallState) : list Q * Result unit :=
  let yielded := map getCompletionFraction watched in
  if bool_decide (ValueStream.get installState = FAILED) then
    (yielded, Thrown (ServerInstallFailedError ""))
  else if bool_decide (ValueStream.get installState = CANCELED) then
    (yielded, Thrown ServerInstallCanceledError)
  else
    (yielded ++ [getCompletionFraction (ValueStream.get installState)],
     Returned tt).

End Install.

(** ** The host handle: [YandexHost] *)

Module Host.

Import Install.

(** What [delete] does, in order. *)
Inductive Action :=
| CallDeleteCallback
| AwaitInstanceReadiness
| Warn (text : string) (interpolated : option JsError)
| RequestDeleteStaticIp (region : Cloud.RegionLocator) (addressName : string)
| RequestDeleteInstance (instance : Cloud.InstanceLocator).

Record YandexHost := {
  locator : Cloud.InstanceLocator;
  yandexInstanceName : string;
}.

(** The server behind [deleteCallback], and the actions so far. *)
Record World := { server : YandexServer; trace : list Action }.

Definition M (A : Type) : Type := World -> World * Result A.

Definition ret {A} (a : A) : M A := fun w => (w, Returned a).
Definition throw {A} (e : JsError) : M A := fun w => (w, Thrown e).
Definition bind {A B} (m : M A) (k : A -> M B) : M B :=
  fun w =>
    match m w with
    | (w', Returned a) => k a w'
    | (w', Thrown e) => (w', Thrown e)
    end.
Definition tryCatch {A} (m : M A) (handler : JsError -> M A) : M A :=
  fun w =>
    match m w with
    | (w', Returned a) => (w', Returned a)
    | (w', Thrown e) => handler e w'
    end.

Declare Scope host_scope.
Notation "m ;; k" := (bind m (fun _ => k))
  (at level 100, right associativity) : host_scope.
Local Open Scope host_scope.

Definition act (a : Action) : M unit :=
  fun w => ({| server := server w; trace := trace w ++ [a] |}, Returned tt).

(** [await p] for a promise that settles as [settled]. *)
Definition await {A} (settled : Result A) : M A := fun w => (w, settled).

(** [this.deleteCallback()]: the bound [onDelete] of the server. *)
Definition deleteCallback : M unit :=
  fun w =>
    let '(s, r) := onDelete (server w) in
    ({| server := s; trace := trace w ++ [CallDeleteCallback] |}, r).

Definition waitForDelete {A} (deletion : Result A) (msg404 : string) : M unit :=
  tryCatch (await deletion ;; ret tt)
    (fun e => if is404 e then act (Warn msg404 None) else throw e).

Section Delete.

(** The getter [regionId] of the class [Zone] of [../model/yandex],
    which is not among the sources. *)
Variable regionIdOf : string -> string.

Variable host : YandexHost.

(** How the promises that [delete] awaits settle. *)
Variable instanceReadiness : Result unit.
Variables staticIpDeletion instanceDeletion
  : Result Cloud.ComputeEngineOperation.

Definition regionLocator : Cloud.RegionLocator :=
  {| Cloud.regionId := regionIdOf (Cloud.zoneId (Cloud.zoneOf (locator host)));
     Cloud.regionProjectId := Cloud.projectId (Cloud.zoneOf (locator host)) |}.

Definition delete : M unit :=
  deleteCallback ;;
  tryCatch (act AwaitInstanceReadiness ;; await instanceReadiness)
    (fun e =>
       act (Warn "Attempting deletion of server that failed setup: " (Some e))) ;;
  act (RequestDeleteStaticIp regionLocator (yandexInstanceName host)) ;;
  waitForDelete staticIpDeletion "Deleted server did not have a static IP" ;;
  act (RequestDeleteInstance (locator host)) ;;
  waitForDelete instanceDeletion "No instance for deleted server".

End Delete.

End Host.

(** * Vocabulary of the statements *)

(** [needle] occurs in [s] up to the case of letters. *)
Definition containsIgnoringCase (needle s : string) : Prop :=
  exists pre mid post,
    s = pre +:+ mid +:+ post /\ Js.toLowerCase mid = Js.toLowerCase needle.

(** The [name] property of the body of a request. *)
Definition requestName (r : Session.Request) : option string :=
  match Session.data r with
  | Some (Session.KeyData name _) => Some name
  | Some (Session.InstanceData name _ _ _ _ _ _ _) => Some name
  | None => None
  end.

(** The requests among the actions of a session. *)
Definition requestsOf (trace : list Session.Action) : list Session.Request :=
  omap (fun a => match a with Session.Send r => Some r | _ => None end) trace.

(** [n] times the same request, 5000 ms apart. *)
Fixpoint attempts (request : Session.Request) (n : nat) : list Session.Action :=
  match n with
  | O => []
  | S O => [Session.Send request]
  | S n' => Session.Send request :: Session.SetTimeout 5000 :: attempts request n'
  end.

(** Every character of [s] is outside the class [[A-Za-z0-9-]]. *)
Definition noNameChar (s : string) : Prop :=
  Forall (fun c => Session.isNameChar c = false) (Js.chars s).

(** The message of [e] says that the resource is still finalizing. *)
Definition finalizing (e : Session.RequestError) : Prop :=
  containsIgnoringCase "finalizing" (Session.message e).

(** No character of [s] is a slash. *)
Definition slashFree (s : string) : Prop :=
  Forall (fun c => Cloud.notSlash c = true) (Js.chars s).

(** [path] ends with [/compute/v1/projects/<projectId>/zones/<zoneId>],
    both identifiers non-empty and without a slash. *)
Definition matchesZonePath (path projectId zoneId : string) : Prop :=
  exists pre,
    path = pre +:+ "/compute/v1/projects/" +:+ projectId +:+ "/zones/" +:+ zoneId
    /\ projectId <> "" /\ zoneId <> ""
    /\ slashFree projectId /\ slashFree zoneId.

(** What may follow a longest run of characters other than a slash. *)
Definition atBoundary (s : string) : Prop :=
  s = "" \/ exists rest, s = String "/" rest.

(** The stream is closed exactly in a final state. *)
Definition consistent (s : Install.YandexServer) : Prop :=
  ValueStream.closed (Install.installState s) = Install.isFinal (Install.state s).

(** What holds of a server at every suspension point: the chain of the
    constructor has recorded the state of its phase (or the server was
    cancelled), and the poll loop runs only from [IP_ALLOCATED] on. *)
Definition phaseInvariant (s : Install.YandexServer) : Prop :=
  consistent s
  /\ match Install.chain s with
     | Install.AwaitCreation =>
         Install.poll s = Install.NotPolling
         /\ (Install.state s = Install.UNKNOWN \/ Install.state s = Install.CANCELED)
     | Install.AwaitHasStaticIp | Install.AwaitPromotion =>
         Install.poll s = Install.NotPolling
         /\ (Install.state s = Install.INSTANCE_CREATED
             \/ Install.state s = Install.CANCELED)
     | Install.Settled _ =>
         Install.poll s = Install.NotPolling
         \/ (2 <= Install.rank (Install.state s))%nat
     end.

(** A transition that does not go down in the order of the enum, or the
    one step back that the poll loop takes. *)
Definition advances (before after : Install.InstallState) : Prop :=
  (Install.rank before <= Install.rank after)%nat
  \/ (before = Install.CERTIFICATE_CREATED /\ after = Install.INSTANCE_RUNNING).

(** [R] holds of every two neighbours of [l]. *)
Fixpoint stepwise (R : Install.InstallState -> Install.InstallState -> Prop)
    (l : list Install.InstallState) : Prop :=
  match l with
  | a :: (b :: _) as rest => R a b /\ stepwise R rest
  | _ => True
  end.

(** The snapshot that settles the fetch holds certSha256. *)
Definition hasCertificate (fetched : Result Cloud.GuestAttributes) : bool :=
  match Install.getOutlineGuestAttributes fetched with
  | Returned attributes => bool_decide (is_Some (attributes !! "certSha256"))
  | Thrown _ => false
  end.

(** From the first fetched snapshot that holds certSha256 on, every
    fetched snapshot holds it ([seen]: one before [events] held it). *)
Fixpoint certificateStays (seen : bool) (events : list Install.Event) : Prop :=
  match events with
  | [] => True
  | Install.GuestAttributesFetched fetched :: rest =>
      (seen = true -> hasCertificate fetched = true)
      /\ certificateStays (seen || hasCertificate fetched) rest
  | _ :: rest => certificateStays seen rest
  end.

(** The states that an iteration of the poll loop may write, by whether
    the snapshot holds certSha256. *)
Definition pollWritesFor (certificate : bool) : list Install.InstallState :=
  if certificate
  then [Install.COMPLETED; Install.FAILED; Install.CERTIFICATE_CREATED]
  else [Install.FAILED; Install.INSTANCE_RUNNING].

(** The states that an event may write. *)
Definition writesOf (ev : Install.Event) : list Install.InstallState :=
  match ev with
  | Install.GuestAttributesFetched fetched =>
      pollWritesFor (hasCertificate fetched)
  | Install.DeleteRequested => [Install.CANCELED]
  | Install.SleepElapsed => []
  | _ => [Install.INSTANCE_CREATED; Install.IP_ALLOCATED; Install.FAILED]
  end.

(** The stream after is the stream before, or the stream before was open
    and took one write of a state among [states]. *)
Definition streamWrites (states : list Install.InstallState)
    (before after : Install.YandexServer) : Prop :=
  Install.installState after = Install.installState before
  \/ (ValueStream.closed (Install.installState before) = false
      /\ exists v, v ∈ states
           /\ Install.installState after
              = ValueStream.make v (Install.isFinal v)).

(** The same, for a computation that leaves the two phases alone. *)
Definition writesOneOf (states : list Install.InstallState)
    (before after : Install.YandexServer) : Prop :=
  Install.chain after = Install.chain before
  /\ Install.poll after = Install.poll before
  /\ streamWrites states before after.

(** The actions of a trace that are not console warnings. *)
Definition withoutWarnings (trace : list Host.Action) : list Host.Action :=
  List.filter (fun a => match a with Host.Warn _ _ => false | _ => true end) trace.

(** How a deletion step ends for a deletion that settles as [deletion]:
    normally when the request succeeded or failed with a 404, with the
    error of the request otherwise. *)
Definition deletionStep {A} (deletion : Result A) : Result unit :=
  match deletion with
  | Returned _ => Returned tt
  | Thrown e => if is404 e then Returned tt else Thrown e
  end.

(** ** Data of the examples *)

(** The reply of the guest-attribute endpoint with these entries. *)
Definition snapshot (entries : list (string * string)) : Result Cloud.GuestAttributes :=
  Returned {| Cloud.items :=
                Some (map (fun entry => {| Cloud.key := fst entry;
                                           Cloud.value := snd entry |})
                        entries) |}.

(** The map that the poll loop reads from these entries. *)
Definition attributesOf (entries : list (string * string)) : gmap string string :=
  match Install.getOutlineGuestAttributes (snapshot entries) with
  | Returned attributes => attributes
  | Thrown _ => ∅
  end.

(** A server whose instance exists, whose static address was found, and
    whose poll loop waits for its first attributes. *)
Definition polling : Install.YandexServer :=
  Install.run Install.new
    [Install.InstanceCreationSettled (Returned tt);
     Install.StaticIpFetched (Returned tt)].

(** A poll sees the certificate, the next one only the start marker. *)
Definition regressionEvents : list Install.Event :=
  [Install.InstanceCreationSettled (Returned tt);
   Install.StaticIpFetched (Returned tt);
   Install.GuestAttributesFetched (snapshot [("certSha256", "AAEC")]);
   Install.SleepElapsed;
   Install.GuestAttributesFetched (snapshot [("install-started", "true")])].

(** The endpoint is published and an error is reported, both at once. *)
Definition endpointAndError : list (string * string) :=
  [("install-started", "true"); ("certSha256", "AAEC");
   ("apiUrl", "https://10.0.0.1:1234/secret"); ("install-error", "boom")].

(** The text of [s] from its first slash on, ["/"] when it has none. *)
Fixpoint fromFirstSlash (s : string) : string :=
  match s with
  | EmptyString => "/"
  | String c rest => if Cloud.notSlash c then fromFirstSlash rest else s
  end.

(** [new URL(url).pathname] for the URLs of the examples, which have the
    plain form [scheme://authority/path]: no query, fragment, dot segment
    or escape.  A text without [://] is no URL. *)
Fixpoint plainPathname (url : string) : option string :=
  match Cloud.dropLiteral "://" url with
  | Some rest => Some (fromFirstSlash rest)
  | None =>
      match url with
      | EmptyString => None
      | String _ rest => plainPathname rest
      end
  end.

(** An operation that completed with two embedded errors. *)
Definition failedOperation : Cloud.ComputeEngineOperation :=
  {| Cloud.name := "operation-1";
     Cloud.targetId := "epd0";
     Cloud.errors :=
       Some [ {| Cloud.code := Some "QUOTA_EXCEEDED";
                 Cloud.message := Some "Quota exceeded" |};
              {| Cloud.code := Some "INTERNAL"; Cloud.message := None |} ] |}.

(** The happy path: the start marker, then the certificate, then the
    endpoint, each snapshot holding what the one before held. *)
Definition installEvents : list Install.Event :=
  [Install.InstanceCreationSettled (Returned tt);
   Install.StaticIpFetched (Thrown (HttpError 404 "Not Found"));
   Install.PromotionSettled (Returned tt);
   Install.GuestAttributesFetched (Thrown (HttpError 404 "Not Found"));
   Install.SleepElapsed;
   Install.GuestAttributesFetched (snapshot [("install-started", "true")]);
   Install.SleepElapsed;
   Install.GuestAttributesFetched
     (snapshot [("install-started", "true"); ("certSha256", "AAEC")]);
   Install.SleepElapsed;
   Install.GuestAttributesFetched
     (snapshot [("install-started", "true"); ("certSha256", "AAEC");
                ("apiUrl", "https://10.0.0.1:1234/secret")])].

Definition exampleSpec : Session.YandexInstanceSpecification :=
  {| Session.installCommand := "#!/bin/bash"; Session.size := "standard-v1";
     Session.image := "ubuntu-2004-lts"; Session.tags := ["outline"] |}.

Definition exampleInstance : Session.InstanceInfo :=
  {| Session.id := "epd1"; Session.status := Session.PROVISIONING;
     Session.instanceTags := ["outline"]; Session.zone := "ru-central1-a";
     Session.transfer := 1; Session.price_monthly := 5;
     Session.address := "10.0.0.1" |}.

(** The name is still finalizing for the first two attempts. *)
Definition finalizingTwice (n : nat) :
    Outcome Session.RequestError Session.InstanceInfo :=
  if (n <=? 2)%nat
  then Thrown (Session.Error "XHR 7 failed with 422: Name is still FINALIZING")
  else Returned exampleInstance.

(** The name never stops finalizing. *)
Definition alwaysFinalizing (n : nat) :
    Outcome Session.RequestError Session.InstanceInfo :=
  Thrown (Session.Error "XHR 7 failed with 422: name is finalizing").

Definition exampleHost : Host.YandexHost :=
  {| Host.locator :=
       {| Cloud.zoneOf := {| Cloud.projectId := "b1gexample";
                             Cloud.zoneId := "ru-central1-a" |};
          Cloud.instanceId := "epd1" |};
     Host.yandexInstanceName := "outline-20240101-000000" |}.

(** * More of the code

    What follows covers more of the two files and the OAuth session of
    [unnamed/part_000]: the requests of the XHR session, the fetch client
    with its access token and its form data, the promotion of the
    ephemeral address, the methods of the account, and [runOauth].  A
    type that the sources use and do not declare is a record of the
    properties that the code reads. *)

(** ** Numbers in template literals *)

(** [`${n}`] and [n.toString()] for an integer [n]. *)
Definition decimal (n : Z) : string := NilZero.string_of_int (Z.to_int n).

(** A decimal digit or the minus sign. *)
Definition isNumberChar (c : ascii) : bool :=
  Js.inRange "0" "9" c || Ascii.eqb c "-".

(** ** [RestApiSession.request] *)

Module Xhr.

(** What [xhr.response] holds: nothing, the JSON text [null], another JSON
    text, or a text that [JSON.parse] refuses.  A parsed value is seen as
    the response type on success, and through [`${responseJson.id}`] and
    [`${responseJson.message}`] on failure (the text is [undefined] for a
    property that the value does not have; [null] has no properties to
    read). *)
Inductive Body (T : Type) :=
| Empty
| Null
| Json (value : T) (idText messageText : string)
| Malformed.
Arguments Empty {T}.
Arguments Null {T}.
Arguments Json {T} value idText messageText.
Arguments Malformed {T}.

(** How the XMLHttpRequest ends: [onload] with a status, or [onerror]. *)
Inductive End (T : Type) :=
| Load (status : Z) (response : Body T)
| NetworkError.
Arguments Load {T} status response.
Arguments NetworkError {T}.

Definition failureMessage (idText : string) (status : Z) (messageText : string)
    : string :=
  "XHR " +:+ idText +:+ " failed with " +:+ decimal status +:+ ": " +:+ messageText.

(** [request]: how the promise settles, [None] when it never does (an
    exception of [JSON.parse] or of a property read leaves the handler
    before [resolve] or [reject]).  [emptyObject] and [null] are [{}] and
    [null] seen as the response type. *)
Definition request {T} (emptyObject null : T) (ended : End T)
    : option (Outcome Session.RequestError T) :=
  match ended with
  | NetworkError => Some (Thrown Session.XhrError)
  | Load status response =>
      if (200 <=? status) && (status <=? 299) then
        match response with
        | Empty => Some (Returned emptyObject)
        | Null => Some (Returned null)
        | Json value _ _ => Some (Returned value)
        | Malformed => None
        end
      else if status =? 401 then Some (Thrown Session.XhrError)
      else
        match response with
        | Json _ idText messageText =>
            Some (Thrown (Session.Error (failureMessage idText status messageText)))
        | Empty | Null | Malformed => None
        end
  end.

(** The statuses of the first branch of [onload]. *)
Definition succeeded (status : Z) : Prop := 200 <= status <= 299.

End Xhr.

(** How the requests of [finalizingTwice] end. *)
Definition endedTwice (n : nat) : Xhr.End Session.InstanceInfo :=
  if (n <=? 2)%nat
  then Xhr.Load 422 (Xhr.Json exampleInstance "7" "Name is still FINALIZING")
  else Xhr.Load 200 (Xhr.Json exampleInstance "undefined" "undefined").

(** ** More vocabulary for the installation *)

(** The snapshot that settles the fetch holds none of the keys that make
    the poll loop write: certSha256, install-error, install-started. *)
Definition silent (fetched : Result Cloud.GuestAttributes) : bool :=
  match Install.getOutlineGuestAttributes fetched with
  | Returned attributes =>
      forallb (fun key => negb (bool_decide (is_Some (attributes !! key))))
        ["certSha256"; "install-error"; "install-started"]
  | Thrown _ => false
  end.

(** Rounds of the poll loop: the attributes arrive, then the sleep
    elapses. *)
Definition pollRounds (polls : list (Result Cloud.GuestAttributes))
    : list Install.Event :=
  polls ≫= fun fetched =>
    [Install.GuestAttributesFetched fetched; Install.SleepElapsed].

(** The management endpoint that the poll loop builds from a snapshot
    with apiUrl and a decodable certSha256. *)
Definition endpointOf (fetched : Result Cloud.GuestAttributes)
    : option Install.PathApiClient :=
  match Install.getOutlineGuestAttributes fetched with
  | Returned attributes =>
      match attributes !! "apiUrl", attributes !! "certSha256" with
      | Some apiUrl, Some certSha256 =>
          match Base64.atob certSha256 with
          | Returned decoded => Some (Install.makePathApiClient apiUrl decoded)
          | Thrown _ => None
          end
      | _, _ => None
      end
  | Thrown _ => None
  end.

(** What the settled [instanceReadiness] says of the recorded state: a
    rejection comes with [FAILED] or [CANCELED], a fulfilment with
    [IP_ALLOCATED] or a later state. *)
Definition readinessAgrees (s : Install.YandexServer) : Prop :=
  match Install.chain s with
  | Install.Settled (Thrown _) =>
      Install.state s = Install.FAILED \/ Install.state s = Install.CANCELED
  | Install.Settled (Returned _) => (2 <= Install.rank (Install.state s))%nat
  | _ => True
  end.

(** ** The promotion of the ephemeral address *)

Module Promote.

(** Modelled from the spec: the type [Instance] of the fetch client is not
    declared in the sources, and the spec does not describe it; these are
    the properties that [promoteEphemeralIp] reads, each absent or
    present as JSON allows. *)
Record AccessConfig := { natIP : option string }.
Record NetworkInterface := { accessConfigs : option (list AccessConfig) }.
Record Instance := {
  name : option string;
  description : option string;
  networkInterfaces : option (list NetworkInterface);
}.

(** The body of the request that reserves the address. *)
Record StaticIpData := {
  dataName : option string;
  dataDescription : option string;
  address : option string;
}.

(** The requests of the promotion, in the order they are made. *)
Inductive Call :=
| GetInstance (instance : Cloud.InstanceLocator)
| PostAddress (region : Cloud.RegionLocator) (data : StaticIpData)
| WaitRegionOperation (region : Cloud.RegionLocator) (operationId : string).

(** A computation: the requests made and the result. *)
Definition Task (A : Type) : Type := list Call * Result A.

Definition ret {A} (a : A) : Task A := ([], Returned a).
Definition throw {A} (e : JsError) : Task A := ([], Thrown e).
Definition bind {A B} (t : Task A) (k : A -> Task B) : Task B :=
  match t with
  | (calls, Returned a) => let '(calls', r) := k a in (calls ++ calls', r)
  | (calls, Thrown e) => (calls, Thrown e)
  end.
(** [await] of a request that settles as [settled]. *)
Definition call {A} (c : Call) (settled : Result A) : Task A := ([c], settled).

Declare Scope promote_scope.
Delimit Scope promote_scope with promote.
Notation "x <- m ;; k" := (bind m (fun x => k))
  (at level 100, m at next level, right associativity) : promote_scope.
Local Open Scope promote_scope.

(** [instance.networkInterfaces[0].accessConfigs[0].natIP]: reading a
    property of [undefined] is a [TypeError] (the cause names the
    property), and the element 0 of an empty array is [undefined]. *)
Definition firstNatIP (instance : Instance) : Result (option string) :=
  match networkInterfaces instance with
  | None => Thrown (TypeError (PropertyOfNull "0"))
  | Some [] => Thrown (TypeError (PropertyOfNull "accessConfigs"))
  | Some (interface :: _) =>
      match accessConfigs interface with
      | None => Thrown (TypeError (PropertyOfNull "0"))
      | Some [] => Thrown (TypeError (PropertyOfNull "natIP"))
      | Some (config :: _) => Returned (natIP config)
      end
  end.

(** [`${operationErrors}`]: the entries of the array, each an object,
    joined by commas. *)
Definition renderErrors (errors : list Cloud.Status) : string :=
  String.concat "," (map (fun _ => "[object Object]") errors).

Section PromoteEphemeralIp.

Variable regionIdOf : string -> string.
Variable locator : Cloud.InstanceLocator.

(** How the three requests settle, when they are made. *)
Variable instanceFetched : Result Instance.
Variables posted waited : Result Cloud.ComputeEngineOperation.

(** [getRegionLocator] *)
Definition getRegionLocator : Cloud.RegionLocator :=
  {| Cloud.regionId := regionIdOf (Cloud.zoneId (Cloud.zoneOf locator));
     Cloud.regionProjectId := Cloud.projectId (Cloud.zoneOf locator) |}.

(** [createStaticIp] of the fetch client. *)
Definition createStaticIp (region : Cloud.RegionLocator) (data : StaticIpData)
    : Task Cloud.ComputeEngineOperation :=
  operation <- call (PostAddress region data) posted ;;
  call (WaitRegionOperation region (Cloud.name operation))
    (Cloud.computeEngineOperationRegionWait waited).

Definition promoteEphemeralIp : Task unit :=
  instance <- call (GetInstance locator) instanceFetched ;;
  ipAddress <- ([], firstNatIP instance) ;;
  let createStaticIpData :=
    {| dataName := name instance; dataDescription := description instance;
       address := ipAddress |} in
  createStaticIpOperation <- createStaticIp getRegionLocator createStaticIpData ;;
  match Cloud.errors createStaticIpOperation with
  | Some operationErrors =>
      throw (ServerInstallFailedError
               ("Firewall creation failed: " +:+ renderErrors operationErrors))
  | None => ret tt
  end.

End PromoteEphemeralIp.

End Promote.


(** An instance with one interface and its ephemeral address. *)
Definition ephemeralInstance : Promote.Instance :=
  {| Promote.name := Some "outline-20240102-030405";
     Promote.description := Some "My server";
     Promote.networkInterfaces :=
       Some [ {| Promote.accessConfigs :=
                   Some [ {| Promote.natIP := Some "203.0.113.7" |} ] |} ] |}.

(** ** The fetch client: requests, errors and the access token *)

Module Fetch.

(** *** [encodeURIComponent] and [encodeFormData] *)

(** The characters that [encodeURIComponent] leaves as they are. *)
Definition isUnreserved (c : ascii) : bool :=
  Js.inRange "A" "Z" c || Js.inRange "a" "z" c || Js.inRange "0" "9" c
  || bool_decide (c ∈ Js.chars "-_.!~*'()").

Definition hexDigit (n : N) : ascii :=
  nth (N.to_nat n) (Js.chars "0123456789ABCDEF") "0"%char.

(** [%XX] for a byte. *)
Definition percent (byte : N) : string :=
  String "%" (String (hexDigit (byte / 16)) (String (hexDigit (byte mod 16)) "")).

(** The escape of one code unit below 256: itself, or the bytes of its
    UTF-8 form, one for a unit below 128 and two from there on. *)
Definition encodeUnit (c : ascii) : string :=
  let n := N_of_ascii c in
  if isUnreserved c then String c ""
  else if (n <? 128)%N then percent n
  else percent (192 + n / 64) +:+ percent (128 + n mod 64).

Fixpoint encodeURIComponent (s : string) : string :=
  match s with
  | EmptyString => EmptyString
  | String c rest => encodeUnit c +:+ encodeURIComponent rest
  end.

(** [encodeFormData]; [data] is [Object.entries(data)]. *)
Definition encodeFormData (data : list (string * string)) : string :=
  String.concat "&"
    (map (fun entry =>
            encodeURIComponent (fst entry) +:+ "=" +:+ encodeURIComponent (snd entry))
       data).

(** *** What is sent and what comes back *)

(** The [data] argument: left out, an object (as its JSON text), or a
    text. *)
Inductive Data :=
| NoData
| ObjectData (json : string)
| TextData (text : string).

(** The arguments of [fetchAuthenticated] and [fetchUnauthenticated]. *)
Record Call := {
  method : string;
  url : string;
  headers : list (string * string);
  parameters : option (list (string * string));
  data : Data;
}.

(** A request as [fetch] gets it: [query] is what was appended to the
    search parameters of the URL. *)
Record Sent := {
  sentMethod : string;
  sentUrl : string;
  sentHeaders : list (string * string);
  query : list (string * string);
  body : option string;
}.

Definition upperChar (c : ascii) : ascii :=
  if Js.inRange "a" "z" c then ascii_of_N (N_of_ascii c - 32) else c.

(** [String.prototype.toUpperCase], on the letters a-z. *)
Fixpoint toUpperCase (s : string) : string :=
  match s with
  | EmptyString => EmptyString
  | String c rest => String (upperChar c) (toUpperCase rest)
  end.

(** [data && {body: data}], after [JSON.stringify] of an object. *)
Definition bodyOf (d : Data) : option string :=
  match d with
  | NoData => None
  | ObjectData text | TextData text =>
      match text with EmptyString => None | _ => Some text end
  end.

(** The request that [fetchUnauthenticated] makes for a call. *)
Definition requestOf (c : Call) : Sent :=
  {| sentMethod := toUpperCase (method c);
     sentUrl := url c;
     sentHeaders := headers c;
     query := default [] (parameters c);
     body := bodyOf (data c) |}.

(** What [response.json()] gives: a value, or a rejection whose error
    [JSON.stringify] renders as [stringified]. *)
Inductive Body (T : Type) :=
| Parsed (value : T)
| Unparsable (stringified : string).
Arguments Parsed {T} value.
Arguments Unparsable {T} stringified.

(** How [fetch] settles: it rejects, or it gives a response. *)
Inductive Fetched (T : Type) :=
| Failed (e : JsError)
| Responded (status : Z) (statusText : string) (json : Body T).
Arguments Failed {T} e.
Arguments Responded {T} status statusText json.

(** [response.ok]: the status is in the range 200-299. *)
Definition ok (status : Z) : bool := (200 <=? status) && (status <=? 299).

(** [fetchUnauthenticated], from the response on; [None] is
    [undefined]. *)
Definition fetchUnauthenticated {T} (fetched : Fetched T) : Result (option T) :=
  match fetched with
  | Failed e => Thrown e
  | Responded status statusText json =>
      if negb (ok status) then Thrown (HttpError status statusText)
      else if negb (status =? 204) then
        match json with
        | Parsed value => Returned (Some value)
        | Unparsable stringified =>
            Thrown (PlainError ("Error parsing response body: " +:+ stringified))
        end
      else Returned None
  end.

(** *** The access token *)

(** The body of the token endpoint's reply, as far as it is read. *)
Record RefreshAccessTokenResponse := { access_token : option string }.

(** The client and the requests it has made so far. *)
Record World := {
  accessToken : option string;
  sent : list Sent;
}.

Definition send (request : Sent) (w : World) : World :=
  {| accessToken := accessToken w; sent := sent w ++ [request] |}.

(** [!this.accessToken]: the token is [undefined] or the empty text. *)
Definition isFalsy (token : option string) : bool :=
  match token with
  | None | Some EmptyString => true
  | Some _ => false
  end.

(** [`${token}`] *)
Definition render (token : option string) : string :=
  default "undefined" token.

(** [Map.prototype.set] on the entries in insertion order. *)
Fixpoint mapSet (key value : string) (entries : list (string * string))
    : list (string * string) :=
  match entries with
  | [] => [(key, value)]
  | (k, v) :: rest =>
      if String.eqb k key then (k, value) :: rest
      else (k, v) :: mapSet key value rest
  end.

Section Client.

(** The constants [GCP_OAUTH_CLIENT_ID] and [GCP_OAUTH_CLIENT_SECRET],
    which yandex_api.ts uses and does not declare, and the refresh token
    of the constructor. *)
Variables GCP_OAUTH_CLIENT_ID GCP_OAUTH_CLIENT_SECRET : string.
Variable refreshToken : string.

(** The call that [refreshYandexAccessToken] makes. *)
Definition refreshCall : Call :=
  {| method := "POST";
     url := "https://oauth2.googleapis.com/token";
     headers := [("Host", "oauth2.googleapis.com");
                 ("Content-Type", "application/x-www-form-urlencoded")];
     parameters := None;
     data := TextData (encodeFormData
                         [("client_id", GCP_OAUTH_CLIENT_ID);
                          ("client_secret", GCP_OAUTH_CLIENT_SECRET);
                          ("refresh_token", refreshToken);
                          ("grant_type", "refresh_token")]) |}.

(** [refreshYandexAccessToken], from the response on:
    [response.access_token], a [TypeError] when the response is
    [undefined]. *)
Definition refreshYandexAccessToken
    (refreshed : Fetched RefreshAccessTokenResponse) : Result (option string) :=
  match fetchUnauthenticated refreshed with
  | Thrown e => Thrown e
  | Returned None => Thrown (TypeError (PropertyOfNull "access_token"))
  | Returned (Some response) => Returned (access_token response)
  end.

(** The call with the bearer token of the client in its headers. *)
Definition authorized (c : Call) (w : World) : Sent :=
  requestOf
    {| method := method c; url := url c;
       headers := mapSet "Authorization" ("Bearer " +:+ render (accessToken w))
                    (headers c);
       parameters := parameters c; data := data c |}.

(** Where a call of [fetchAuthenticated] is suspended. *)
Inductive Phase :=
| AwaitRefresh   (* at [await this.refreshYandexAccessToken(...)] *)
| AwaitFetch.    (* at the [fetch] of [fetchUnauthenticated] *)

(** [fetchAuthenticated] up to its first [await]. *)
Definition begin (c : Call) (w : World) : World * Phase :=
  if isFalsy (accessToken w) then (send (requestOf refreshCall) w, AwaitRefresh)
  else (send (authorized c w) w, AwaitFetch).

(** [fetchAuthenticated] resumed with the reply of the token endpoint:
    the token is stored and the request is made, or the call ends with
    the error. *)
Definition resume (c : Call) (refreshed : Fetched RefreshAccessTokenResponse)
    (w : World) : World * Result Phase :=
  match refreshYandexAccessToken refreshed with
  | Thrown e => (w, Thrown e)
  | Returned token =>
      let w' := {| accessToken := token; sent := sent w |} in
      (send (authorized c w') w', Returned AwaitFetch)
  end.

(** A call of [fetchAuthenticated] that runs alone: [refreshed] and
    [fetched] are how its requests settle, when they are made. *)
Definition fetchAuthenticated {T} (c : Call)
    (refreshed : Fetched RefreshAccessTokenResponse) (fetched : Fetched T)
    (w : World) : World * Result (option T) :=
  match begin c w with
  | (w', AwaitFetch) => (w', fetchUnauthenticated fetched)
  | (w', AwaitRefresh) =>
      match resume c refreshed w' with
      | (w'', Returned _) => (w'', fetchUnauthenticated fetched)
      | (w'', Thrown e) => (w'', Thrown e)
      end
  end.

(** Calls that run one after the other. *)
Fixpoint fetchAll {T} (calls : list (Call * Fetched RefreshAccessTokenResponse * Fetched T))
    (w : World) : World * list (Result (option T)) :=
  match calls with
  | [] => (w, [])
  | (c, refreshed, fetched) :: rest =>
      let '(w', r) := fetchAuthenticated c refreshed fetched w in
      let '(w'', rs) := fetchAll rest w' in
      (w'', r :: rs)
  end.

(** Calls that all start before a reply of the token endpoint
    arrives. *)
Definition beginAll (calls : list Call) (w : World) : World :=
  foldl (fun w c => fst (begin c w)) w calls.

(** The replies of the token endpoint arrive, in this order, each for
    its call. *)
Definition resumeAll
    (replies : list (Call * Fetched RefreshAccessTokenResponse)) (w : World)
    : World :=
  foldl (fun w reply => fst (resume (fst reply) (snd reply) w)) w replies.

End Client.

(** The token that a reply of the token endpoint brings, if the refresh
    succeeds with it. *)
Definition tokenOf (refreshed : Fetched RefreshAccessTokenResponse)
    : option (option string) :=
  match refreshYandexAccessToken refreshed with
  | Returned token => Some token
  | Thrown _ => None
  end.

(** The request of a call under a given token. *)
Definition authorizedWith (c : Call) (token : option string) : Sent :=
  authorized c {| accessToken := token; sent := [] |}.

(** [Map.prototype.get] on the entries in insertion order. *)
Fixpoint mapGet (key : string) (entries : list (string * string))
    : option string :=
  match entries with
  | [] => None
  | (k, v) :: rest => if String.eqb k key then Some v else mapGet key rest
  end.

End Fetch.

(** The response was read to its end: the status is in 200..299, and it
    is 204 or the body is JSON. *)
Definition answered {T} (status : Z) (json : Fetch.Body T) : Prop :=
  Fetch.ok status = true
  /\ (status = 204 \/ exists value, json = Fetch.Parsed value).

(** Two calls of the examples and the replies to them. *)
Definition listZonesCall : Fetch.Call :=
  {| Fetch.method := "GET";
     Fetch.url := "https://compute.googleapis.com/compute/v1/projects/p/zones";
     Fetch.headers := [("Content-type", "application/json");
                       ("Accept", "application/json")];
     Fetch.parameters := None;
     Fetch.data := Fetch.NoData |}.

Definition listFirewallsCall : Fetch.Call :=
  {| Fetch.method := "GET";
     Fetch.url := "https://compute.googleapis.com/compute/v1/projects/p/global/firewalls";
     Fetch.headers := [("Content-type", "application/json");
                       ("Accept", "application/json")];
     Fetch.parameters := Some [("filter", "name=outline")];
     Fetch.data := Fetch.NoData |}.

Definition tokenReply (token : string)
    : Fetch.Fetched Fetch.RefreshAccessTokenResponse :=
  Fetch.Responded 200 "OK"
    (Fetch.Parsed {| Fetch.access_token := Some token |}).

(** A client that has not asked for a token yet. *)
Definition freshClient : Fetch.World :=
  {| Fetch.accessToken := None; Fetch.sent := [] |}.

(** ** Reading form data back

    What a reader of [application/x-www-form-urlencoded] data does with
    the text of [encodeFormData]: it splits at [&], cuts each piece at
    its first [=], and undoes the escapes. *)

Definition hexValue (c : ascii) : option N :=
  if Js.inRange "0" "9" c then Some (N_of_ascii c - 48)%N
  else if Js.inRange "A" "F" c then Some (N_of_ascii c - 55)%N
  else None.

(** The byte of the escape [%ab]. *)
Definition escapedByte (a b : ascii) : option N :=
  match hexValue a, hexValue b with
  | Some high, Some low => Some (16 * high + low)%N
  | _, _ => None
  end.

(** Undoes the escapes of [encodeURIComponent] for code units below
    256. *)
Fixpoint decodeComponent (s : string) : option string :=
  match s with
  | EmptyString => Some EmptyString
  | String c rest =>
      if negb (Ascii.eqb c "%") then String c <$> decodeComponent rest
      else
        match rest with
        | String a (String b rest) =>
            match escapedByte a b with
            | None => None
            | Some byte =>
                if (byte <? 128)%N
                then String (ascii_of_N byte) <$> decodeComponent rest
                else
                  match rest with
                  | String p (String a' (String b' rest)) =>
                      if negb (Ascii.eqb p "%") then None
                      else
                        match escapedByte a' b' with
                        | None => None
                        | Some next =>
                            String (ascii_of_N ((byte - 192) * 64 + (next - 128)))
                              <$> decodeComponent rest
                        end
                  | _ => None
                  end
            end
        | _ => None
        end
  end.

(** The text before the first [sep], and the text after it if there is
    one. *)
Fixpoint cut (sep : ascii) (s : string) : string * option string :=
  match s with
  | EmptyString => (EmptyString, None)
  | String c rest =>
      if Ascii.eqb c sep then (EmptyString, Some rest)
      else let '(before, after) := cut sep rest in (String c before, after)
  end.

(** The pieces of [s] between the occurrences of [sep]. *)
Fixpoint pieces (sep : ascii) (s : string) : list string :=
  match s with
  | EmptyString => [EmptyString]
  | String c rest =>
      if Ascii.eqb c sep then EmptyString :: pieces sep rest
      else match pieces sep rest with
           | piece :: more => String c piece :: more
           | [] => [String c EmptyString]
           end
  end.

Definition parseEntry (piece : string) : option (string * string) :=
  match cut "=" piece with
  | (key, Some value) =>
      key ← decodeComponent key; value ← decodeComponent value; Some (key, value)
  | (_, None) => None
  end.

Definition parseFormData (s : string) : option (list (string * string)) :=
  match s with
  | EmptyString => Some []
  | _ => mapM parseEntry (pieces "&" s)
  end.

(** ** The account: [YandexAccount] of yandex_account.ts *)

Module Account.

(** *** The instance name *)

(** The fields of [new Date()] that [makeYandexInstanceName] reads, in
    UTC; the month counts from 0. *)
Record Date := {
  fullYear : Z;
  month : Z;
  date : Z;
  hours : Z;
  minutes : Z;
  seconds : Z;
}.

(** [s.padStart(2, '0')] *)
Definition padStart2 (s : string) : string :=
  match s with
  | EmptyString => "00"
  | String c EmptyString => String "0" s
  | _ => s
  end.

Definition pad2 (val : Z) : string := padStart2 (decimal val).

Definition makeYandexInstanceName (now : Date) : string :=
  "outline-" +:+ decimal (fullYear now) +:+ pad2 (month now + 1)
  +:+ pad2 (date now) +:+ "-" +:+ pad2 (hours now) +:+ pad2 (minutes now)
  +:+ pad2 (seconds now).

(** *** Requests and computations *)

(** The body of the firewall request. *)
Record FirewallData := {
  firewallName : string;
  direction : string;
  priority : Z;
  targetTags : list string;
  allowed : list string;        (* the [IPProtocol] of each entry *)
  sourceRanges : list string;
}.

(** The body of the instance request. *)
Record InstanceData := {
  instanceName : string;
  description : string;
  machineType : string;
  sourceImage : string;
  network : string;
  labels : list (string * string);
  tags : list string;
  metadata : list (string * string);
}.

Inductive Call :=
| ListFirewalls (projectId name : string)
| PostFirewall (projectId : string) (data : FirewallData)
| WaitGlobalOperation (projectId operationId : string)
| PostInstance (zone : Cloud.ZoneLocator) (data : InstanceData)
| WaitZoneOperation (zone : Cloud.ZoneLocator) (operationId : string).

(** A computation: the requests made and the result. *)
Definition Task (A : Type) : Type := list Call * Result A.

Definition ret {A} (a : A) : Task A := ([], Returned a).
Definition throw {A} (e : JsError) : Task A := ([], Thrown e).
Definition bind {A B} (t : Task A) (k : A -> Task B) : Task B :=
  match t with
  | (calls, Returned a) => let '(calls', r) := k a in (calls ++ calls', r)
  | (calls, Thrown e) => (calls, Thrown e)
  end.
(** [await] of a request that settles as [settled]. *)
Definition call {A} (c : Call) (settled : Result A) : Task A := ([c], settled).

Declare Scope account_scope.
Delimit Scope account_scope with account.
Notation "x <- m ;; k" := (bind m (fun x => k))
  (at level 100, m at next level, right associativity) : account_scope.
Notation "m ;; k" := (bind m (fun _ => k))
  (at level 100, right associativity) : account_scope.
Local Open Scope account_scope.

Definition OUTLINE_FIREWALL_NAME : string := "outline".
Definition OUTLINE_FIREWALL_TAG : string := "outline".
Definition MACHINE_SIZE : string := "standard-v1".

(** Modelled from the spec: the type [ListFirewallsResponse] is not
    declared in the sources, and the spec does not describe it; [items]
    is what [getFirewallResponse?.items] reads, absent or a list, of
    whose entries only the number matters. *)
Record ListFirewallsResponse := { items : option (list string) }.

(** What [createServer] returns: the arguments of [new YandexServer],
    with the promise [instanceCreation] as the way it settles. *)
Record Created := {
  id : string;
  locator : Cloud.InstanceLocator;
  yandexInstanceName : string;
  instanceCreation : Result Cloud.ComputeEngineOperation;
}.

Section CreateServer.

(** The identifier of the account, and [getInstallScript], whose parts
    come from modules that are not among the sources. *)
Variable accountId : string.
Variable getInstallScript : string -> bool -> string.

(** How the requests settle, when they are made. *)
Variable firewallsListed : Result (option ListFirewallsResponse).
Variables firewallPosted firewallWaited : Result Cloud.ComputeEngineOperation.
Variables instancePosted instanceWaited : Result Cloud.ComputeEngineOperation.

(** [createFirewall] of the fetch client. *)
Definition createFirewall (projectId : string) (data : FirewallData)
    : Task Cloud.ComputeEngineOperation :=
  operation <- call (PostFirewall projectId data) firewallPosted ;;
  call (WaitGlobalOperation projectId (Cloud.name operation))
    (Cloud.computeEngineOperationGlobalWait firewallWaited).

(** [!getFirewallResponse?.items || getFirewallResponse?.items?.length === 0] *)
Definition firewallMissing (response : option ListFirewallsResponse) : bool :=
  match response ≫= items with
  | None | Some [] => true
  | Some (_ :: _) => false
  end.

Definition createFirewallIfNeeded (projectId : string) : Task unit :=
  getFirewallResponse <-
    call (ListFirewalls projectId OUTLINE_FIREWALL_NAME) firewallsListed ;;
  if firewallMissing getFirewallResponse then
    let createFirewallData :=
      {| firewallName := OUTLINE_FIREWALL_NAME;
         direction := "INGRESS";
         priority := 1000;
         targetTags := [OUTLINE_FIREWALL_TAG];
         allowed := ["all"];
         sourceRanges := ["0.0.0.0/0"] |} in
    createFirewallOperation <- createFirewall projectId createFirewallData ;;
    match Cloud.errors createFirewallOperation with
    | Some errors =>
        throw (ServerInstallFailedError
                 ("Firewall creation failed: " +:+ Promote.renderErrors errors))
    | None => ret tt
    end
  else ret tt.

(** [createServer]; [zoneId] is [zone.id] and [now] the time of the
    call. *)
Definition createServer (now : Date) (projectId name zoneId : string)
    (metricsEnabled : bool) : Task Created :=
  createFirewallIfNeeded projectId ;;
  let yandexInstanceName := makeYandexInstanceName now in
  let createInstanceData :=
    {| instanceName := yandexInstanceName;
       description := name;
       machineType := "zones/" +:+ zoneId +:+ "/machineTypes/" +:+ MACHINE_SIZE;
       sourceImage :=
         "projects/ubuntu-os-cloud/global/images/family/ubuntu-2004-lts";
       network := "global/networks/default";
       labels := [("outline", "true")];
       tags := [OUTLINE_FIREWALL_TAG];
       metadata := [("enable-guest-attributes", "TRUE");
                    ("user-data", getInstallScript name metricsEnabled)] |} in
  let zoneLocator := {| Cloud.projectId := projectId; Cloud.zoneId := zoneId |} in
  createInstanceOperation <-
    call (PostInstance zoneLocator createInstanceData) instancePosted ;;
  match Cloud.errors createInstanceOperation with
  | Some errors =>
      throw (ServerInstallFailedError
               ("Instance creation failed: " +:+ Promote.renderErrors errors))
  | None =>
      let instanceId := Cloud.targetId createInstanceOperation in
      let instanceLocator :=
        {| Cloud.zoneOf := zoneLocator; Cloud.instanceId := instanceId |} in
      instanceCreation <-
        ([WaitZoneOperation zoneLocator (Cloud.name createInstanceOperation)],
         Returned (Cloud.computeEngineOperationZoneWait instanceWaited)) ;;
      ret {| id := accountId +:+ ":" +:+ instanceId;
             locator := instanceLocator;
             yandexInstanceName := yandexInstanceName;
             instanceCreation := instanceCreation |}
  end.

End CreateServer.

(** *** [listServers] *)

(** Modelled from the spec: the type [ListAllInstancesResponse] is not
    declared in the sources, and the spec does not describe it; these
    are the properties that [listServers] reads.  [scopes] is
    [Object.values] of the [items] object, in the order of its
    properties. *)
Record InstanceSummary := {
  summaryZone : string;
  summaryId : string;
  summaryName : string;
}.
Record InstancesScopedList := { instances : option (list InstanceSummary) }.
Record ListAllInstancesResponse := {
  scopes : option (list InstancesScopedList);
}.

(** The arguments of [new YandexServer] in [listServers]; the creation
    is [Promise.resolve()]. *)
Record Listed := {
  listedId : string;
  listedLocator : Cloud.InstanceLocator;
  listedName : string;
}.

Section ListServers.

Variable pathname : string -> option string.
Variable accountId : string.

(** The body of the inner [forEach], for one instance. *)
Definition listed (projectId : string) (instance : InstanceSummary)
    : Result Listed :=
  match Cloud.parseZoneUrl pathname (summaryZone instance) with
  | Thrown e => Thrown e
  | Returned zone =>
      Returned
        {| listedId := accountId +:+ ":" +:+ summaryId instance;
           listedLocator :=
             {| Cloud.zoneOf := {| Cloud.projectId := projectId;
                                   Cloud.zoneId := Cloud.zoneId zone |};
                Cloud.instanceId := summaryId instance |};
           listedName := summaryName instance |}
  end.

(** [forEach] with a body that pushes to [result] or throws. *)
Fixpoint pushEach (projectId : string) (instances : list InstanceSummary)
    (result : list Listed) : Result (list Listed) :=
  match instances with
  | [] => Returned result
  | instance :: rest =>
      match listed projectId instance with
      | Thrown e => Thrown e
      | Returned server => pushEach projectId rest (result ++ [server])
      end
  end.

(** The instances that the two loops visit, in their order. *)
Definition visited (response : option ListAllInstancesResponse)
    : list InstanceSummary :=
  default [] (response ≫= scopes)
  ≫= fun scope => default [] (instances scope).

(** [listServers]; [fetched] is how [listAllInstances] settles. *)
Definition listServers (projectId : string)
    (fetched : Result (option ListAllInstancesResponse)) : Result (list Listed) :=
  match fetched with
  | Thrown e => Thrown e
  | Returned listAllInstancesResponse =>
      pushEach projectId (visited listAllInstancesResponse) []
  end.

End ListServers.

(** *** [listOpenBillingAccounts] and [listProjects] *)

(** [s.lastIndexOf(c)] for a needle of one character, counting from
    [i]: the position of its last occurrence, or -1. *)
Fixpoint lastIndexOfFrom (i : Z) (s : string) (c : ascii) : Z :=
  match s with
  | EmptyString => -1
  | String x rest =>
      let later := lastIndexOfFrom (i + 1) rest c in
      if 0 <=? later then later
      else if Ascii.eqb x c then i else -1
  end.

Definition lastIndexOf (s : string) (c : ascii) : Z := lastIndexOfFrom 0 s c.

(** [s.substring(start)]; a negative [start] counts as 0. *)
Fixpoint dropChars (n : nat) (s : string) : string :=
  match n, s with
  | O, _ => s
  | S _, EmptyString => EmptyString
  | S n', String _ rest => dropChars n' rest
  end.

Definition substring (s : string) (start : Z) : string :=
  dropChars (Z.to_nat start) s.

(** Modelled from the spec: the types [ListBillingAccountsResponse] and
    [ListProjectsResponse] are not declared in the sources, and the spec
    does not describe them; these are the properties that the two
    methods read. *)
Record BillingAccountInfo := {
  billingName : string;
  open : bool;
  displayName : string;
}.
Record ListBillingAccountsResponse := {
  billingAccounts : option (list BillingAccountInfo);
}.
Record ProjectInfo := { infoProjectId : string; infoName : string }.
Record ListProjectsResponse := { projects : option (list ProjectInfo) }.

(** [BillingAccount] and [Project] of the model. *)
Record BillingAccount := { billingId : string; billingDisplayName : string }.
Record Project := { projectId : string; projectName : string }.

(** [xs?.length > 0] *)
Definition nonEmpty {A} (xs : option (list A)) : bool :=
  match xs with
  | Some (_ :: _) => true
  | _ => false
  end.

Definition listOpenBillingAccounts (response : ListBillingAccountsResponse)
    : list BillingAccount :=
  if nonEmpty (billingAccounts response) then
    map (fun billingAccount =>
           {| billingId :=
                substring (billingName billingAccount)
                  (lastIndexOf (billingName billingAccount) "/" + 1);
              billingDisplayName := displayName billingAccount |})
      (List.filter open (default [] (billingAccounts response)))
  else [].

Definition listProjects (response : ListProjectsResponse) : list Project :=
  if nonEmpty (projects response) then
    map (fun project =>
           {| projectId := infoProjectId project;
              projectName := infoName project |})
      (default [] (projects response))
  else [].

(** *** [createProject] and [configureProject] *)

(** Modelled from the spec: the types [ResourceManagerOperation] and
    [ServiceUsageOperation] are not declared in the sources, and the
    spec does not describe them; these are the properties that the two
    methods read, [done] and [error] by their truth value. *)
Record Operation := {
  operationName : string;
  done : bool;
  error : bool;
}.

(** What the two methods do, in order. *)
Inductive Step :=
| PostProject (projectId name : string) (labels : list (string * string))
| GetResourceManagerOperation (operationId : string)
| PutBillingInfo (projectId name billingAccountName : string)
| PostEnableServices (projectId : string) (serviceIds : list string)
| GetServiceUsageOperation (operationId : string)
| Sleep (ms : Z).

Definition OUTLINE_PROJECT_NAME : string := "Outline servers".
Definition REQUIRED_YANDEX_SERVICES : list string := ["compute.cloud.yandex.net"].

(** A computation: the steps taken and the result, [None] while the
    unfolding bound of a loop has not brought it to its end. *)
Definition Run (A : Type) : Type := list Step * option (Result A).

Definition andThen {A B} (r : Run A) (k : A -> Run B) : Run B :=
  match r with
  | (steps, Some (Returned a)) => let '(steps', p) := k a in (steps ++ steps', p)
  | (steps, Some (Thrown e)) => (steps, Some (Thrown e))
  | (steps, None) => (steps, None)
  end.

Definition request {A} (s : Step) (settled : Result A) : Run A :=
  ([s], Some settled).

(** [!operation?.done] *)
Definition notDone (operation : option Operation) : bool :=
  match operation with
  | Some o => negb (done o)
  | None => true
  end.

(** The loop [while (!operation?.done) { await sleep(2 * 1000);
    operation = await get(name) }], entered with the operation of the
    poll before; [reply n] is how the [n]-th poll settles, [polled] the
    number of polls so far, and [fuel] bounds the unfolding. *)
Fixpoint pollUntilDone (fuel : nat) (get : Step)
    (reply : nat -> Result (option Operation)) (polled : nat)
    (operation : option Operation) : Run (option Operation) :=
  if notDone operation then
    match fuel with
    | O => ([], None)
    | S fuel' =>
        match reply polled with
        | Thrown e => ([Sleep 2000; get], Some (Thrown e))
        | Returned next =>
            let '(steps, p) := pollUntilDone fuel' get reply (S polled) next in
            (Sleep 2000 :: get :: steps, p)
        end
    end
  else ([], Some (Returned operation)).

Section CreateProject.

(** How the requests settle, when they are made. *)
Variable projectPosted : Result Operation.
Variable projectPolled : nat -> Result (option Operation).
Variable billingPut : Result unit.
Variable servicesPosted : Result Operation.
Variable servicesPolled : nat -> Result (option Operation).

Definition configureProject (fuel : nat) (projectId billingAccountId : string)
    : Run unit :=
  andThen
    (request
       (PutBillingInfo projectId ("projects/" +:+ projectId +:+ "/billingInfo")
          ("billingAccounts/" +:+ billingAccountId))
       billingPut)
    (fun _ =>
  andThen
    (request (PostEnableServices projectId REQUIRED_YANDEX_SERVICES) servicesPosted)
    (fun enableServicesResponse =>
  andThen
    (pollUntilDone fuel
       (GetServiceUsageOperation (operationName enableServicesResponse))
       servicesPolled 0 None)
    (fun _ => ([], Some (Returned tt))))).

Definition createProject (fuel : nat) (projectId billingAccountId : string)
    : Run Project :=
  andThen
    (request (PostProject projectId OUTLINE_PROJECT_NAME [("outline", "true")])
       projectPosted)
    (fun createProjectResponse =>
  andThen
    (pollUntilDone fuel
       (GetResourceManagerOperation (operationName createProjectResponse))
       projectPolled 0 None)
    (fun _ =>
  andThen (configureProject fuel projectId billingAccountId)
    (fun _ =>
       ([], Some (Returned {| projectId := projectId;
                              projectName := OUTLINE_PROJECT_NAME |}))))).

End CreateProject.

(** *** [isProjectHealthy] *)

(** Modelled from the spec: the types [ProjectBillingInfo] and
    [ListEnabledServicesResponse] are not declared in the sources, and
    the spec does not describe them; these are the properties that
    [isProjectHealthy] reads, [billingEnabled] by its truth value. *)
Record ProjectBillingInfo := { billingEnabled : bool }.
Record ServiceConfig := { configName : string }.
Record Service := { config : option ServiceConfig }.
Record ListEnabledServicesResponse := { services : option (list Service) }.

(** The requests of [isProjectHealthy]. *)
Inductive Check :=
| GetProjectBillingInfo (projectId : string)
| ListEnabledServices (projectId : string).

(** [services.find(service => service.config.name === requiredService)];
    reading the name of a missing [config] is a [TypeError]. *)
Fixpoint findService (requiredService : string) (services : list Service)
    : Result (option Service) :=
  match services with
  | [] => Returned None
  | service :: rest =>
      match config service with
      | None => Thrown (TypeError (PropertyOfNull "name"))
      | Some c =>
          if String.eqb (configName c) requiredService then Returned (Some service)
          else findService requiredService rest
      end
  end.

(** The loop over the required services. *)
Fixpoint allEnabled (required : list string) (services : list Service)
    : Result bool :=
  match required with
  | [] => Returned true
  | requiredService :: rest =>
      match findService requiredService services with
      | Thrown e => Thrown e
      | Returned None => Returned false
      | Returned (Some _) => allEnabled rest services
      end
  end.

Definition isProjectHealthy (projectId : string)
    (billingFetched : Result ProjectBillingInfo)
    (servicesFetched : Result ListEnabledServicesResponse)
    : list Check * Result bool :=
  match billingFetched with
  | Thrown e => ([GetProjectBillingInfo projectId], Thrown e)
  | Returned projectBillingInfo =>
      if negb (billingEnabled projectBillingInfo)
      then ([GetProjectBillingInfo projectId], Returned false)
      else
        ([GetProjectBillingInfo projectId; ListEnabledServices projectId],
         match servicesFetched with
         | Thrown e => Thrown e
         | Returned listEnabledServicesResponse =>
             match services listEnabledServicesResponse with
             | None => Thrown (TypeError (PropertyOfNull "find"))
             | Some enabled => allEnabled REQUIRED_YANDEX_SERVICES enabled
             end
         end)
  end.

End Account.

(** The firewall is there after [createFirewallIfNeeded]: the list has
    it, or it was created and its operation resolved without an error
    list. *)
Definition firewallReady
    (firewallsListed : Result (option Account.ListFirewallsResponse))
    (firewallPosted firewallWaited : Result Cloud.ComputeEngineOperation) : Prop :=
  exists response,
    firewallsListed = Returned response
    /\ (Account.firewallMissing response = false
        \/ exists operation resolved,
             firewallPosted = Returned operation
             /\ firewallWaited = Returned resolved
             /\ Cloud.errors resolved = None).

(** A promise of any value as the server's constructor awaits it. *)
Definition settledAs {A} (r : Result A) : Result unit :=
  match r with
  | Returned _ => Returned tt
  | Thrown e => Thrown e
  end.

(** The zone that the URL of an instance names: the path of the URL ends
    with the pattern of [parseZoneUrl], with this zone. *)
Definition zoneOfUrl (pathname : string -> option string)
    (instance : Account.InstanceSummary) (zoneId : string) : Prop :=
  exists path projectId,
    pathname (Account.summaryZone instance) = Some path
    /\ matchesZonePath path projectId zoneId.

(** The server that [listServers] makes of an instance in a zone. *)
Definition serverIn (accountId projectId : string)
    (instance : Account.InstanceSummary) (zoneId : string) : Account.Listed :=
  {| Account.listedId := accountId +:+ ":" +:+ Account.summaryId instance;
     Account.listedLocator :=
       {| Cloud.zoneOf := {| Cloud.projectId := projectId;
                             Cloud.zoneId := zoneId |};
          Cloud.instanceId := Account.summaryId instance |};
     Account.listedName := Account.summaryName instance |}.

(** [id] is what follows the last slash of [name], all of [name] when it
    has no slash. *)
Definition afterLastSlash (name id : string) : Prop :=
  slashFree id
  /\ (name = id \/ exists before, name = before +:+ "/" +:+ id).

(** The fields of a date are in their ranges, the year not negative. *)
Definition validDate (d : Account.Date) : Prop :=
  0 <= Account.fullYear d
  /\ 0 <= Account.month d <= 11
  /\ 1 <= Account.date d <= 31
  /\ 0 <= Account.hours d <= 23
  /\ 0 <= Account.minutes d <= 59
  /\ 0 <= Account.seconds d <= 59.

(** A character of an RFC 1035 label: a lower-case letter, a digit or a
    hyphen. *)
Definition isLabelChar (c : ascii) : bool :=
  Js.inRange "a" "z" c || Js.inRange "0" "9" c || Ascii.eqb c "-".

(** [pad2] of the numbers below 100. *)
Definition pad2Table : list string :=
  (fun n => Account.pad2 (Z.of_nat n)) <$> seq 0 100.

(** The second of 3 January 2024, 04:05:06 UTC. *)
Definition exampleDate : Account.Date :=
  {| Account.fullYear := 2024; Account.month := 0; Account.date := 3;
     Account.hours := 4; Account.minutes := 5; Account.seconds := 6 |}.

(** The poll number [k] (from 0) is the first that brings an operation
    that is done; the polls before it succeed with none or with one that
    is not done. *)
Definition firstDone (reply : nat -> Result (option Account.Operation))
    (k : nat) (operation : Account.Operation) : Prop :=
  (forall j, (j < k)%nat ->
     exists o, reply j = Returned o /\ Account.notDone o = true)
  /\ reply k = Returned (Some operation)
  /\ Account.done operation = true.

(** [n] rounds of a polling loop: the sleep, then the request. *)
Definition rounds (n : nat) (get : Account.Step) : list Account.Step :=
  mjoin (replicate n [Account.Sleep 2000; get]).

(** The operation is reported as done, with an error, at the third
    poll. *)
Definition doneAtThird (n : nat) : Result (option Account.Operation) :=
  if (n <? 2)%nat
  then Returned (Some {| Account.operationName := "operations/1";
                         Account.done := false; Account.error := false |})
  else Returned (Some {| Account.operationName := "operations/1";
                         Account.done := true; Account.error := true |}).

(** ** The OAuth session: [runOauth] *)

Module Oauth.

Definition scopes : list string :=
  ["https://cloud-api.yandex.net/iam/v1/tokens";
   "https://cloud-api.yandex.net/compute/v1/instances";
   "https://cloud-api.yandex.net/vpc/v1/networks";
   "https://cloud-api.yandex.net/functions/v1/functions";
   "https://cloud-api.yandex.net/storage/v1/buckets"].

Definition responseHtml (messageHtml : string) : string :=
  "<html><script>window.close()</script><body>" +:+ messageHtml
  +:+ ". You can close this window.</body></html>".

(** [!s] for a text or [undefined]. *)
Definition isFalsy (s : option string) : bool :=
  match s with
  | None | Some EmptyString => true
  | Some _ => false
  end.

(** [`${s}`] *)
Definition render (s : option string) : string := default "undefined" s.

(** [verifyGrantedScopes]; [tokenInfo] is how [getTokenInfo] settles,
    with the scopes granted. *)
Definition verifyGrantedScopes (tokenInfo : Result (list string)) : Result bool :=
  match tokenInfo with
  | Thrown e => Thrown e
  | Returned granted =>
      Returned
        (forallb (fun requiredScope =>
                    negb (isFalsy (List.find (String.eqb requiredScope) granted)))
           scopes)
  end.

(** The reply of [getToken], as far as it is read; [status] is
    [res.status], and [None] when [res] is [null]. *)
Record GetTokenResponse := {
  status : option Z;
  access_token : option string;
  refresh_token : option string;
}.

(** The session: the flag, how [tokenPromise] has settled if it has, the
    pages sent, and whether the server was closed. *)
Record Session := {
  isCancelled : bool;
  result : option (Outcome string string);
  pages : list string;
  closed : bool;
}.

(** The session that [runOauth] returns. *)
Definition started : Session :=
  {| isCancelled := false; result := None; pages := []; closed := false |}.

(** [resolve] and [reject]: a promise settles once. *)
Definition settle (o : Outcome string string) (s : Session) : Session :=
  {| isCancelled := isCancelled s;
     result := match result s with Some r => Some r | None => Some o end;
     pages := pages s; closed := closed s |}.

Definition send (page : string) (s : Session) : Session :=
  {| isCancelled := isCancelled s; result := result s;
     pages := pages s ++ [page]; closed := closed s |}.

Definition close (s : Session) : Session :=
  {| isCancelled := isCancelled s; result := result s;
     pages := pages s; closed := true |}.

Definition setCancelled (s : Session) : Session :=
  {| isCancelled := true; result := result s;
     pages := pages s; closed := closed s |}.

(** [status / 100 === 2], on numbers. *)
Definition isTwoHundred (status : Z) : bool :=
  Qeq_bool (inject_Z status / inject_Z 100) (inject_Z 2).

(** The [try] block of the handler: the page to send and how to settle,
    or the exception that reaches the [catch]. *)
Definition exchange (tokenGot : Result GetTokenResponse)
    (tokenInfo : Result (list string)) : Result (string * Outcome string string) :=
  match tokenGot with
  | Thrown e => Thrown e
  | Returned getTokenResponse =>
      match status getTokenResponse with
      | None => Thrown (TypeError (PropertyOfNull "status"))
      | Some code =>
          if isTwoHundred code then
            match verifyGrantedScopes tokenInfo with
            | Thrown e => Thrown e
            | Returned scopesValid =>
                if negb scopesValid then
                  Returned
                    (responseHtml "Authentication failed with missing scope(s)",
                     Thrown "Authentication failed with missing scope(s)")
                else if isFalsy (refresh_token getTokenResponse) then
                  Returned (responseHtml "Authentication failed",
                            Thrown "Authentication failed: Missing refresh token")
                else
                  Returned (responseHtml "Authentication successful",
                            Returned (render (refresh_token getTokenResponse)))
            end
          else
            Returned
              (responseHtml "Authentication failed",
               Thrown ("Authentication failed with HTTP status code: "
                       +:+ decimal code))
      end
  end.

(** The handler of the redirect; [queryError] is [request.query.error]. *)
Definition handler (queryError : option string)
    (tokenGot : Result GetTokenResponse) (tokenInfo : Result (list string))
    (s : Session) : Session :=
  close
    (if negb (isFalsy queryError) then
       if bool_decide (queryError = Some "access_denied") then
         settle (Thrown "Authentication cancelled")
           (send (responseHtml "Authentication cancelled") (setCancelled s))
       else
         settle (Thrown ("Authentication failed with error: " +:+ render queryError))
           (send (responseHtml "Authentication failed") s)
     else
       match exchange tokenGot tokenInfo with
       | Returned (page, outcome) => settle outcome (send page s)
       | Thrown _ =>
           settle (Thrown ("Authentication failed with error: " +:+ render queryError))
             (send (responseHtml "Authentication failed") s)
       end).

(** [cancel()] of the session. *)
Definition cancel (s : Session) : Session :=
  settle (Thrown "Authentication cancelled") (close (setCancelled s)).

End Oauth.

(** What happens to a session: the browser is redirected back, or the
    caller cancels. *)
Inductive OauthEvent :=
| Redirected (queryError : option string)
    (tokenGot : Result Oauth.GetTokenResponse) (tokenInfo : Result (list string))
| CancelCalled.

Definition oauthStep (s : Oauth.Session) (ev : OauthEvent) : Oauth.Session :=
  match ev with
  | Redirected queryError tokenGot tokenInfo =>
      Oauth.handler queryError tokenGot tokenInfo s
  | CancelCalled => Oauth.cancel s
  end.

(** The event sets the cancellation flag. *)
Definition cancels (ev : OauthEvent) : bool :=
  match ev with
  | Redirected queryError _ _ => bool_decide (queryError = Some "access_denied")
  | CancelCalled => true
  end.

(** A reply of [getToken] that brings all there is to bring. *)
Definition grantedReply : Oauth.GetTokenResponse :=
  {| Oauth.status := Some 200; Oauth.access_token := Some "access";
     Oauth.refresh_token := Some "refresh" |}.

(** ** More vocabulary *)

(** Neighbours of a list of progress values: the later one is not
    smaller, or it is 0. *)
Fixpoint risesOrResets (values : list Q) : Prop :=
  match values with
  | a :: (b :: _) as rest => (a <= b \/ b == 0)%Q /\ risesOrResets rest
  | _ => True
  end.

(** The value of the last entry with the key [key]. *)
Definition lastValue (key : string) (entries : list Cloud.Item) : option string :=
  Cloud.value <$> last (filter (fun entry => Cloud.key entry = key) entries).

(** The locator URLs of yandex_api.ts.  [projectUrl] is used there and
    not declared. *)
Section LocatorUrls.

Variable projectUrl : string -> string.

Definition regionUrl (region : Cloud.RegionLocator) : string :=
  projectUrl (Cloud.regionProjectId region) +:+ "/regions/" +:+ Cloud.regionId region.

Definition zoneUrl (zone : Cloud.ZoneLocator) : string :=
  projectUrl (Cloud.projectId zone) +:+ "/zones/" +:+ Cloud.zoneId zone.

Definition instanceUrl (instance : Cloud.InstanceLocator) : string :=
  zoneUrl (Cloud.zoneOf instance) +:+ "/instances/" +:+ Cloud.instanceId instance.

End LocatorUrls.

(** A [projectUrl] for the examples. *)
Definition exampleProjectUrl (projectId : string) : string :=
  "https://compute.example.net/compute/v1/projects/" +:+ projectId.

(** The service [name] is enabled, as [find] sees it: an entry of the
    list has a configuration of this name, and every entry before it has
    a configuration. *)
Definition enabledIn (name : string) (services : list Account.Service) : Prop :=
  exists before service after,
    services = before ++ service :: after
    /\ Forall (fun s => exists c, Account.config s = Some c
                                 /\ Account.configName c <> name) before
    /\ Account.config service = Some {| Account.configName := name |}.

(** ** [getInstancesByTag] of the XHR session *)

(** The characters that [encodeURI] leaves as they are: those of
    [encodeURIComponent] and the reserved ones. *)
Definition isUriChar (c : ascii) : bool :=
  Fetch.isUnreserved c || bool_decide (c ∈ Js.chars ";/?:@&=+$,#").

(** [encodeURI], for code units below 256. *)
Fixpoint encodeURI (s : string) : string :=
  match s with
  | EmptyString => EmptyString
  | String c rest =>
      (if isUriChar c then String c ""
       else if (N_of_ascii c <? 128)%N then Fetch.percent (N_of_ascii c)
       else Fetch.percent (192 + N_of_ascii c / 64)
            +:+ Fetch.percent (128 + N_of_ascii c mod 64))
      +:+ encodeURI rest
  end.

(** The request of [getInstancesByTag]. *)
Definition getInstancesByTag (tag : string) : Session.Request :=
  {| Session.method := "GET";
     Session.actionPath := "instances?tag_name=" +:+ encodeURI tag;
     Session.data := None |}.

(** The static address of a created server, as [delete] will look for
    it. *)
Definition hostOf (created : Account.Created) : Host.YandexHost :=
  {| Host.locator := Account.locator created;
     Host.yandexInstanceName := Account.yandexInstanceName created |}.

(** An operation that has no error list, and the server that
    [createServer] makes of it at 03:04:05 on 2 January 2024. *)
Definition cleanOperation : Cloud.ComputeEngineOperation :=
  {| Cloud.name := "operation-2"; Cloud.targetId := "epd1";
     Cloud.errors := None |}.

Definition createdExample : Account.Created :=
  {| Account.id := "account:epd1";
     Account.locator :=
       {| Cloud.zoneOf := {| Cloud.projectId := "b1gexample";
                             Cloud.zoneId := "ru-central1-a" |};
          Cloud.instanceId := "epd1" |};
     Account.yandexInstanceName := "outline-20240102-030405";
     Account.instanceCreation := Returned cleanOperation |}.

(** * Proofs *)

(** ** Strings *)

Section StringFacts.

Local Arguments String.append !_ _ : simpl nomatch.

Lemma append_nil_r (s : string) : s +:+ "" = s.
Proof. induction s as [|c s IH]; cbn; [done | by f_equal]. Qed.

Lemma chars_append (a b : string) : Js.chars (a +:+ b) = Js.chars a ++ Js.chars b.
Proof. induction a as [|x a IH]; cbn; [done | by f_equal]. Qed.

Lemma startsWith_spec (p s : string) :
  Js.startsWith p s = true <-> exists t, s = p +:+ t.
Proof.
  revert s. induction p as [|a p IH]; intros s; simpl.
  - split; [intros _; by exists s | done].
  - destruct s as [|b s].
    + split; [done | intros [t Ht]; discriminate].
    + destruct (Ascii.eqb_spec a b) as [->|Hne].
      * rewrite IH. split; intros [t Ht]; exists t; congruence.
      * split; [done | intros [t Ht]; congruence].
Qed.

Lemma indexOfFrom_found (i : Z) (s needle : string) :
  0 <= i ->
  0 <= Js.indexOfFrom i s needle <->
  exists pre post, s = pre +:+ needle +:+ post.
Proof.
  revert i. induction s as [|c s IH]; intros i Hi; simpl.
  - destruct (Js.startsWith needle "") eqn:Hp.
    + apply startsWith_spec in Hp as [t Ht].
      split; [intros _; by exists "", t | done].
    + split; [lia|]. intros (pre & post & Heq).
      destruct pre; simpl in Heq; [|discriminate].
      assert (Js.startsWith needle "" = true) by (apply startsWith_spec; eauto).
      congruence.
  - destruct (Js.startsWith needle (String c s)) eqn:Hp.
    + apply startsWith_spec in Hp as [t Ht].
      split; [intros _; by exists "", t | done].
    + rewrite (IH (i + 1)) by lia. split.
      * intros (pre & post & ->). by exists (String c pre), post.
      * intros (pre & post & Heq). destruct pre as [|x pre]; simpl in Heq.
        -- assert (Js.startsWith needle (String c s) = true)
             by (apply startsWith_spec; eauto).
           congruence.
        -- injection Heq as _ ->. eauto.
Qed.

Lemma toLowerCase_append (a b : string) :
  Js.toLowerCase (a +:+ b) = Js.toLowerCase a +:+ Js.toLowerCase b.
Proof. induction a as [|x a IH]; cbn; [done | by f_equal]. Qed.

Lemma toLowerCase_split (s a b : string) :
  Js.toLowerCase s = a +:+ b ->
  exists a' b', s = a' +:+ b' /\ Js.toLowerCase a' = a /\ Js.toLowerCase b' = b.
Proof.
  revert s. induction a as [|x a IH]; intros s H; simpl in H.
  - by exists "", s.
  - destruct s as [|c s]; simpl in H; [discriminate|].
    injection H as Hc Hs. destruct (IH _ Hs) as (a' & b' & -> & Ha & Hb).
    exists (String c a'), b'. simpl. by rewrite Hc, Ha.
Qed.

(** The test of the source, [toLowerCase().indexOf(needle) >= 0], is a
    search up to case. *)
Lemma indexOf_toLowerCase (needle s : string) :
  0 <= Js.indexOf (Js.toLowerCase s) (Js.toLowerCase needle)
  <-> containsIgnoringCase needle s.
Proof.
  unfold Js.indexOf. rewrite indexOfFrom_found by lia. split.
  - intros (pre & post & H).
    apply toLowerCase_split in H as (pre' & rest & -> & _ & H).
    apply toLowerCase_split in H as (mid & post' & -> & Hmid & _).
    by exists pre', mid, post'.
  - intros (pre & mid & post & -> & H).
    exists (Js.toLowerCase pre), (Js.toLowerCase post).
    by rewrite !toLowerCase_append, H.
Qed.

End StringFacts.

(** ** The session *)

Section SessionFacts.

Import Session.

Lemma shouldRetry_spec (e : RequestError) (requestCount : nat) :
  shouldRetry e requestCount = true
  <-> finalizing e /\ (requestCount < MAX_REQUESTS)%nat.
Proof.
  unfold shouldRetry, finalizing.
  rewrite andb_true_iff, Z.leb_le, Nat.ltb_lt.
  change "finalizing" with (Js.toLowerCase "finalizing") at 1.
  by rewrite indexOf_toLowerCase.
Qed.

Lemma attempts_more (request : Request) (n : nat) :
  attempts request (S (S n))
  = Send request :: SetTimeout 5000 :: attempts request (S n).
Proof. done. Qed.

Lemma requestsOf_attempts (request : Request) (n : nat) :
  requestsOf (attempts request n) = replicate n request.
Proof.
  induction n as [|n IH]; [done|]. destruct n as [|n]; [done|].
  rewrite attempts_more.
  change (request :: requestsOf (attempts request (S n))
          = request :: replicate (S n) request).
  by rewrite IH.
Qed.

Section Retry.

Variable reply : nat -> Outcome RequestError InstanceInfo.
Variables (instanceName region keyId : string).
Variable instanceSpec : YandexInstanceSpecification.

Let request := createRequest instanceName region keyId instanceSpec.

(** From any count below the maximum, with enough unfolding, the
    recursion stops at an attempt [k]: the attempts before it were
    retried, [k] itself settles the promise. *)
Lemma makeRequestRecursive_stops (fuel requestCount : nat) :
  (requestCount < MAX_REQUESTS)%nat ->
  (MAX_REQUESTS <= requestCount + fuel)%nat ->
  exists k,
    (requestCount < k <= MAX_REQUESTS)%nat
    /\ makeRequestRecursive reply instanceName region keyId instanceSpec
         fuel requestCount
       = (attempts request (k - requestCount), Some (reply k))
    /\ (forall j, (requestCount < j < k)%nat ->
          exists e, reply j = Thrown e /\ finalizing e)
    /\ (forall e, reply k = Thrown e ->
          ~ finalizing e \/ k = MAX_REQUESTS).
Proof.
  revert requestCount.
  induction fuel as [|fuel IH]; intros c Hc Hfuel; [lia|].
  assert (Hstop : forall o,
             reply (S c) = o ->
             (forall e, o = Thrown e -> shouldRetry e (S c) = false) ->
             exists k,
               (c < k <= MAX_REQUESTS)%nat
               /\ ([Send request], Some o)
                  = (attempts request (k - c), Some (reply k))
               /\ (forall j, (c < j < k)%nat ->
                     exists e, reply j = Thrown e /\ finalizing e)
               /\ (forall e, reply k = Thrown e ->
                     ~ finalizing e \/ k = MAX_REQUESTS)).
  { intros o Ho Hno. exists (S c).
    replace (S c - c)%nat with 1%nat by lia. rewrite Ho.
    split; [lia|]. split; [done|]. split; [intros j Hj; lia|].
    intros e He.
    destruct (decide (S c = MAX_REQUESTS)) as [|Hne]; [by right|left].
    intros Hfin. specialize (Hno e He).
    assert (shouldRetry e (S c) = true); [|congruence].
    apply shouldRetry_spec. split; [done | lia]. }
  simpl. destruct (reply (S c)) as [r|e] eqn:Hreply.
  - apply Hstop; [done | intros e He; discriminate].
  - destruct (shouldRetry e (S c)) eqn:Hretry.
    + apply shouldRetry_spec in Hretry as [Hfin Hlt].
      destruct (IH (S c) Hlt ltac:(lia)) as (k & Hk & Hrun & Hbefore & Hat).
      exists k. rewrite Hrun.
      replace (k - c)%nat with (S (k - S c)) by lia.
      destruct (k - S c)%nat as [|m] eqn:Hm; [lia|].
      rewrite attempts_more.
      split; [lia|]. split; [done|]. split; [|done].
      intros j Hj. destruct (decide (j = S c)) as [->|]; [eauto|].
      apply Hbefore; lia.
    + apply Hstop; [done | intros e' [= <-]; done].
Qed.

End Retry.

Lemma removeOutside_chars (keep : ascii -> bool) (s : string) :
  Js.chars (Js.removeOutside keep s) = List.filter keep (Js.chars s).
Proof.
  induction s as [|c s IH]; simpl; [done|].
  destruct (keep c); simpl; by rewrite IH.
Qed.

Lemma chars_inj (a b : string) : Js.chars a = Js.chars b -> a = b.
Proof.
  intros H. rewrite <- (string_of_list_ascii_of_string a),
    <- (string_of_list_ascii_of_string b). unfold Js.chars in H. by rewrite H.
Qed.

Lemma filter_length_le (keep : ascii -> bool) (l : list ascii) :
  (length (List.filter keep l) <= length l)%nat.
Proof. induction l as [|c l IH]; simpl; [lia|]. destruct (keep c); simpl; lia. Qed.

(** A string is left as it is exactly when it has no character to
    remove. *)
Lemma filter_fixpoint (keep : ascii -> bool) (l : list ascii) :
  List.filter keep l = l <-> Forall (fun c => keep c = true) l.
Proof.
  induction l as [|c l IH]; simpl; [split; [constructor | done]|].
  destruct (keep c) eqn:Hc.
  - split.
    + intros [= H]. constructor; [done | by apply IH].
    + intros H. inversion H; subst. f_equal. by apply IH.
  - split.
    + intros H. pose proof (filter_length_le keep l) as Hle.
      rewrite H in Hle. simpl in Hle. lia.
    + intros H. inversion H; subst. congruence.
Qed.

Lemma filter_none (keep : ascii -> bool) (l : list ascii) :
  Forall (fun c => keep c = false) l -> List.filter keep l = [].
Proof.
  induction 1 as [|c l Hc _ IH]; simpl; [done|]. by rewrite Hc.
Qed.

End SessionFacts.

Example makeValidInstanceName_example :
  Session.makeValidInstanceName "My server_01 (Moscow)!" = "Myserver01Moscow"
  /\ Session.makeValidInstanceName "outline-20240101-000000"
     = "outline-20240101-000000"
  /\ Session.makeValidInstanceName "_ ! ?" = "".
Proof. repeat split. Qed.

Example retry_until_created :
  Session.makeCreateInstanceRequest finalizingTwice "outline" "ru-central1"
    "key-1" exampleSpec
  = (attempts (Session.createRequest "outline" "ru-central1" "key-1" exampleSpec) 3,
     Some (Returned exampleInstance)).
Proof. vm_compute. reflexivity. Qed.

Example retry_exhausted :
  Session.makeCreateInstanceRequest alwaysFinalizing "outline" "ru-central1"
    "key-1" exampleSpec
  = (attempts (Session.createRequest "outline" "ru-central1" "key-1" exampleSpec) 10,
     Some (alwaysFinalizing 10)).
Proof. vm_compute. reflexivity. Qed.

(** C10: the name that [createInstance] uses is the display name without
    the characters outside [[A-Za-z0-9-]]: it equals the display name
    exactly when there is nothing to remove, and it is empty when nothing
    is kept.  The first request registers the SSH key under that name, the
    request that follows a successful registration creates the instance
    under that name, and every request sent carries it. *)
Theorem createInstance_sends_valid_name
    (reply : nat -> Outcome Session.RequestError Session.InstanceInfo)
    (keyReply : Outcome Session.RequestError string)
    (displayName region publicKeyForSSH : string)
    (instanceSpec : Session.YandexInstanceSpecification) :
  let instanceName := Session.makeValidInstanceName displayName in
  let sent :=
    requestsOf (fst (Session.createInstance reply keyReply displayName region
                       publicKeyForSSH instanceSpec)) in
  Js.chars instanceName = List.filter Session.isNameChar (Js.chars displayName)
  /\ (instanceName = displayName
      <-> Forall (fun c => Session.isNameChar c = true) (Js.chars displayName))
  /\ (noNameChar displayName -> instanceName = "")
  /\ sent !! 0%nat
     = Some {| Session.method := "POST"; Session.actionPath := "account/keys";
               Session.data :=
                 Some (Session.KeyData instanceName publicKeyForSSH) |}
  /\ (forall keyId, keyReply = Returned keyId ->
        sent !! 1%nat
        = Some (Session.createRequest instanceName region keyId instanceSpec))
  /\ Forall (fun r => requestName r = Some instanceName) sent.
Proof.
  intros instanceName sent.
  assert (Hchars : Js.chars instanceName
                   = List.filter Session.isNameChar (Js.chars displayName))
    by apply removeOutside_chars.
  split; [done|]. split.
  { rewrite <- filter_fixpoint, <- Hchars.
    split; [by intros -> | apply chars_inj]. }
  split.
  { intros Hnone. apply chars_inj. rewrite Hchars. by apply filter_none. }
  subst sent. unfold Session.createInstance, Session.registerKey_, Session.andThen.
  fold instanceName. destruct keyReply as [keyId|e]; simpl.
  - destruct (makeRequestRecursive_stops reply instanceName region keyId
                instanceSpec Session.MAX_REQUESTS 0)
      as (k & Hk & Hrun & _); [unfold Session.MAX_REQUESTS; lia..|].
    unfold Session.makeCreateInstanceRequest. rewrite Hrun. simpl.
    rewrite Nat.sub_0_r.
    change (requestsOf (?a :: ?l)) with
      ({| Session.method := "POST"; Session.actionPath := "account/keys";
          Session.data := Some (Session.KeyData instanceName publicKeyForSSH) |}
       :: requestsOf l).
    rewrite requestsOf_attempts.
    split; [done|]. split.
    + intros keyId' [= <-]. simpl. destruct k; [lia | done].
    + constructor; [done|]. by apply Forall_replicate.
  - split; [done|]. split; [done|]. by repeat constructor.
Qed.

(** C3: [makeCreateInstanceRequest] makes some number [k] of attempts, at
    least 1 and at most 10, each with the same request and 5000 ms after
    the failure of the one before, and settles as attempt [k] does: with
    its response, or with its error as it is.  Every attempt before [k]
    failed with a message that contains 'finalizing' up to case; attempt
    [k], when it fails, has no such message or is the 10th.  So an attempt
    is retried exactly when its message contains 'finalizing' and fewer
    than 10 attempts were made. *)
Theorem makeCreateInstanceRequest_retries_finalizing
    (reply : nat -> Outcome Session.RequestError Session.InstanceInfo)
    (instanceName region keyId : string)
    (instanceSpec : Session.YandexInstanceSpecification) :
  exists k : nat,
    (1 <= k <= 10)%nat
    /\ Session.makeCreateInstanceRequest reply instanceName region keyId
         instanceSpec
       = (attempts (Session.createRequest instanceName region keyId instanceSpec) k,
          Some (reply k))
    /\ (forall j, (1 <= j < k)%nat ->
          exists e, reply j = Thrown e /\ finalizing e)
    /\ (forall e, reply k = Thrown e -> ~ finalizing e \/ k = 10%nat).
Proof.
  destruct (makeRequestRecursive_stops reply instanceName region keyId
              instanceSpec Session.MAX_REQUESTS 0)
    as (k & Hk & Hrun & Hbefore & Hat); [unfold Session.MAX_REQUESTS; lia..|].
  exists k. rewrite Nat.sub_0_r in Hrun. unfold Session.MAX_REQUESTS in Hk.
  split; [lia|]. split; [done|]. split; [|done].
  intros j Hj. apply Hbefore. lia.
Qed.

(** ** The pattern of [parseZoneUrl] *)

Section ZoneUrlFacts.

Local Arguments String.append !_ _ : simpl nomatch.

Lemma dropLiteral_spec (p s r : string) :
  Cloud.dropLiteral p s = Some r <-> s = p +:+ r.
Proof.
  revert s. induction p as [|a p IH]; intros s; simpl.
  - split; [by intros [= ->] | by intros ->].
  - destruct s as [|b s]; [split; [done | discriminate]|].
    destruct (Ascii.eqb_spec a b) as [->|Hne].
    + rewrite IH. split; [by intros -> | by intros [= ->]].
    + split; [done | intros [= H _]; congruence].
Qed.

Lemma spanNotSlash_sound (s a b : string) :
  Cloud.spanNotSlash s = (a, b) -> s = a +:+ b /\ slashFree a /\ atBoundary b.
Proof.
  revert a b. induction s as [|c s IH]; intros a b; simpl.
  - intros [= <- <-]. repeat split; [constructor | by left].
  - destruct (Cloud.notSlash c) eqn:Hc.
    + destruct (Cloud.spanNotSlash s) as [run after].
      destruct (IH run after eq_refl) as (-> & Hrun & Hafter).
      intros [= <- <-]. repeat split; [by constructor | done].
    + intros [= <- <-]. repeat split; [constructor|].
      right. exists s. unfold Cloud.notSlash in Hc.
      destruct (Ascii.eqb_spec c "/"); [by subst | done].
Qed.

Lemma spanNotSlash_append (a b : string) :
  slashFree a -> atBoundary b -> Cloud.spanNotSlash (a +:+ b) = (a, b).
Proof.
  intros Ha Hb. induction a as [|c a IH]; simpl.
  - destruct Hb as [->|[rest ->]]; done.
  - inversion Ha as [|? ? Hc Ha']; subst. rewrite Hc, (IH Ha'). done.
Qed.

Lemma isEmpty_spec (s : string) : Cloud.isEmpty s = true <-> s = "".
Proof. destruct s; simpl; split; done. Qed.

Lemma matchZoneUrlHere_sound (s p z : string) :
  Cloud.matchZoneUrlHere s = Some (p, z) ->
  s = "/compute/v1/projects/" +:+ p +:+ "/zones/" +:+ z
  /\ p <> "" /\ z <> "" /\ slashFree p /\ slashFree z.
Proof.
  unfold Cloud.matchZoneUrlHere. intros H.
  destruct (Cloud.dropLiteral "/compute/v1/projects/" s) as [r1|] eqn:H1; [|done].
  apply dropLiteral_spec in H1 as ->.
  destruct (Cloud.spanNotSlash r1) as [p' r2] eqn:H2.
  apply spanNotSlash_sound in H2 as (-> & Hp & _).
  cbv beta iota zeta in H.
  destruct (Cloud.isEmpty p') eqn:Ep; [done|].
  destruct (Cloud.dropLiteral "/zones/" r2) as [r3|] eqn:H3; [|done].
  apply dropLiteral_spec in H3 as ->.
  destruct (Cloud.spanNotSlash r3) as [z' r4] eqn:H4.
  apply spanNotSlash_sound in H4 as (-> & Hz & _).
  cbv beta iota zeta in H.
  destruct (Cloud.isEmpty z') eqn:Ez; [done|].
  destruct (Cloud.isEmpty r4) eqn:Er; [|done].
  apply isEmpty_spec in Er as ->. injection H as -> ->.
  rewrite append_nil_r.
  repeat split; try done.
  - intros ->. done.
  - intros ->. done.
Qed.

Lemma matchZoneUrlHere_complete (p z : string) :
  p <> "" -> z <> "" -> slashFree p -> slashFree z ->
  Cloud.matchZoneUrlHere ("/compute/v1/projects/" +:+ p +:+ "/zones/" +:+ z)
  = Some (p, z).
Proof.
  intros Hp Hz Fp Fz. unfold Cloud.matchZoneUrlHere.
  assert (Cloud.dropLiteral "/compute/v1/projects/"
            ("/compute/v1/projects/" +:+ p +:+ "/zones/" +:+ z)
          = Some (p +:+ "/zones/" +:+ z)) as -> by by apply dropLiteral_spec.
  rewrite spanNotSlash_append; [|done|right; by eexists].
  destruct (Cloud.isEmpty p) eqn:Ep; [by apply isEmpty_spec in Ep|].
  assert (Cloud.dropLiteral "/zones/" ("/zones/" +:+ z) = Some z) as ->
    by by apply dropLiteral_spec.
  rewrite <- (append_nil_r z) at 1.
  rewrite spanNotSlash_append; [|done|by left].
  destruct (Cloud.isEmpty z) eqn:Ez; [by apply isEmpty_spec in Ez|]. done.
Qed.

Lemma matchZoneUrl_cons (c : ascii) (s : string) :
  Cloud.matchZoneUrl (String c s)
  = match Cloud.matchZoneUrlHere (String c s) with
    | Some groups => Some groups
    | None => Cloud.matchZoneUrl s
    end.
Proof. done. Qed.

Lemma matchZoneUrl_sound (s p z : string) :
  Cloud.matchZoneUrl s = Some (p, z) -> matchesZonePath s p z.
Proof.
  induction s as [|c s IH]; [done|]. rewrite matchZoneUrl_cons.
  destruct (Cloud.matchZoneUrlHere (String c s)) as [g|] eqn:H.
  - intros [= ->]. apply matchZoneUrlHere_sound in H as (H & ?). by exists "".
  - intros Hs. destruct (IH Hs) as (pre & -> & ?). by exists (String c pre).
Qed.

Lemma matchZoneUrl_here (s : string) (groups : string * string) :
  Cloud.matchZoneUrlHere s = Some groups -> Cloud.matchZoneUrl s = Some groups.
Proof.
  intros H. destruct s; [done|]. by rewrite matchZoneUrl_cons, H.
Qed.

Lemma matchZoneUrl_complete (s p z : string) :
  matchesZonePath s p z -> is_Some (Cloud.matchZoneUrl s).
Proof.
  intros (pre & -> & Hp & Hz & Fp & Fz).
  induction pre as [|c pre IH].
  - exists (p, z). apply matchZoneUrl_here. by apply matchZoneUrlHere_complete.
  - change (String c pre +:+ ?x) with (String c (pre +:+ x)).
    rewrite matchZoneUrl_cons.
    destruct (Cloud.matchZoneUrlHere _); [done | apply IH].
Qed.

Lemma last_segment (a b x y : list ascii) :
  Forall (fun c => Cloud.notSlash c = true) x ->
  Forall (fun c => Cloud.notSlash c = true) y ->
  a ++ "/"%char :: x = b ++ "/"%char :: y -> a = b /\ x = y.
Proof.
  intros Hx Hy. revert b. induction a as [|c a IH]; intros [|d b] H; simpl in H.
  - by injection H.
  - injection H as <- ->. apply Forall_app in Hx as [_ Hx].
    by inversion Hx.
  - injection H as -> <-. apply Forall_app in Hy as [_ Hy].
    by inversion Hy.
  - injection H as -> H. destruct (IH _ H) as [-> ->]. done.
Qed.

Lemma segments_unique (lit word pre pre' p p' z z' : list ascii) :
  let free := Forall (fun c => Cloud.notSlash c = true) in
  free word -> free p -> free p' -> free z -> free z' ->
  pre ++ lit ++ "/"%char :: p ++ "/"%char :: word ++ "/"%char :: z
  = pre' ++ lit ++ "/"%char :: p' ++ "/"%char :: word ++ "/"%char :: z' ->
  p = p' /\ z = z'.
Proof.
  intros free Hw Hp Hp' Hz Hz' H.
  assert (R : forall a b c,
             a ++ lit ++ "/"%char :: b ++ "/"%char :: word ++ "/"%char :: c
             = (((a ++ lit) ++ "/"%char :: b) ++ "/"%char :: word)
               ++ "/"%char :: c)
    by (intros; by rewrite <- !app_assoc).
  rewrite !R in H.
  apply last_segment in H as [H ->]; [|done..].
  apply last_segment in H as [H _]; [|done..].
  apply last_segment in H as [_ ->]; done.
Qed.

Lemma matchesZonePath_unique (s p z p' z' : string) :
  matchesZonePath s p z -> matchesZonePath s p' z' -> p = p' /\ z = z'.
Proof.
  intros (pre & -> & _ & _ & Fp & Fz) (pre' & H & _ & _ & Fp' & Fz').
  apply (f_equal Js.chars) in H. rewrite !chars_append in H.
  destruct (segments_unique (Js.chars "/compute/v1/projects") (Js.chars "zones")
              (Js.chars pre) (Js.chars pre') (Js.chars p) (Js.chars p')
              (Js.chars z) (Js.chars z')) as [Ep Ez]; try done.
  - by repeat constructor.
  - split; by apply chars_inj.
Qed.

End ZoneUrlFacts.

Example parseZoneUrl_example :
  Cloud.parseZoneUrl plainPathname
    "https://compute.api.cloud.yandex.net/compute/v1/projects/b1gexample/zones/ru-central1-a"
  = Returned {| Cloud.projectId := "b1gexample"; Cloud.zoneId := "ru-central1-a" |}
  /\ Cloud.parseZoneUrl plainPathname "ru-central1-a"
     = Thrown (TypeError InvalidURL).
Proof. split; reflexivity. Qed.

(** C9, amended: for a URL whose path ends with
    [/compute/v1/projects/<projectId>/zones/<zoneId>], [parseZoneUrl]
    returns that pair.  When the path has no such end the call throws the
    built-in TypeError of reading [groups] of [null]; when the text is no
    URL it throws the TypeError of the URL constructor.  No failure is an
    error that the kind ParseError names. *)
Theorem parseZoneUrl_pair_or_TypeError
    (pathname : string -> option string) (url : string) :
  (forall path projectId zoneId,
     pathname url = Some path ->
     matchesZonePath path projectId zoneId ->
     Cloud.parseZoneUrl pathname url
     = Returned {| Cloud.projectId := projectId; Cloud.zoneId := zoneId |})
  /\ (forall path,
        pathname url = Some path ->
        (forall projectId zoneId, ~ matchesZonePath path projectId zoneId) ->
        Cloud.parseZoneUrl pathname url
        = Thrown (TypeError (PropertyOfNull "groups")))
  /\ (pathname url = None ->
      Cloud.parseZoneUrl pathname url = Thrown (TypeError InvalidURL))
  /\ (forall e,
        Cloud.parseZoneUrl pathname url = Thrown e -> isParseError e = false).
Proof.
  unfold Cloud.parseZoneUrl. repeat split.
  - intros path projectId zoneId -> Hmatch.
    destruct (matchZoneUrl_complete _ _ _ Hmatch) as [[p z] Hfound].
    rewrite Hfound. apply matchZoneUrl_sound in Hfound.
    by destruct (matchesZonePath_unique _ _ _ _ _ Hmatch Hfound) as [-> ->].
  - intros path -> Hnone.
    destruct (Cloud.matchZoneUrl path) as [[p z]|] eqn:Hfound; [|done].
    apply matchZoneUrl_sound in Hfound. by destruct (Hnone p z).
  - by intros ->.
  - intros e. destruct (pathname url) as [path|]; [|by intros [= <-]].
    destruct (Cloud.matchZoneUrl path) as [[p z]|]; [done | by intros [= <-]].
Qed.

(** C9 as stated fails: the path of this project URL has no zone part, and
    the call throws a TypeError, which is no ParseError. *)
Lemma parseZoneUrl_mismatch_not_ParseError :
  Cloud.parseZoneUrl plainPathname
    "https://compute.api.cloud.yandex.net/compute/v1/projects/b1gexample"
  = Thrown (TypeError (PropertyOfNull "groups"))
  /\ isParseError (TypeError (PropertyOfNull "groups")) = false.
Proof. split; reflexivity. Qed.

(** ** The waiters and the two tolerant call sites *)

(** C7, amended: the zone waiter throws a [GcpError] with the code and the
    message of the first embedded error when the operation carries a
    non-empty error list, and returns the operation when it carries none.
    The region waiter and the global waiter return what the wait endpoint
    returned, error list or not. *)
Theorem operationWait_by_scope (fetched : Result Cloud.ComputeEngineOperation) :
  (forall operation first others,
     fetched = Returned operation ->
     Cloud.errors operation = Some (first :: others) ->
     Cloud.operationWait Cloud.ZoneScope fetched
     = Thrown (GcpError (Cloud.code first) (Cloud.message first)))
  /\ (forall scope operation,
        fetched = Returned operation ->
        Cloud.errors operation = None ->
        Cloud.operationWait scope fetched = Returned operation)
  /\ Cloud.operationWait Cloud.RegionScope fetched = fetched
  /\ Cloud.operationWait Cloud.GlobalScope fetched = fetched.
Proof.
  repeat split.
  - intros operation first others -> Herr. simpl. by rewrite Herr.
  - intros [] operation -> Herr; simpl; [by rewrite Herr | done..].
Qed.

(** C7 as stated fails for the region scope (and the global one): the
    operation with two embedded errors is returned, nothing is thrown. *)
Lemma regionWait_returns_failed_operation :
  Cloud.operationWait Cloud.RegionScope (Returned failedOperation)
  = Returned failedOperation
  /\ Cloud.operationWait Cloud.GlobalScope (Returned failedOperation)
     = Returned failedOperation
  /\ Cloud.operationWait Cloud.ZoneScope (Returned failedOperation)
     = Thrown (GcpError (Some "QUOTA_EXCEEDED") (Some "Quota exceeded")).
Proof. repeat split. Qed.

(** C8, amended: the static-address check answers [true] when the address
    is there and [false] on a 404, and throws a [ServerInstallFailedError]
    built from any other error.  The guest-attribute fetch turns every
    error, a 404 or another, into the absent result, which
    [getOutlineGuestAttributes] reads as the empty map. *)
Theorem notFound_call_sites :
  (forall (StaticIp : Type) (found : StaticIp),
     Install.hasStaticIp (Returned found) = Returned true)
  /\ (forall (StaticIp : Type) (e : JsError),
        Install.hasStaticIp (StaticIp := StaticIp) (Thrown e)
        = if is404 e then Returned false
          else Thrown (ServerInstallFailedFrom "Static IP check failed: " e))
  /\ (forall e : JsError,
        Cloud.getGuestAttributes (Thrown e) = Returned None
        /\ Install.getOutlineGuestAttributes (Thrown e) = Returned ∅)
  /\ (forall attributes,
        Cloud.getGuestAttributes (Returned attributes) = Returned (Some attributes)).
Proof. repeat split. Qed.

(** C8 as stated fails: a 500 from the guest-attribute endpoint is no 404,
    and the fetch absorbs it as it does a 404. *)
Lemma getGuestAttributes_absorbs_500 :
  is404 (HttpError 500 "Internal Server Error") = false
  /\ Cloud.getGuestAttributes (Thrown (HttpError 500 "Internal Server Error"))
     = Returned None
  /\ Cloud.getGuestAttributes (Thrown (HttpError 404 "Not Found"))
     = Returned None
  /\ Install.hasStaticIp (StaticIp := unit)
       (Thrown (HttpError 500 "Internal Server Error"))
     = Thrown (ServerInstallFailedFrom "Static IP check failed: "
                 (HttpError 500 "Internal Server Error")).
Proof. repeat split. Qed.

(** ** The installation state machine *)

Section InstallFacts.

Import Install.

Lemma setInstallState_open (newState : InstallState) (s : YandexServer) :
  ValueStream.closed (installState s) = false ->
  setInstallState newState s
  = (withInstallState (ValueStream.make newState (isFinal newState)) s,
     Returned tt).
Proof.
  intros Hopen. unfold setInstallState, ValueStream.set. rewrite Hopen.
  by destruct (isFinal newState).
Qed.

Lemma setInstallState_closed (newState : InstallState) (s : YandexServer) :
  ValueStream.closed (installState s) = true ->
  setInstallState newState s = (s, Thrown ClosedStreamError).
Proof.
  intros Hclosed. unfold setInstallState, ValueStream.set. by rewrite Hclosed.
Qed.

Lemma setInstallState_writes (v : InstallState) (states : list InstallState)
    (s : YandexServer) :
  v ∈ states -> writesOneOf states s (fst (setInstallState v s)).
Proof.
  intros Hv. unfold writesOneOf, streamWrites.
  destruct (ValueStream.closed (installState s)) eqn:Hc.
  - rewrite setInstallState_closed by done. by repeat split; try left.
  - rewrite setInstallState_open by done. repeat split. right. eauto.
Qed.

Lemma onDelete_spec (s : YandexServer) :
  onDelete s
  = (if ValueStream.closed (installState s) then s
     else withInstallState (ValueStream.make CANCELED true) s,
     Returned tt).
Proof.
  unfold onDelete, bind, isClosed, setInstallState, ValueStream.set,
    ValueStream.isClosed.
  destruct (ValueStream.closed (installState s)) eqn:Hc; [done|].
  by rewrite Hc.
Qed.

Lemma pollIteration_writes_for (attributes : gmap string string) (s : YandexServer) :
  writesOneOf
    (pollWritesFor (bool_decide (is_Some (attributes !! "certSha256"))))
    s (fst (pollIteration attributes s)).
Proof.
  assert (Hset : forall states (v : InstallState) (ctl : LoopControl) t,
             v ∈ states -> installState t = installState s ->
             chain t = chain s -> poll t = poll s ->
             writesOneOf states s
               (fst ((setInstallState v ;; ret ctl)%server t))).
  { intros states v ctl t Hv Ht Hch Hp. unfold bind.
    pose proof (setInstallState_writes v states t Hv) as Hw.
    unfold writesOneOf, streamWrites in *.
    destruct (setInstallState v t) as [t' [[]|e]]; simpl in *;
      destruct Hw as (Hch' & Hp' & Hw); rewrite Ht in Hw;
      by rewrite Hch', Hp', Hch, Hp. }
  assert (Hnone : forall states, writesOneOf states s s)
    by (by repeat split; try left).
  unfold pollIteration.
  destruct (attributes !! "apiUrl") as [u|];
    destruct (attributes !! "certSha256") as [c|]; simpl;
    repeat match goal with
           | |- context [bool_decide ?P] => destruct (bool_decide P)
           end;
    try (apply Hset; [set_solver | done..]);
    try apply Hnone.
  unfold bind at 1, lift. destruct (Base64.atob c) as [decoded|e].
  - unfold bind at 1, setManagementApi.
    apply Hset; [set_solver | done..].
  - apply Hnone.
Qed.

Lemma getOutlineGuestAttributes_returns (fetched : Result Cloud.GuestAttributes) :
  exists attributes, getOutlineGuestAttributes fetched = Returned attributes.
Proof. destruct fetched; simpl; eauto. Qed.

Lemma pollResume_writes_for (fetched : Result Cloud.GuestAttributes) (s : YandexServer) :
  exists t p,
    pollResume fetched s = withPoll p t
    /\ writesOneOf (pollWritesFor (hasCertificate fetched)) s t.
Proof.
  unfold pollResume, bind at 1, lift, hasCertificate.
  destruct (getOutlineGuestAttributes_returns fetched) as [attributes ->].
  pose proof (pollIteration_writes_for attributes s) as Hw.
  destruct (pollIteration attributes s) as [t [[]|e]]; simpl in Hw;
    eexists t, _; (split; [reflexivity|]); done.
Qed.

(** Splits a membership in a list of states into its cases. *)
Ltac members H :=
  repeat (apply elem_of_cons in H as [H|H]; [try discriminate H; try subst|]);
  try (by apply elem_of_nil in H).

Lemma step_invariant (s : YandexServer) (ev : Event) :
  phaseInvariant s ->
  phaseInvariant (step s ev)
  /\ advances (state s) (state (step s ev))
  /\ (isFinal (state s) = true -> installState (step s ev) = installState s).
Proof.
  destruct ev as [r|r|r|r| |].
  6: {
    destruct s as [[v c] m ch p]. unfold phaseInvariant, consistent, advances, state.
    simpl. intros [-> Hph].
    destruct v, ch; simpl in *; try (intuition (done || lia)). }
  5: {
    destruct s as [[v c] m ch p]. unfold phaseInvariant, consistent, advances, state.
    simpl. intros [-> Hph].
    destruct p, v, ch; simpl in *; try (intuition (done || lia)). }
  4: {
    intros Hinv. unfold step. destruct (poll s) eqn:Hpoll;
      try (split; [exact Hinv|]; split; [left; lia | done]).
    destruct Hinv as [Hc Hph].
    destruct (pollResume_writes_for r s) as (t & p & -> & (Hch & Hp & Hw)).
    destruct s as [[v c] m ch q], t as [[v' c'] m' ch' q'].
    unfold phaseInvariant, consistent, advances, state, streamWrites in *.
    simpl in *.
    subst.
    assert (Hrank : (2 <= rank v)%nat).
    { destruct ch; try (by destruct Hph as [[=] _]). by destruct Hph as [[=]|]. }
    assert (Hch : exists readiness, ch = Settled readiness).
    { destruct ch; try (by destruct Hph as [[=] _]). eauto. }
    destruct Hch as [readiness ->].
    destruct Hw as [[= -> ->]|(Hopen & w & Hw & [= -> ->])].
    - split; [split; [done | by right]|]. split; [left; lia | done].
    - simpl in Hopen. split; [|split; [|by rewrite Hopen]].
      + split; [done|]. right.
        destruct (hasCertificate r); simpl in Hw; members Hw; simpl; lia.
      + destruct (hasCertificate r); simpl in Hw; members Hw;
          destruct v; simpl in *; try done; (left; lia) || (by right). }
  all: destruct s as [[v c] m ch p];
    unfold phaseInvariant, consistent, advances, state, step;
    simpl; intros [-> Hph];
    destruct ch; simpl in *;
    try (split; [done|]; split; [left; lia | done]);
    destruct Hph as [-> [-> | ->]].
  all: try destruct (hasStaticIp r) as [[]|e'].
  all: try destruct r as [x|e].
  all: cbv; intuition (done || lia).
Qed.

Lemma step_writes (s : YandexServer) (ev : Event) :
  streamWrites (writesOf ev) s (step s ev).
Proof.
  destruct ev as [r|r|r|r| |]; unfold step.
  - destruct (chain s); try (by left).
    destruct s as [[v [|]] m ch p], r as [x|e]; [by left..| |];
      right; (split; [done|]);
      first [ exists INSTANCE_CREATED; split; [set_solver | reflexivity]
            | exists IP_ALLOCATED; split; [set_solver | reflexivity]
            | exists FAILED; split; [set_solver | reflexivity] ].
  - destruct (chain s); try (by left).
    destruct s as [[v [|]] m ch p], (hasStaticIp r) as [[|]|e]; [by left..| | |];
      try (by left);
      right; (split; [done|]);
      first [ exists INSTANCE_CREATED; split; [set_solver | reflexivity]
            | exists IP_ALLOCATED; split; [set_solver | reflexivity]
            | exists FAILED; split; [set_solver | reflexivity] ].
  - destruct (chain s); try (by left).
    destruct s as [[v [|]] m ch p], r as [x|e]; [by left..| |];
      right; (split; [done|]);
      first [ exists INSTANCE_CREATED; split; [set_solver | reflexivity]
            | exists IP_ALLOCATED; split; [set_solver | reflexivity]
            | exists FAILED; split; [set_solver | reflexivity] ].
  - destruct (poll s); try (by left).
    destruct (pollResume_writes_for r s) as (t & p & -> & (_ & _ & Hw)). done.
  - destruct (poll s); try (by left). unfold pollLoopTest.
    destruct (ValueStream.isClosed (installState s)); by left.
  - rewrite onDelete_spec. simpl.
    destruct (ValueStream.closed (installState s)) eqn:Hc; [by left|].
    right. split; [done|]. exists CANCELED. split; [set_solver | done].
Qed.

(** Where [CERTIFICATE_CREATED] comes from, and what takes it back. *)
Lemma step_certificate (s : YandexServer) (ev : Event) :
  (state (step s ev) = CERTIFICATE_CREATED ->
   state s = CERTIFICATE_CREATED
   \/ exists fetched, ev = GuestAttributesFetched fetched
                      /\ hasCertificate fetched = true)
  /\ (state s = CERTIFICATE_CREATED ->
      state (step s ev) = INSTANCE_RUNNING ->
      exists fetched, ev = GuestAttributesFetched fetched
                      /\ hasCertificate fetched = false).
Proof.
  unfold state.
  destruct (step_writes s ev) as [->|(_ & w & Hw & ->)];
    [split; [by left | congruence]|].
  simpl. destruct ev as [r|r|r|r| |]; simpl in Hw;
    try solve [split; [intros ->|intros _ ->]; members Hw].
  destruct (hasCertificate r) eqn:Hcert; simpl in Hw.
  - split; [intros _; right; by exists r | intros _ ->; members Hw].
  - split; [intros ->; members Hw | intros _ _; by exists r].
Qed.

Lemma new_invariant : phaseInvariant new.
Proof. split; [done|]. simpl. auto. Qed.

Lemma run_invariant (s : YandexServer) (events : list Event) :
  phaseInvariant s -> phaseInvariant (run s events).
Proof.
  revert s. induction events as [|ev events IH]; intros s Hs; [done|].
  apply IH. by apply step_invariant.
Qed.

Lemma recorded_stepwise (s : YandexServer) (events : list Event) :
  phaseInvariant s -> stepwise advances (state s :: recorded s events).
Proof.
  revert s. induction events as [|ev events IH]; intros s Hs; [done|].
  destruct (step_invariant s ev Hs) as (Hs' & Hadv & _).
  split; [done | by apply IH].
Qed.

Lemma final_is_kept (s : YandexServer) (events : list Event) :
  phaseInvariant s -> isFinal (state s) = true ->
  installState (run s events) = installState s.
Proof.
  revert s. induction events as [|ev events IH]; intros s Hs Hfinal; [done|].
  destruct (step_invariant s ev Hs) as (Hs' & _ & Hkept).
  simpl. rewrite IH; [by apply Hkept | done |].
  unfold state. by rewrite (Hkept Hfinal).
Qed.

Lemma recorded_nonDecreasing (s : YandexServer) (seen : bool) (events : list Event) :
  phaseInvariant s ->
  (state s = CERTIFICATE_CREATED -> seen = true) ->
  certificateStays seen events ->
  nonDecreasing (state s :: recorded s events) = true.
Proof.
  revert s seen. induction events as [|ev events IH]; intros s seen Hs Hseen Hstay;
    [done|].
  destruct (step_invariant s ev Hs) as (Hs' & Hadv & _).
  destruct (step_certificate s ev) as [Hfrom Hback].
  change (((rank (state s) <=? rank (state (step s ev)))%nat
           && nonDecreasing (state (step s ev) :: recorded (step s ev) events))
          = true).
  apply andb_true_iff. split.
  - apply Nat.leb_le. destruct Hadv as [Hle|[Hcert Hrun]]; [done|].
    destruct (Hback Hcert Hrun) as (fetched & -> & Hnone).
    destruct Hstay as [Hstay _]. rewrite (Hstay (Hseen Hcert)) in Hnone. done.
  - destruct ev as [r|r|r|r| |];
      try (apply (IH _ seen); [done| |done];
           intros Hc; destruct (Hfrom Hc) as [?|(? & [=] & _)]; auto).
    destruct Hstay as [Hstay Hrest].
    apply (IH _ (seen || hasCertificate r)); [done| |done].
    intros Hc. destruct (Hfrom Hc) as [?|(? & [= <-] & ->)];
      [rewrite Hseen by done; done | by rewrite orb_true_r].
Qed.

Example install_history :
  history installEvents
  = [UNKNOWN; INSTANCE_CREATED; INSTANCE_CREATED; IP_ALLOCATED; IP_ALLOCATED;
     IP_ALLOCATED; INSTANCE_RUNNING; INSTANCE_RUNNING; CERTIFICATE_CREATED;
     CERTIFICATE_CREATED; COMPLETED]
  /\ certificateStays false installEvents
  /\ managementApi (run new installEvents)
     = Some (makePathApiClient "https://10.0.0.1:1234/secret"
               (String "000" (String "001" (String "002" "")))).
Proof. split; [|split]; vm_compute; tauto. Qed.

(** C1, amended: under every sequence of events (settled promises, fetched
    guest attributes, elapsed sleeps, deletion requests) each recorded
    state is followed by one that is not lower in the order of the enum,
    or is [CERTIFICATE_CREATED] followed by [INSTANCE_RUNNING]; the history
    is non-decreasing whenever certSha256, once in a fetched snapshot, is
    in every later one.  Once the recorded state is final, no further
    event changes the stream. *)
Theorem recorded_states_advance (events : list Event) :
  stepwise advances (history events)
  /\ (certificateStays false events -> nonDecreasing (history events) = true)
  /\ (forall after,
        isFinal (state (run new events)) = true ->
        installState (run new (events ++ after))
        = installState (run new events)).
Proof.
  split; [apply recorded_stepwise, new_invariant|]. split.
  - apply recorded_nonDecreasing; [apply new_invariant | done].
  - intros after Hfinal. unfold run. rewrite foldl_app.
    apply final_is_kept; [apply run_invariant, new_invariant | done].
Qed.

(** C1 as stated fails: a poll that observes certSha256 followed by a poll
    that observes only install-started takes the recorded state from
    [CERTIFICATE_CREATED] back to [INSTANCE_RUNNING]. *)
Lemma certificate_then_started_goes_back :
  history regressionEvents
  = [UNKNOWN; INSTANCE_CREATED; IP_ALLOCATED; CERTIFICATE_CREATED;
     CERTIFICATE_CREATED; INSTANCE_RUNNING]
  /\ nonDecreasing (history regressionEvents) = false.
Proof. split; vm_compute; reflexivity. Qed.

(** C5: for a server reached by any sequence of events, [onDelete] returns
    normally; when the recorded state is not final it records [CANCELED],
    which stays recorded whatever happens next, and the progress sequence
    then ends with [ServerInstallCanceledError]; when the recorded state is
    final it leaves the server as it is. *)
Theorem onDelete_cancels_unless_final (events : list Event) :
  let s := run new events in
  snd (onDelete s) = Returned tt
  /\ (isFinal (state s) = false ->
      state (fst (onDelete s)) = CANCELED
      /\ forall after watched,
           state (run (fst (onDelete s)) after) = CANCELED
           /\ snd (monitorInstallProgress watched
                     (installState (run (fst (onDelete s)) after)))
              = Thrown ServerInstallCanceledError)
  /\ (isFinal (state s) = true -> fst (onDelete s) = s).
Proof.
  intros s. pose proof (run_invariant new events new_invariant) as Hs.
  fold s in Hs.
  assert (Hstep : phaseInvariant (fst (onDelete s)))
    by apply (step_invariant s DeleteRequested Hs).
  destruct Hs as [Hc _]. unfold consistent in Hc.
  unfold onDelete, bind, isClosed, ValueStream.isClosed in *. rewrite Hc in *.
  destruct (isFinal (state s)) eqn:Hfinal; simpl in *.
  - split; [done|]. split; done.
  - rewrite setInstallState_open in * by (by rewrite Hc).
    split; [done|]. split; [|done]. intros _. split; [done|].
    intros after watched.
    unfold state at 1. rewrite (final_is_kept _ after Hstep) by done.
    split; reflexivity.
Qed.

(** C6: when the stream has ended, [monitorInstallProgress] has yielded the
    fraction of every state it watched and then, by the final state:
    throws [ServerInstallFailedError] for [FAILED], throws
    [ServerInstallCanceledError] for [CANCELED], and for [COMPLETED] yields
    the fraction 1 as its last value and returns. *)
Theorem monitorInstallProgress_outcome (watched : list InstallState)
    (stream : ValueStream.t InstallState) :
  let yielded := map getCompletionFraction watched in
  (ValueStream.get stream = FAILED ->
   monitorInstallProgress watched stream
   = (yielded, Thrown (ServerInstallFailedError "")))
  /\ (ValueStream.get stream = CANCELED ->
      monitorInstallProgress watched stream
      = (yielded, Thrown ServerInstallCanceledError))
  /\ (ValueStream.get stream = COMPLETED ->
      monitorInstallProgress watched stream = (yielded ++ [1%Q], Returned tt)
      /\ last (fst (monitorInstallProgress watched stream)) = Some 1%Q).
Proof.
  intros yielded. unfold monitorInstallProgress. fold yielded.
  split; [|split]; intros ->; simpl; [done..|].
  split; [done | by rewrite last_snoc].
Qed.

(** C2, amended: in one iteration of the poll loop on an open stream, a
    snapshot with both apiUrl and certSha256, the latter decodable, records
    [COMPLETED] with the handle made from that URL and the decoded
    fingerprint, and ends the loop, whatever else is present; a snapshot
    with install-error records [FAILED] and ends the loop unless apiUrl and
    certSha256 are both present; a snapshot with certSha256, without apiUrl
    and install-error, records [CERTIFICATE_CREATED]; a snapshot with
    install-started, without certSha256 and install-error, records
    [INSTANCE_RUNNING]; the last two continue polling. *)
Theorem pollIteration_priority
    (outlineGuestAttributes : gmap string string) (s : YandexServer) :
  ValueStream.isClosed (installState s) = false ->
  let run := pollIteration outlineGuestAttributes s in
  let present key := is_Some (outlineGuestAttributes !! key) in
  let absent key := outlineGuestAttributes !! key = None in
  (forall apiUrl certSha256 decoded,
     outlineGuestAttributes !! "apiUrl" = Some apiUrl ->
     outlineGuestAttributes !! "certSha256" = Some certSha256 ->
     Base64.atob certSha256 = Returned decoded ->
     run = (withInstallState (ValueStream.make COMPLETED true)
              (withManagementApi (makePathApiClient apiUrl decoded) s),
            Returned Break))
  /\ (present "install-error" ->
      ~ (present "apiUrl" /\ present "certSha256") ->
      run = (withInstallState (ValueStream.make FAILED true) s, Returned Break))
  /\ (present "certSha256" -> absent "apiUrl" -> absent "install-error" ->
      run = (withInstallState (ValueStream.make CERTIFICATE_CREATED false) s,
             Returned Continue))
  /\ (present "install-started" -> absent "certSha256" ->
      absent "install-error" ->
      run = (withInstallState (ValueStream.make INSTANCE_RUNNING false) s,
             Returned Continue)).
Proof.
  intros Hopen run present absent. subst run present absent.
  unfold pollIteration, ValueStream.isClosed in *.
  repeat split.
  - intros apiUrl certSha256 decoded -> -> Hdecoded.
    unfold bind, lift, setManagementApi. rewrite Hdecoded.
    rewrite setInstallState_open by done. done.
  - intros [e He] Hnot. rewrite He.
    destruct (outlineGuestAttributes !! "apiUrl") as [u|] eqn:Hu;
      destruct (outlineGuestAttributes !! "certSha256") as [c|] eqn:Hc;
      try (destruct Hnot; split; eauto; fail);
      unfold bind; simpl; rewrite setInstallState_open by done; done.
  - intros [c Hc] Hu He. rewrite Hu, Hc, He.
    unfold bind; simpl; rewrite setInstallState_open by done; done.
  - intros [v Hv] Hc He. rewrite Hc, He, Hv.
    destruct (outlineGuestAttributes !! "apiUrl");
    unfold bind; simpl; rewrite setInstallState_open by done; done.
Qed.

(** The priority of C2 on a snapshot that holds only install-started. *)
Lemma pollIteration_priority_started_only :
  ValueStream.isClosed (installState polling) = false
  /\ pollIteration (attributesOf [("install-started", "true")]) polling
     = (withInstallState (ValueStream.make INSTANCE_RUNNING false) polling,
        Returned Continue).
Proof.
  assert (Hopen : ValueStream.isClosed (installState polling) = false)
    by reflexivity.
  split; [exact Hopen|].
  apply (pollIteration_priority
           (attributesOf [("install-started", "true")]) polling Hopen).
  - exists "true". reflexivity.
  - reflexivity.
  - reflexivity.
Defined.

(** C2 as stated fails: with install-error present next to apiUrl and
    certSha256, the iteration records [COMPLETED], not [FAILED]. *)
Lemma install_error_next_to_endpoint_completes :
  attributesOf endpointAndError !! "install-error" = Some "boom"
  /\ state (fst (pollIteration (attributesOf endpointAndError) polling))
     = COMPLETED
  /\ state (step polling (GuestAttributesFetched (snapshot endpointAndError)))
     = COMPLETED.
Proof. repeat split; vm_compute; reflexivity. Qed.

End InstallFacts.

(** ** The host handle *)

Section HostFacts.

Import Install.

Lemma withoutWarnings_app (a b : list Host.Action) :
  withoutWarnings (a ++ b) = withoutWarnings a ++ withoutWarnings b.
Proof. apply List.filter_app. Qed.

Example delete_before_anything_exists :
  let run :=
    Host.delete (fun zoneId => "ru-central1") exampleHost
      (Thrown (GcpError (Some "QUOTA_EXCEEDED") None))
      (Thrown (HttpError 404 "Not Found")) (Thrown (HttpError 404 "Not Found"))
      {| Host.server := new; Host.trace := [] |} in
  snd run = Returned tt
  /\ state (Host.server (fst run)) = CANCELED
  /\ withoutWarnings (Host.trace (fst run))
     = [Host.CallDeleteCallback; Host.AwaitInstanceReadiness;
        Host.RequestDeleteStaticIp
          {| Cloud.regionProjectId := "b1gexample"; Cloud.regionId := "ru-central1" |}
          "outline-20240101-000000";
        Host.RequestDeleteInstance (Host.locator exampleHost)].
Proof. repeat split. Qed.

(** C4: [delete] first calls the delete callback, which is [onDelete] of
    the server, then awaits the readiness of the instance, whose rejection
    it swallows, then requests the deletion of the static address, and,
    when that step ends normally, requests the deletion of the instance.
    A deletion step ends normally when its request succeeds or fails with
    a 404; any other error of a step is the error [delete] rejects with. *)
Theorem delete_steps_in_order
    (regionIdOf : string -> string) (host : Host.YandexHost)
    (instanceReadiness : Result unit)
    (staticIpDeletion instanceDeletion : Result Cloud.ComputeEngineOperation)
    (w : Host.World) :
  let run :=
    Host.delete regionIdOf host instanceReadiness staticIpDeletion
      instanceDeletion w in
  let first :=
    [Host.CallDeleteCallback; Host.AwaitInstanceReadiness;
     Host.RequestDeleteStaticIp (Host.regionLocator regionIdOf host)
       (Host.yandexInstanceName host)] in
  Host.server (fst run) = fst (onDelete (Host.server w))
  /\ match deletionStep staticIpDeletion with
     | Thrown e =>
         withoutWarnings (Host.trace (fst run))
         = withoutWarnings (Host.trace w) ++ first
         /\ snd run = Thrown e
     | Returned _ =>
         withoutWarnings (Host.trace (fst run))
         = withoutWarnings (Host.trace w) ++ first
           ++ [Host.RequestDeleteInstance (Host.locator host)]
         /\ snd run = deletionStep instanceDeletion
     end.
Proof.
  intros run first. subst run first.
  unfold Host.delete, Host.deleteCallback, Host.waitForDelete, Host.tryCatch,
    Host.bind, Host.act, Host.await, Host.ret, Host.throw, deletionStep.
  destruct w as [s tr]. simpl.
  rewrite onDelete_spec.
  destruct instanceReadiness as [[]|e0]; simpl;
    (destruct staticIpDeletion as [op|e1]; simpl;
     [|destruct (is404 e1); simpl]);
    try (destruct instanceDeletion as [op'|e2]; simpl;
         [|destruct (is404 e2); simpl]);
    (split; [done|]); (split; [|done]);
    rewrite ?withoutWarnings_app; simpl; rewrite ?app_nil_r, <- ?app_assoc; done.
Qed.

End HostFacts.

(** * More of the code: proofs *)

(** ** Strings, once more *)

Section SearchFacts.

Local Arguments String.append !_ _ : simpl nomatch.

Lemma chars_of_list (l : list ascii) : Js.chars (string_of_list_ascii l) = l.
Proof. apply list_ascii_of_string_of_list_ascii. Qed.

Lemma toLowerCase_chars (s : string) :
  Js.chars (Js.toLowerCase s) = fmap Js.lowerChar (Js.chars s).
Proof. induction s as [|c s IH]; simpl; [done | by f_equal]. Qed.

(** An occurrence up to case, on the characters. *)
Lemma containsIgnoringCase_chars (needle s : string) :
  containsIgnoringCase needle s
  <-> exists pre mid post : list ascii,
        Js.chars s = pre ++ mid ++ post
        /\ fmap Js.lowerChar mid = fmap Js.lowerChar (Js.chars needle).
Proof.
  split.
  - intros (pre & mid & post & -> & H).
    exists (Js.chars pre), (Js.chars mid), (Js.chars post).
    rewrite !chars_append. split; [done|].
    by rewrite <- !toLowerCase_chars, H.
  - intros (pre & mid & post & Hs & H).
    exists (string_of_list_ascii pre), (string_of_list_ascii mid),
      (string_of_list_ascii post). split.
    + apply chars_inj. by rewrite !chars_append, !chars_of_list.
    + apply chars_inj. by rewrite !toLowerCase_chars, chars_of_list.
Qed.

Lemma containsIgnoringCase_append_l (needle a b : string) :
  containsIgnoringCase needle a -> containsIgnoringCase needle (a +:+ b).
Proof.
  rewrite !containsIgnoringCase_chars.
  intros (pre & mid & post & Ha & H). exists pre, mid, (post ++ Js.chars b).
  by rewrite chars_append, Ha, <- !app_assoc.
Qed.

Lemma containsIgnoringCase_append_r (needle a b : string) :
  containsIgnoringCase needle b -> containsIgnoringCase needle (a +:+ b).
Proof.
  rewrite !containsIgnoringCase_chars.
  intros (pre & mid & post & Hb & H). exists (Js.chars a ++ pre), mid, post.
  by rewrite chars_append, Hb, <- !app_assoc.
Qed.

(** A character whose lower case is not in the needle separates the
    search: an occurrence lies on one side of it. *)
Lemma containsIgnoringCase_separator (needle a b : string) (c : ascii) :
  Js.lowerChar c ∉ fmap Js.lowerChar (Js.chars needle) ->
  containsIgnoringCase needle (a +:+ String c b)
  <-> containsIgnoringCase needle a \/ containsIgnoringCase needle b.
Proof.
  intros Hc. split.
  - rewrite !containsIgnoringCase_chars.
    intros (pre & mid & post & Hs & H).
    assert (Hmid : c ∉ mid).
    { intros Hin. apply Hc. rewrite <- H. by apply list_elem_of_fmap_2. }
    rewrite chars_append in Hs. simpl in Hs.
    apply app_eq_inv in Hs as [[k [Ha Hrest]]|[k [Hpre Hrest]]].
    + apply app_eq_inv in Hrest as [[k' [Hm Hp]]|[k' [Hk Hp]]].
      * destruct k' as [|x k']; simpl in Hp.
        -- rewrite app_nil_r in Hm. subst k. left. exists pre, mid, [].
           by rewrite app_nil_r.
        -- injection Hp as <- _. destruct Hmid. rewrite Hm. set_solver.
      * subst k. left. exists pre, mid, k'. by rewrite Ha.
    + destruct k as [|x k]; simpl in Hrest.
      * destruct mid as [|x mid]; simpl in Hrest.
        -- left. exists (Js.chars a), [], []. by rewrite app_nil_r.
        -- injection Hrest as <- _. destruct Hmid. set_solver.
      * injection Hrest as _ Hb. right. by exists k, mid, post.
  - intros [H|H]; [by apply containsIgnoringCase_append_l|].
    apply containsIgnoringCase_append_r.
    by apply (containsIgnoringCase_append_r needle (String c "") b).
Qed.

(** An occurrence of a needle shows its first character. *)
Lemma containsIgnoringCase_first (needle s : string) (c : ascii) (rest : string) :
  needle = String c rest ->
  containsIgnoringCase needle s ->
  Js.lowerChar c ∈ fmap Js.lowerChar (Js.chars s).
Proof.
  intros -> (pre & mid & post & Hs & H)%containsIgnoringCase_chars.
  rewrite Hs, !fmap_app. destruct mid as [|x mid]; [done|].
  injection H as <- _. set_solver.
Qed.

End SearchFacts.

(** ** Numbers as text *)

Section DecimalFacts.

Lemma string_of_uint_chars (d : Decimal.uint) :
  Forall (fun c => Js.inRange "0" "9" c = true)
    (Js.chars (NilEmpty.string_of_uint d)).
Proof. induction d; simpl; constructor; done. Qed.

Lemma decimal_chars (n : Z) :
  Forall (fun c => isNumberChar c = true) (Js.chars (decimal n)).
Proof.
  assert (Hu : forall d, Forall (fun c => isNumberChar c = true)
                           (Js.chars (NilZero.string_of_uint d))).
  { intros d.
    assert (H : Forall (fun c => isNumberChar c = true)
                  (Js.chars (NilEmpty.string_of_uint d))).
    { eapply Forall_impl; [apply string_of_uint_chars|].
      intros c Hc. unfold isNumberChar. simpl in Hc. by rewrite Hc. }
    destruct d; try exact H. by repeat constructor. }
  unfold decimal. destruct (Z.to_int n) as [d|d]; simpl; [apply Hu|].
  constructor; [done | apply Hu].
Qed.

Lemma decimal_nonneg_chars (n : Z) :
  0 <= n ->
  Forall (fun c => Js.inRange "0" "9" c = true) (Js.chars (decimal n)).
Proof.
  intros Hn. unfold decimal. destruct n as [|p|p]; [by repeat constructor| |lia].
  simpl. generalize (Pos.to_uint p). intros d.
  destruct d; try apply string_of_uint_chars. by repeat constructor.
Qed.

End DecimalFacts.

(** ** The requests of the XHR session *)

Section XhrFacts.

Local Arguments String.append !_ _ : simpl nomatch.

Lemma containsIgnoringCase_literal (needle s : string) :
  Js.indexOf (Js.toLowerCase s) (Js.toLowerCase needle) = -1 ->
  ~ containsIgnoringCase needle s.
Proof. intros H Hc%indexOf_toLowerCase. lia. Qed.

Lemma decimal_not_finalizing (n : Z) :
  ~ containsIgnoringCase "finalizing" (decimal n).
Proof.
  intros H. eapply containsIgnoringCase_first in H; [|reflexivity].
  apply list_elem_of_fmap in H as (c & Hc & Hin).
  assert (Hd := decimal_chars n). rewrite Forall_forall in Hd.
  apply Hd in Hin. revert Hc Hin. clear.
  destruct c as [[] [] [] [] [] [] [] []]; by vm_compute.
Qed.

(** The message of a failed request contains 'finalizing' only through
    the two fields of the reply. *)
Lemma failureMessage_finalizing (idText messageText : string) (status : Z) :
  containsIgnoringCase "finalizing"
    (Xhr.failureMessage idText status messageText)
  <-> containsIgnoringCase "finalizing" idText
      \/ containsIgnoringCase "finalizing" messageText.
Proof.
  unfold Xhr.failureMessage.
  change ("XHR " +:+ idText +:+ " failed with " +:+ decimal status +:+ ": "
          +:+ messageText)
    with ("XHR" +:+ String " " (idText +:+ String " " ("failed" +:+ String " "
            ("with" +:+ String " " (decimal status +:+ String ":"
               ("" +:+ String " " messageText)))))).
  rewrite !containsIgnoringCase_separator by (apply (bool_decide_unpack _); vm_compute; exact I).
  assert (H1 := containsIgnoringCase_literal "finalizing" "XHR" eq_refl).
  assert (H2 := containsIgnoringCase_literal "finalizing" "failed" eq_refl).
  assert (H3 := containsIgnoringCase_literal "finalizing" "with" eq_refl).
  assert (H4 := containsIgnoringCase_literal "finalizing" "" eq_refl).
  assert (H5 := decimal_not_finalizing status).
  tauto.
Qed.

Context {T : Type} (emptyObject null : T).

Lemma succeeded_test (status : Z) :
  (200 <=? status) && (status <=? 299) = true <-> Xhr.succeeded status.
Proof. unfold Xhr.succeeded. rewrite andb_true_iff, !Z.leb_le. tauto. Qed.

(** A rejection that [makeRequestRecursive] retries comes from a reply with
    a JSON body, a status outside 200..299 other than 401, and 'finalizing'
    in the text of its [id] or of its [message]. *)
Lemma request_retried (ended : Xhr.End T) (e : Session.RequestError) :
  Xhr.request emptyObject null ended = Some (Thrown e) ->
  finalizing e
  <-> exists status value idText messageText,
        ended = Xhr.Load status (Xhr.Json value idText messageText)
        /\ ~ Xhr.succeeded status /\ status <> 401
        /\ (containsIgnoringCase "finalizing" idText
            \/ containsIgnoringCase "finalizing" messageText).
Proof.
  assert (Hno : ~ finalizing Session.XhrError).
  { by apply containsIgnoringCase_literal. }
  unfold Xhr.request. destruct ended as [status response|].
  - destruct ((200 <=? status) && (status <=? 299)) eqn:Hs.
    + apply succeeded_test in Hs.
      destruct response; intros [=]. 
    + assert (Hs' : ~ Xhr.succeeded status).
      { rewrite <- succeeded_test, Hs. discriminate. }
      destruct (Z.eqb_spec status 401) as [->|H401].
      * intros [= <-]. split; [done|].
        by intros (? & ? & ? & ? & [= <-] & _ & ? & _).
      * destruct response as [| |value idText messageText|]; intros [= <-].
        unfold finalizing. simpl. rewrite failureMessage_finalizing. split.
        -- intros H. by exists status, value, idText, messageText.
        -- by intros (? & ? & ? & ? & [= _ _ <- <-] & _ & _ & H).
  - intros [= <-]. split; [done|]. by intros (? & ? & ? & ? & [=] & _).
Qed.

(** X1: the promise of [request] stays pending exactly when [onload] runs
    into an exception: on a status in 200..299 with a body that
    [JSON.parse] refuses, and on a status outside 200..299 other than 401
    unless the body is a JSON text other than [null].  A network error and
    a 401 always reject, with [XhrError]. *)
Theorem request_pending (ended : Xhr.End T) :
  (Xhr.request emptyObject null ended = None
   <-> exists status response,
         ended = Xhr.Load status response
         /\ (Xhr.succeeded status /\ response = Xhr.Malformed
             \/ ~ Xhr.succeeded status /\ status <> 401
                /\ forall value idText messageText,
                     response <> Xhr.Json value idText messageText))
  /\ (ended = Xhr.NetworkError \/ (exists response, ended = Xhr.Load 401 response) ->
      Xhr.request emptyObject null ended = Some (Thrown Session.XhrError)).
Proof.
  split; [|by intros [->|[response ->]]].
  unfold Xhr.request. destruct ended as [status response|].
  - destruct ((200 <=? status) && (status <=? 299)) eqn:Hs.
    + apply succeeded_test in Hs. split.
      * destruct response; try discriminate. intros _.
        exists status, Xhr.Malformed. split; [done|]. by left.
      * intros (? & ? & [= <- <-] & [[_ ->]|[H _]]); done.
    + assert (Hs' : ~ Xhr.succeeded status).
      { rewrite <- succeeded_test, Hs. discriminate. }
      destruct (Z.eqb_spec status 401) as [->|H401].
      * split; [done|]. by intros (? & ? & [= <- <-] & [[H _]|(_ & H & _)]).
      * split.
        -- intros H. exists status, response. split; [done|]. right.
           split; [done|]. split; [done|]. by destruct response.
        -- intros (? & ? & [= <- <-] & [[H _]|(_ & _ & H)]); [done|].
           destruct response as [| |value idText messageText|]; try done.
           by destruct (H value idText messageText).
  - split; [done|]. by intros (? & ? & [=] & _).
Qed.

(** X2: a request that ended is tried again after [n] attempts exactly
    when [n] is below 10 and the reply has a status outside 200..299 other
    than 401 and a JSON body whose [id] or [message], as text, contains
    'finalizing' up to case.  The fixed words of the error message and the
    status number never cause a retry. *)
Theorem request_retry (ended : Xhr.End T) (n : nat) :
  (exists e, Xhr.request emptyObject null ended = Some (Thrown e)
             /\ Session.shouldRetry e n = true)
  <-> (n < 10)%nat
      /\ exists status value idText messageText,
           ended = Xhr.Load status (Xhr.Json value idText messageText)
           /\ ~ Xhr.succeeded status /\ status <> 401
           /\ (containsIgnoringCase "finalizing" idText
               \/ containsIgnoringCase "finalizing" messageText).
Proof.
  split.
  - intros (e & He & [Hf Hn]%shouldRetry_spec).
    split; [done|]. by apply (request_retried ended e).
  - intros (Hn & status & value & idText & messageText & -> & Hs & H401 & H).
    exists (Session.Error (Xhr.failureMessage idText status messageText)).
    split.
    + unfold Xhr.request.
      destruct ((200 <=? status) && (status <=? 299)) eqn:Hs'.
      * by apply succeeded_test in Hs'.
      * by destruct (Z.eqb_spec status 401).
    + apply shouldRetry_spec. split; [|done].
      by apply failureMessage_finalizing.
Qed.

End XhrFacts.

(** X3: [makeCreateInstanceRequest] over [request], when every request
    settles.  The run makes [k] attempts, 1 to 10, and settles as the
    request of attempt [k]; every attempt before [k] got a reply with a
    status outside 200..299 other than 401 and a JSON body with
    'finalizing' in its [id] or [message]; a network error or a 401 is
    never retried: it is attempt [k], and the run rejects with
    [XhrError]. *)
Theorem makeCreateInstanceRequest_over_request
    (emptyObject null : Session.InstanceInfo)
    (ended : nat -> Xhr.End Session.InstanceInfo)
    (reply : nat -> Outcome Session.RequestError Session.InstanceInfo)
    (instanceName region keyId : string)
    (instanceSpec : Session.YandexInstanceSpecification) :
  (forall n, Xhr.request emptyObject null (ended n) = Some (reply n)) ->
  exists k,
    (1 <= k <= 10)%nat
    /\ Session.makeCreateInstanceRequest reply instanceName region keyId
         instanceSpec
       = (attempts
            (Session.createRequest instanceName region keyId instanceSpec) k,
          Xhr.request emptyObject null (ended k))
    /\ (forall j, (1 <= j < k)%nat ->
          exists status value idText messageText,
            ended j = Xhr.Load status (Xhr.Json value idText messageText)
            /\ ~ Xhr.succeeded status /\ status <> 401
            /\ (containsIgnoringCase "finalizing" idText
                \/ containsIgnoringCase "finalizing" messageText))
    /\ (forall j, (1 <= j <= k)%nat ->
          ended j = Xhr.NetworkError
          \/ (exists response, ended j = Xhr.Load 401 response) ->
          j = k
          /\ Xhr.request emptyObject null (ended k)
             = Some (Thrown Session.XhrError)).
Proof.
  intros Hlink.
  destruct (makeRequestRecursive_stops reply instanceName region keyId
              instanceSpec Session.MAX_REQUESTS 0)
    as (k & Hk & Hrun & Hbefore & _); [unfold Session.MAX_REQUESTS; lia..|].
  unfold Session.MAX_REQUESTS in Hk. rewrite Nat.sub_0_r in Hrun.
  assert (Hearlier : forall j, (1 <= j < k)%nat ->
            exists status value idText messageText,
              ended j = Xhr.Load status (Xhr.Json value idText messageText)
              /\ ~ Xhr.succeeded status /\ status <> 401
              /\ (containsIgnoringCase "finalizing" idText
                  \/ containsIgnoringCase "finalizing" messageText)).
  { intros j Hj. destruct (Hbefore j) as (e & He & Hf); [lia|].
    apply (request_retried emptyObject null (ended j) e); [|done].
    by rewrite Hlink, He. }
  exists k. split; [lia|]. split; [by rewrite Hlink|]. split; [done|].
  intros j Hj Hend.
  assert (Hreject : Xhr.request emptyObject null (ended j)
                    = Some (Thrown Session.XhrError)).
  { by destruct Hend as [->|[response ->]]. }
  destruct (decide (j = k)) as [->|Hne]; [done|].
  destruct (Hearlier j) as (? & ? & ? & ? & Hj' & _ & H401 & _); [lia|].
  destruct Hend as [Hend|[response Hend]]; rewrite Hend in Hj'; [done|].
  by injection Hj' as <- _.
Qed.

(** The run of [finalizingTwice] over its requests: three attempts. *)
Lemma makeCreateInstanceRequest_over_request_twice :
  exists k,
    (1 <= k <= 10)%nat
    /\ Session.makeCreateInstanceRequest finalizingTwice "outline" "ru-central1"
         "key-1" exampleSpec
       = (attempts
            (Session.createRequest "outline" "ru-central1" "key-1" exampleSpec) k,
          Xhr.request exampleInstance exampleInstance (endedTwice k)).
Proof.
  destruct (makeCreateInstanceRequest_over_request exampleInstance
              exampleInstance endedTwice finalizingTwice "outline"
              "ru-central1" "key-1" exampleSpec) as (k & Hk & Hrun & _).
  - intros n. unfold endedTwice, finalizingTwice.
    destruct (n <=? 2)%nat; reflexivity.
  - exists k. split; [exact Hk | exact Hrun].
Defined.

(** ** The poll loop *)

Section PollFacts.

Import Install.

Lemma pollIteration_silent (attributes : gmap string string) (s : YandexServer) :
  attributes !! "certSha256" = None ->
  attributes !! "install-error" = None ->
  attributes !! "install-started" = None ->
  pollIteration attributes s = (s, Returned Continue).
Proof.
  intros Hc He Hs. unfold pollIteration. rewrite Hc, He, Hs.
  destruct (attributes !! "apiUrl"); reflexivity.
Qed.

Lemma silent_spec (fetched : Result Cloud.GuestAttributes) :
  silent fetched = true
  <-> exists attributes,
        getOutlineGuestAttributes fetched = Returned attributes
        /\ attributes !! "certSha256" = None
        /\ attributes !! "install-error" = None
        /\ attributes !! "install-started" = None.
Proof.
  unfold silent.
  destruct (getOutlineGuestAttributes_returns fetched) as [attributes ->].
  cbn [forallb]. rewrite !andb_true_iff, !negb_true_iff, !bool_decide_eq_false.
  rewrite <- !eq_None_not_Some. split.
  - intros (Hc & He & Hs & _). by exists attributes.
  - by intros (? & [= <-] & Hc & He & Hs).
Qed.

Lemma pollResume_silent (fetched : Result Cloud.GuestAttributes) (s : YandexServer) :
  silent fetched = true -> pollResume fetched s = withPoll AwaitSleep s.
Proof.
  intros (attributes & Hf & Hc & He & Hs)%silent_spec.
  unfold pollResume, bind, lift. rewrite Hf.
  by rewrite pollIteration_silent.
Qed.

(** X4: a fetch of the guest attributes that fails, with whatever error,
    counts as a snapshot without keys, and a round of the poll loop whose
    snapshot holds none of certSha256, install-error and install-started
    leaves the server as it was: the loop has no bound on such rounds. *)
Theorem silent_polls_change_nothing (s : YandexServer)
    (polls : list (Result Cloud.GuestAttributes)) :
  poll s = AwaitAttributes ->
  ValueStream.closed (installState s) = false ->
  Forall (fun fetched => silent fetched = true) polls ->
  (forall e, silent (Thrown e) = true)
  /\ run s (pollRounds polls) = s.
Proof.
  intros Hpoll Hopen Hsilent. split; [done|].
  induction Hsilent as [|fetched polls Hf _ IH]; [done|].
  unfold pollRounds, run in *. cbn [mbind list_bind app foldl].
  replace (step (step s (GuestAttributesFetched fetched)) SleepElapsed) with s;
    [exact IH|].
  unfold step at 2. rewrite Hpoll, pollResume_silent by done.
  destruct s as [v m ch p]. simpl in *. subst p.
  unfold pollLoopTest. simpl. unfold ValueStream.isClosed. by rewrite Hopen.
Qed.

(** Three rounds on a server that polls: two failed fetches and a
    snapshot without entries. *)
Lemma silent_polls_change_nothing_thrice :
  run polling
    (pollRounds [Thrown (HttpError 500 "Internal Server Error");
                 Thrown (PlainError "Error parsing response body: {}");
                 snapshot []])
  = polling.
Proof.
  apply (silent_polls_change_nothing polling).
  - reflexivity.
  - reflexivity.
  - repeat constructor.
Defined.


(** Once the loop has ended and the chain has settled, only a deletion
    request changes the server. *)
Lemma idle_unless_deleted (s : YandexServer) (events : list Event) :
  poll s = NotPolling ->
  (exists readiness, chain s = Settled readiness) ->
  DeleteRequested ∉ events ->
  run s events = s.
Proof.
  intros Hpoll [readiness Hchain].
  induction events as [|ev events IH]; [done|].
  intros Hno. apply not_elem_of_cons in Hno as [Hev Hno].
  unfold run. cbn [foldl]. fold (run (step s ev) events).
  replace (step s ev) with s; [by apply IH|].
  destruct ev; unfold step; rewrite ?Hpoll, ?Hchain; done.
Qed.

(** X5: when the snapshot holds apiUrl and a certSha256 that [atob]
    refuses, the exception ends the poll loop without a write, and no
    later event other than a deletion request changes the server any more:
    the recorded state stays what it was, final or not. *)
Theorem undecodable_certificate_stops_polling (before after : list Event)
    (fetched : Result Cloud.GuestAttributes) (attributes : gmap string string)
    (apiUrl certSha256 : string) (e : JsError) :
  let s := run new before in
  poll s = AwaitAttributes ->
  getOutlineGuestAttributes fetched = Returned attributes ->
  attributes !! "apiUrl" = Some apiUrl ->
  attributes !! "certSha256" = Some certSha256 ->
  Base64.atob certSha256 = Thrown e ->
  DeleteRequested ∉ after ->
  run s (GuestAttributesFetched fetched :: after) = withPoll NotPolling s.
Proof.
  intros s Hpoll Hf Hu Hc Hatob Hno.
  assert (Hinv : phaseInvariant s) by apply run_invariant, new_invariant.
  assert (Hstep : step s (GuestAttributesFetched fetched) = withPoll NotPolling s).
  { unfold step. rewrite Hpoll. unfold pollResume, bind at 1, lift.
    rewrite Hf. unfold pollIteration. rewrite Hu, Hc.
    unfold bind at 1, lift. by rewrite Hatob. }
  assert (Hchain : exists readiness, chain s = Settled readiness).
  { destruct Hinv as [_ Hph].
    destruct (chain s); try (destruct Hph as [Hp _]; congruence). eauto. }
  unfold run at 1. cbn [foldl]. rewrite Hstep.
  apply (idle_unless_deleted (withPoll NotPolling s) after); done.
Qed.

(** The certificate of the snapshot is no base64 text. *)
Lemma undecodable_certificate_stops_polling_example :
  run polling
    [GuestAttributesFetched
       (snapshot [("apiUrl", "https://10.0.0.1:1234/secret");
                  ("certSha256", "!")]);
     SleepElapsed;
     GuestAttributesFetched
       (snapshot [("apiUrl", "https://10.0.0.1:1234/secret");
                  ("certSha256", "AAEC")])]
  = withPoll NotPolling polling.
Proof.
  apply (undecodable_certificate_stops_polling
           [InstanceCreationSettled (Returned tt); StaticIpFetched (Returned tt)]
           _ _
           (attributesOf [("apiUrl", "https://10.0.0.1:1234/secret");
                          ("certSha256", "!")])
           "https://10.0.0.1:1234/secret" "!" InvalidCharacterError).
  - reflexivity.
  - reflexivity.
  - vm_compute. reflexivity.
  - vm_compute. reflexivity.
  - reflexivity.
  - intros H. repeat (apply elem_of_cons in H as [H|H]; [discriminate H|]).
    by apply elem_of_nil in H.
Defined.

End PollFacts.

(** ** The management endpoint *)

Section ManagementFacts.

Import Install.

(** Only the poll loop touches the management endpoint. *)
Lemma step_keeps_managementApi (s : YandexServer) (ev : Event) :
  (forall fetched, ev <> GuestAttributesFetched fetched) ->
  managementApi (step s ev) = managementApi s.
Proof.
  intros Hev. destruct s as [[v c] m ch p].
  destruct ev as [r|r|r|r| |]; [| | |by destruct (Hev r)| |];
    unfold step; simpl.
  - destruct ch; try done. by destruct r as [[]|e], c.
  - destruct ch; try done.
    unfold advance, bind, lift. destruct (hasStaticIp r) as [[]|e]; by destruct c.
  - destruct ch; try done. by destruct r as [[]|e], c.
  - destruct p; try done. unfold pollLoopTest. simpl. by destruct c.
  - by destruct c.
Qed.

(** What an iteration of the poll loop does to the management endpoint:
    nothing, and then it does not record [COMPLETED] either, or it sets
    the endpoint from the two attributes. *)
Lemma pollIteration_managementApi (attributes : gmap string string)
    (s : YandexServer) :
  let t := fst (pollIteration attributes s) in
  (managementApi t = managementApi s
   /\ (state t = COMPLETED -> state s = COMPLETED))
  \/ exists apiUrl certSha256 decoded,
       attributes !! "apiUrl" = Some apiUrl
       /\ attributes !! "certSha256" = Some certSha256
       /\ Base64.atob certSha256 = Returned decoded
       /\ managementApi t = Some (makePathApiClient apiUrl decoded).
Proof.
  assert (Hset : forall (v : InstallState) (ctl : LoopControl),
             v <> COMPLETED ->
             let t := fst ((setInstallState v ;; ret ctl)%server s) in
             managementApi t = managementApi s
             /\ (state t = COMPLETED -> state s = COMPLETED)).
  { intros v ctl Hv. unfold bind.
    destruct (ValueStream.closed (installState s)) eqn:Hc.
    - by rewrite setInstallState_closed.
    - rewrite setInstallState_open by done. simpl. split; [done|].
      unfold state. simpl. done. }
  unfold pollIteration.
  destruct (attributes !! "apiUrl") as [u|] eqn:Hu;
    destruct (attributes !! "certSha256") as [c|] eqn:Hc; simpl;
    repeat match goal with
           | |- context [bool_decide ?P] => destruct (bool_decide P)
           end;
    try (left; by apply Hset); try (by left).
  unfold bind at 1, lift. destruct (Base64.atob c) as [decoded|e] eqn:Hd;
    [|by left].
  right. exists u, c, decoded. repeat (split; [done|]).
  unfold bind at 1, setManagementApi. unfold bind.
  destruct (setInstallState COMPLETED (withManagementApi _ s))
    as [t [[]|e]] eqn:Hw; simpl.
  - destruct (ValueStream.closed (installState s)) eqn:Hclosed.
    + by rewrite setInstallState_closed in Hw.
    + rewrite setInstallState_open in Hw by done. by injection Hw as <-.
  - destruct (ValueStream.closed (installState s)) eqn:Hclosed.
    + rewrite setInstallState_closed in Hw by done. by injection Hw as <- _.
    + by rewrite setInstallState_open in Hw.
Qed.

Lemma pollResume_shape (fetched : Result Cloud.GuestAttributes)
    (attributes : gmap string string) (s : YandexServer) :
  getOutlineGuestAttributes fetched = Returned attributes ->
  exists p, pollResume fetched s = withPoll p (fst (pollIteration attributes s)).
Proof.
  intros Hf. unfold pollResume, bind at 1, lift. rewrite Hf.
  destruct (pollIteration attributes s) as [t [[]|e]]; simpl; eauto.
Qed.

Lemma pollResume_managementApi (fetched : Result Cloud.GuestAttributes)
    (s : YandexServer) :
  let t := pollResume fetched s in
  (managementApi t = managementApi s
   /\ (state t = COMPLETED -> state s = COMPLETED))
  \/ (is_Some (endpointOf fetched)
      /\ managementApi t = endpointOf fetched).
Proof.
  destruct (getOutlineGuestAttributes_returns fetched) as [attributes Hf].
  destruct (pollResume_shape fetched attributes s Hf) as [p ->].
  destruct (pollIteration_managementApi attributes s)
    as [H|(u & c & d & Hu & Hc & Hd & H)]; [by left|].
  right. unfold endpointOf. rewrite Hf, Hu, Hc, Hd. simpl. by rewrite H.
Qed.

(** What holds of the management endpoint of a server after [events]. *)
Lemma run_managementApi (events : list Event) :
  let s := run new events in
  (managementApi s = None
   \/ exists fetched,
        GuestAttributesFetched fetched ∈ events
        /\ is_Some (endpointOf fetched)
        /\ managementApi s = endpointOf fetched)
  /\ (state s = COMPLETED -> is_Some (managementApi s)).
Proof.
  induction events as [|ev events IH] using rev_ind; [by split; [left|]|].
  unfold run in *. rewrite foldl_app. cbn [foldl].
  set (s := foldl step new events) in *. cbv zeta in IH.
  destruct IH as [Hfrom Hdone].
  assert (Hweaken : managementApi s = None
            \/ exists fetched,
                 GuestAttributesFetched fetched ∈ events ++ [ev]
                 /\ is_Some (endpointOf fetched)
                 /\ managementApi s = endpointOf fetched).
  { destruct Hfrom as [H|(f & Hin & H)]; [by left|].
    right. exists f. split; [|done]. apply elem_of_app. by left. }
  assert (Hother : (forall fetched, ev <> GuestAttributesFetched fetched) ->
            managementApi (step s ev) = managementApi s
            /\ (state (step s ev) = COMPLETED -> state s = COMPLETED)).
  { intros Hev. split; [by apply step_keeps_managementApi|].
    destruct (step_writes s ev) as [Hsame|(_ & v & Hv & Hafter)];
      unfold state; [by rewrite Hsame|].
    rewrite Hafter. simpl. intros ->.
    destruct ev as [r|r|r|r| |]; simpl in Hv; try (by destruct (Hev r));
      repeat (apply elem_of_cons in Hv as [Hv|Hv]; [discriminate Hv|]);
      by apply elem_of_nil in Hv. }
  assert (Hkeep : managementApi (step s ev) = managementApi s
                  /\ (state (step s ev) = COMPLETED -> state s = COMPLETED)
                  \/ exists fetched,
                       ev = GuestAttributesFetched fetched
                       /\ is_Some (endpointOf fetched)
                       /\ managementApi (step s ev) = endpointOf fetched).
  { destruct ev as [r|r|r|r| |]; try (left; by apply Hother).
    unfold step. destruct (poll s); try (by left).
    destruct (pollResume_managementApi r s) as [H|H]; [by left|].
    right. by exists r. }
  destruct Hkeep as [[Hsame Hstate]|(fetched & -> & Hsome & Hset)].
  - rewrite Hsame. split; [done|]. intros H. by apply Hdone, Hstate.
  - split; [|by rewrite Hset]. right. exists fetched.
    split; [|done]. apply elem_of_app. right. by apply elem_of_cons; left.
Qed.

(** X6: a server whose recorded state is [COMPLETED] has its management
    endpoint, and the endpoint was made from the apiUrl and the decoded
    certSha256 of a snapshot that the poll loop fetched. *)
Theorem completed_has_managementApi (events : list Event) :
  state (run new events) = COMPLETED ->
  exists fetched api,
    GuestAttributesFetched fetched ∈ events
    /\ endpointOf fetched = Some api
    /\ managementApi (run new events) = Some api.
Proof.
  intros Hdone. destruct (run_managementApi events) as [Hfrom Hsome].
  apply Hsome in Hdone as [api Hapi].
  destruct Hfrom as [Hnone|(fetched & Hin & _ & Hset)]; [congruence|].
  exists fetched, api. split; [done|]. by rewrite <- Hset.
Qed.

(** The installation of [installEvents] ends with its endpoint. *)
Lemma completed_has_managementApi_installed :
  exists fetched api,
    GuestAttributesFetched fetched ∈ installEvents
    /\ endpointOf fetched = Some api
    /\ managementApi (run new installEvents) = Some api.
Proof.
  apply (completed_has_managementApi installEvents). reflexivity.
Defined.

Lemma endpointOf_spec (fetched : Result Cloud.GuestAttributes)
    (api : PathApiClient) :
  endpointOf fetched = Some api
  <-> exists attributes apiUrl certSha256 decoded,
        getOutlineGuestAttributes fetched = Returned attributes
        /\ attributes !! "apiUrl" = Some apiUrl
        /\ attributes !! "certSha256" = Some certSha256
        /\ Base64.atob certSha256 = Returned decoded
        /\ api = makePathApiClient apiUrl decoded.
Proof.
  unfold endpointOf.
  destruct (getOutlineGuestAttributes_returns fetched) as [attributes ->].
  split.
  - destruct (attributes !! "apiUrl") as [u|] eqn:Hu; [|done].
    destruct (attributes !! "certSha256") as [c|] eqn:Hc; [|done].
    destruct (Base64.atob c) as [d|e] eqn:Hd; [|done].
    intros [= <-]. by exists attributes, u, c, d.
  - intros (? & u & c & d & [= <-] & -> & -> & -> & ->). done.
Qed.

(** X7: a deletion request does not abort a fetch of the guest attributes
    that is in flight.  When the fetch then brings apiUrl and a decodable
    certSha256, the loop sets the management endpoint from them, the write
    of [COMPLETED] is refused by the closed stream, and the loop ends: the
    server is [CANCELED] and has a management endpoint. *)
Theorem deleted_while_fetching (s : YandexServer)
    (fetched : Result Cloud.GuestAttributes) (api : PathApiClient) :
  poll s = AwaitAttributes ->
  ValueStream.closed (installState s) = false ->
  endpointOf fetched = Some api ->
  run s [DeleteRequested; GuestAttributesFetched fetched]
  = withPoll NotPolling
      (withManagementApi api
         (withInstallState (ValueStream.make CANCELED true) s)).
Proof.
  intros Hpoll Hopen (attributes & u & c & d & Hf & Hu & Hc & Hd & ->)%endpointOf_spec.
  unfold run. cbn [foldl]. unfold step at 2.
  rewrite onDelete_spec, Hopen. cbn [fst].
  unfold step. cbn [poll withInstallState]. rewrite Hpoll.
  unfold pollResume, bind at 1, lift. rewrite Hf.
  unfold pollIteration. rewrite Hu, Hc. unfold bind at 1, lift. rewrite Hd.
  unfold bind at 1, setManagementApi. unfold bind.
  by rewrite setInstallState_closed.
Qed.

(** The endpoint arrives after the deletion request. *)
Lemma deleted_while_fetching_example :
  state (run polling
           [DeleteRequested;
            GuestAttributesFetched
              (snapshot [("apiUrl", "https://10.0.0.1:1234/secret");
                         ("certSha256", "AAEC")])])
  = CANCELED
  /\ is_Some (managementApi
                (run polling
                   [DeleteRequested;
                    GuestAttributesFetched
                      (snapshot [("apiUrl", "https://10.0.0.1:1234/secret");
                                 ("certSha256", "AAEC")])])).
Proof.
  assert (H := deleted_while_fetching polling
                 (snapshot [("apiUrl", "https://10.0.0.1:1234/secret");
                            ("certSha256", "AAEC")])
                 (makePathApiClient "https://10.0.0.1:1234/secret"
                    (String (ascii_of_N 0) (String (ascii_of_N 1)
                       (String (ascii_of_N 2) ""))))
                 eq_refl eq_refl eq_refl).
  rewrite H. split; [reflexivity | by eexists].
Defined.

End ManagementFacts.

(** ** The readiness of the instance *)

Section ReadinessFacts.

Import Install.

(** Splits a membership in a list of states into its cases. *)
Ltac stateCases H :=
  repeat (apply elem_of_cons in H as [H|H]; [try discriminate H; try subst|]);
  try (by apply elem_of_nil in H).

Lemma step_readiness (s : YandexServer) (ev : Event) :
  phaseInvariant s -> readinessAgrees s -> readinessAgrees (step s ev).
Proof.
  destruct ev as [r|r|r|r| |].
  4: {
    intros Hinv Hr. unfold step. destruct (poll s) eqn:Hpoll; try done.
    destruct (step_invariant s (GuestAttributesFetched r) Hinv) as (_ & _ & Hkept).
    unfold step in Hkept. rewrite Hpoll in Hkept.
    destruct (pollResume_writes_for r s) as (t & p & Ht & (Hch & Hp & Hw)).
    rewrite Ht in *. unfold readinessAgrees, state in *. simpl in *.
    rewrite Hch. destruct (chain s) as [| | |[x|e]]; try done.
    - destruct Hw as [->|(_ & v & Hv & ->)]; [done|]. simpl.
      destruct (hasCertificate r); simpl in Hv; stateCases Hv; simpl; lia.
    - rewrite Hkept; [done|]. by destruct Hr as [->| ->]. }
  all: destruct s as [[v c] m ch p];
    unfold phaseInvariant, consistent, readinessAgrees, state, step;
    simpl; intros [-> Hph] Hr.
  5: { by destruct v, ch as [| | |[x|e]]; simpl in *; try lia; try tauto. }
  4: { destruct p; try done. unfold pollLoopTest. simpl.
       by destruct (isFinal v). }
  all: destruct ch; simpl in *; try done; destruct Hph as [-> [-> | ->]].
  all: try destruct (hasStaticIp r) as [[]|e'].
  all: try destruct r as [x|e].
  all: cbv; intuition (done || lia).
Qed.

Lemma run_readiness (events : list Event) : readinessAgrees (run new events).
Proof.
  assert (H : forall s, phaseInvariant s -> readinessAgrees s ->
                        readinessAgrees (run s events)).
  { induction events as [|ev events IH]; intros s Hinv Hr; [done|].
    apply IH; [by apply step_invariant | by apply step_readiness]. }
  apply H; [apply new_invariant | done].
Qed.

(** X8: whatever happens to a server, a rejected [instanceReadiness] comes
    with a recorded state of [FAILED] or [CANCELED], and a fulfilled one
    with [IP_ALLOCATED] or a later state. *)
Theorem readiness_agrees_with_state (events : list Event)
    (readiness : Result unit) :
  chain (run new events) = Settled readiness ->
  match readiness with
  | Thrown _ =>
      state (run new events) = FAILED \/ state (run new events) = CANCELED
  | Returned _ => (2 <= rank (state (run new events)))%nat
  end.
Proof.
  intros Hchain. pose proof (run_readiness events) as H.
  unfold readinessAgrees in H. by rewrite Hchain in H.
Qed.

(** A creation that fails after the deletion request. *)
Lemma readiness_agrees_with_state_example :
  state (run new [DeleteRequested;
                  InstanceCreationSettled (Thrown (GcpError None None))])
  = FAILED
  \/ state (run new [DeleteRequested;
                     InstanceCreationSettled (Thrown (GcpError None None))])
     = CANCELED.
Proof.
  apply (readiness_agrees_with_state
           [DeleteRequested; InstanceCreationSettled (Thrown (GcpError None None))]
           (Thrown ClosedStreamError)).
  reflexivity.
Defined.

End ReadinessFacts.

(** ** The promotion of the ephemeral address *)

Section PromoteFacts.

Import Install.

Variable regionIdOf : string -> string.
Variable locator : Cloud.InstanceLocator.





End PromoteFacts.


(** ** The errors of the fetch client *)

Section FetchFacts.

Local Arguments String.append !_ _ : simpl nomatch.

Context {T : Type}.

Lemma fetchUnauthenticated_returns (status : Z) (statusText : string)
    (json : Fetch.Body T) :
  (exists result,
     Fetch.fetchUnauthenticated (Fetch.Responded status statusText json)
     = Returned result)
  <-> answered status json.
Proof.
  unfold answered, Fetch.fetchUnauthenticated.
  destruct (Fetch.ok status); simpl.
  - destruct (Z.eqb_spec status 204) as [->|Hne]; simpl.
    + split; [intros _; split; [done | by left] | by eauto].
    + destruct json as [value|text].
      * split; [intros _; split; [done | right; by exists value] | by eauto].
      * split; [by intros [? [=]] | by intros [_ [?|[? [=]]]]].
  - split; [by intros [? [=]] | by intros [[=] _]].
Qed.

Lemma fetchUnauthenticated_throws (status : Z) (statusText : string)
    (json : Fetch.Body T) (e : JsError) :
  Fetch.fetchUnauthenticated (Fetch.Responded status statusText json) = Thrown e ->
  (Fetch.ok status = false /\ e = HttpError status statusText)
  \/ (Fetch.ok status = true /\ status <> 204
      /\ exists text, json = Fetch.Unparsable text
           /\ e = PlainError ("Error parsing response body: " +:+ text)).
Proof.
  unfold Fetch.fetchUnauthenticated.
  destruct (Fetch.ok status); simpl; [|intros [= <-]; by left].
  destruct (Z.eqb_spec status 204) as [->|Hne]; simpl; [done|].
  destruct json as [value|text]; [done|]. intros [= <-]. right.
  repeat (split; [done|]). by exists text.
Qed.

(** X10: the errors of [fetchUnauthenticated] and what the two callers that
    expect a missing resource make of them.  A response is read to its end
    when its status is in 200..299 and it is a 204 or its body is JSON;
    the body of any other response is not read.  An error is a 404 for
    [is404] exactly when the status is 404, and a parse error exactly when
    the status is in 200..299; [hasStaticIp] answers [false] exactly on a
    404 and [true] exactly on a response read to its end, and a deletion
    step of [delete] ends normally in these two cases and no other. *)
Theorem fetchUnauthenticated_kinds (status : Z) (statusText : string)
    (json : Fetch.Body T) :
  let result :=
    Fetch.fetchUnauthenticated (Fetch.Responded status statusText json) in
  ((exists value, result = Returned value) <-> answered status json)
  /\ (Fetch.ok status = false \/ status = 204 ->
      forall other, Fetch.fetchUnauthenticated
                      (Fetch.Responded status statusText other) = result)
  /\ (forall e, result = Thrown e ->
        (is404 e = true <-> status = 404)
        /\ (isParseError e = true <-> Fetch.ok status = true))
  /\ (Install.hasStaticIp result = Returned false <-> status = 404)
  /\ (Install.hasStaticIp result = Returned true <-> answered status json)
  /\ (deletionStep result = Returned tt
      <-> answered status json \/ status = 404).
Proof.
  intros result.
  assert (Hok404 : Fetch.ok 404 = false) by done.
  assert (Hcases : (exists value, result = Returned value /\ answered status json)
            \/ (exists e, result = Thrown e /\ ~ answered status json
                  /\ (is404 e = true <-> status = 404)
                  /\ (isParseError e = true <-> Fetch.ok status = true))).
  { destruct result as [value|e] eqn:Hr.
    - left. exists value. split; [done|].
      apply (fetchUnauthenticated_returns status statusText json).
      by exists value.
    - right. exists e. split; [done|]. split.
      + intros [value Hv]%(fetchUnauthenticated_returns status statusText json).
        subst result. congruence.
      + destruct (fetchUnauthenticated_throws _ _ _ _ Hr)
          as [[Hok ->]|(Hok & Hne & text & -> & ->)]; simpl.
        * rewrite Z.eqb_eq, Hok. split; [done|]. split; done.
        * split; [split; [done | intros ->; by rewrite Hok404 in Hok]|].
          done. }
  split; [apply fetchUnauthenticated_returns|].
  split.
  { intros H other. subst result. unfold Fetch.fetchUnauthenticated.
    destruct H as [-> | ->]; [done|]. by destruct json, other. }
  destruct Hcases as [(value & -> & Ha)|(e & -> & Hna & H404 & Hparse)].
  - assert (Hne : status <> 404).
    { intros ->. destruct Ha as [Hok _]. by rewrite Hok404 in Hok. }
    split; [done|]. simpl. split; [split; [done | by intros ?]|].
    split; [done|]. split; [by left | done].
  - split; [by intros ? [= <-]|]. unfold Install.hasStaticIp, deletionStep.
    destruct (is404 e) eqn:He.
    + assert (status = 404) by by apply H404.
      split; [done|]. split; [split; [done | by intros ?]|].
      split; [by right | done].
    + assert (status <> 404) by (intros ?; by apply H404 in H).
      split; [split; [done | by intros ?]|].
      split; [split; [done | by intros ?]|].
      split; [done | by intros [?|?]].
Qed.

End FetchFacts.

(** ** The access token *)

Section TokenFacts.

Local Arguments String.append !_ _ : simpl nomatch.

Import Fetch.

Variables clientId clientSecret refreshToken : string.

Lemma eqb_refl_string (s : string) : String.eqb s s = true.
Proof. by apply String.eqb_eq. Qed.

Lemma mapGet_mapSet (key value : string) (entries : list (string * string)) :
  mapGet key (mapSet key value entries) = Some value.
Proof.
  induction entries as [|[k v] entries IH]; simpl.
  - by rewrite eqb_refl_string.
  - destruct (String.eqb k key) eqn:Hk; simpl; by rewrite Hk.
Qed.

Lemma mapGet_mapSet_other (key other value : string)
    (entries : list (string * string)) :
  other <> key ->
  mapGet other (mapSet key value entries) = mapGet other entries.
Proof.
  intros Hne. induction entries as [|[k v] entries IH]; simpl.
  - destruct (String.eqb_spec key other); [congruence | done].
  - destruct (String.eqb_spec k key) as [->|Hk]; simpl.
    + destruct (String.eqb_spec key other); [congruence | done].
    + by rewrite IH.
Qed.

Lemma isFalsy_spec (token : option string) :
  isFalsy token = false <-> exists text, token = Some text /\ text <> "".
Proof.
  destruct token as [[|c text]|]; simpl.
  - split; [done | by intros (? & [= <-] & ?)].
  - split; [by eauto | done].
  - split; [done | by intros (? & [=] & _)].
Qed.

(** The bearer token of a request. *)
Lemma authorized_header (c : Call) (w : World) :
  mapGet "Authorization" (sentHeaders (authorized c w))
  = Some ("Bearer " +:+ render (accessToken w)).
Proof. unfold authorized, requestOf. simpl. apply mapGet_mapSet. Qed.

Context {T : Type}.

Lemma authorized_token (c : Call) (w w' : World) :
  accessToken w = accessToken w' -> authorized c w = authorized c w'.
Proof. intros H. unfold authorized. by rewrite H. Qed.

Lemma fetchAll_held
    (calls : list (Call * Fetched RefreshAccessTokenResponse * Fetched T))
    (w0 w : World) :
  isFalsy (accessToken w0) = false ->
  accessToken w = accessToken w0 ->
  Fetch.fetchAll clientId clientSecret refreshToken calls w
  = ({| accessToken := accessToken w0;
        sent := sent w ++ map (fun call => authorized (fst (fst call)) w0) calls |},
     map (fun call => fetchUnauthenticated (snd call)) calls).
Proof.
  intros Hheld. revert w.
  induction calls as [|[[c refreshed] fetched] calls IH]; intros w Hw; simpl.
  - rewrite app_nil_r, <- Hw. by destruct w.
  - unfold Fetch.fetchAuthenticated, Fetch.begin. rewrite Hw, Hheld.
    rewrite IH by done. simpl. rewrite <- app_assoc. simpl.
    by rewrite (authorized_token c w w0).
Qed.

(** X11: a client that holds a token other than the empty text keeps it.
    Calls that run one after the other make one request each, with
    [Authorization: Bearer] and that token, never a request to the token
    endpoint, whatever the replies are (a 401 among them), and each call
    settles as [fetchUnauthenticated] does on its reply. *)
Theorem held_token_is_kept
    (calls : list (Call * Fetched RefreshAccessTokenResponse * Fetched T))
    (w : World) (token : string) :
  accessToken w = Some token ->
  token <> "" ->
  let after := Fetch.fetchAll clientId clientSecret refreshToken calls w in
  accessToken (fst after) = Some token
  /\ sent (fst after)
     = sent w ++ map (fun call => authorized (fst (fst call)) w) calls
  /\ snd after = map (fun call => fetchUnauthenticated (snd call)) calls
  /\ Forall (fun call =>
               mapGet "Authorization"
                 (sentHeaders (authorized (fst (fst call)) w))
               = Some ("Bearer " +:+ token)) calls.
Proof.
  intros Htoken Hne. cbv zeta.
  rewrite (fetchAll_held calls w w); [|apply isFalsy_spec; by exists token|done].
  cbn [fst snd accessToken sent]. repeat (split; [done|]).
  apply Forall_forall. intros call _. by rewrite authorized_header, Htoken.
Qed.

Lemma beginAll_falsy (calls : list Call) (w : World) :
  isFalsy (accessToken w) = true ->
  Fetch.beginAll clientId clientSecret refreshToken calls w
  = {| accessToken := accessToken w;
       sent := sent w
               ++ replicate (length calls)
                    (requestOf (refreshCall clientId clientSecret refreshToken)) |}.
Proof.
  intros Hfalsy. revert w Hfalsy.
  induction calls as [|c calls IH]; intros w Hfalsy; unfold Fetch.beginAll; simpl.
  - rewrite app_nil_r. by destruct w.
  - unfold Fetch.begin at 2. rewrite Hfalsy. cbn [fst].
    fold (Fetch.beginAll clientId clientSecret refreshToken calls
            (send (requestOf (refreshCall clientId clientSecret refreshToken)) w)).
    rewrite IH by done. simpl. by rewrite <- app_assoc.
Qed.

Lemma last_cons_default {A} (a d : A) (l : list A) :
  List.last (a :: l) d = List.last l a.
Proof.
  revert a d. induction l as [|b l IH]; intros a d; [done|].
  change (List.last (a :: b :: l) d) with (List.last (b :: l) d).
  by rewrite !IH.
Qed.

Lemma resume_world (c : Call) (refreshed : Fetched RefreshAccessTokenResponse)
    (w : World) :
  fst (resume c refreshed w)
  = match tokenOf refreshed with
    | Some token =>
        {| accessToken := token; sent := sent w ++ [authorizedWith c token] |}
    | None => w
    end.
Proof.
  unfold resume, tokenOf.
  by destruct (refreshYandexAccessToken refreshed) as [token|e].
Qed.

Lemma resumeAll_spec (replies : list (Call * Fetched RefreshAccessTokenResponse))
    (w : World) :
  Fetch.resumeAll replies w
  = {| accessToken :=
         List.last (omap (fun reply => tokenOf (snd reply)) replies) (accessToken w);
       sent := sent w
               ++ omap (fun reply =>
                          token ← tokenOf (snd reply);
                          Some (authorizedWith (fst reply) token)) replies |}.
Proof.
  revert w. induction replies as [|[c refreshed] replies IH]; intros w.
  - unfold Fetch.resumeAll. simpl. rewrite app_nil_r. by destruct w.
  - unfold Fetch.resumeAll. cbn [foldl fst snd].
    fold (Fetch.resumeAll replies (fst (resume c refreshed w))).
    rewrite IH, resume_world. cbn [omap list_omap fst snd].
    destruct (tokenOf refreshed) as [token|]; cbn [mbind option_bind].
    + rewrite last_cons_default. cbn [accessToken sent].
      by rewrite <- app_assoc.
    + done.
Qed.

(** X12: calls that start while the client holds no token, or the empty
    text, each ask the token endpoint: nothing shares a refresh that is
    under way.  As the replies arrive, each call makes its request with
    the token of its own reply, a call whose refresh fails makes none,
    and the client is left with the token of the reply that came last. *)
Theorem calls_without_token_each_refresh (calls : list Call)
    (replies : list (Call * Fetched RefreshAccessTokenResponse)) (w : World) :
  isFalsy (accessToken w) = true ->
  let started := Fetch.beginAll clientId clientSecret refreshToken calls w in
  let resumed := Fetch.resumeAll replies started in
  sent started
  = sent w ++ replicate (length calls)
                (requestOf (refreshCall clientId clientSecret refreshToken))
  /\ accessToken started = accessToken w
  /\ sent resumed
     = sent started
       ++ omap (fun reply =>
                  token ← tokenOf (snd reply);
                  Some (authorizedWith (fst reply) token)) replies
  /\ accessToken resumed
     = List.last (omap (fun reply => tokenOf (snd reply)) replies) (accessToken w)
  /\ (forall c token,
        mapGet "Authorization" (sentHeaders (authorizedWith c token))
        = Some ("Bearer " +:+ render token)).
Proof.
  intros Hfalsy started resumed. subst resumed started.
  rewrite resumeAll_spec, beginAll_falsy by done. cbn [accessToken sent].
  repeat (split; [done|]). intros c token. apply authorized_header.
Qed.

End TokenFacts.

(** Two calls start on a fresh client; the reply for the second arrives
    first. *)
Lemma calls_without_token_each_refresh_twice :
  map Fetch.sentUrl
    (Fetch.sent
       (Fetch.resumeAll
          [(listFirewallsCall, tokenReply "token-2");
           (listZonesCall, tokenReply "token-1")]
          (Fetch.beginAll "id" "secret" "refresh"
             [listZonesCall; listFirewallsCall] freshClient)))
  = ["https://oauth2.googleapis.com/token";
     "https://oauth2.googleapis.com/token";
     "https://compute.googleapis.com/compute/v1/projects/p/global/firewalls";
     "https://compute.googleapis.com/compute/v1/projects/p/zones"]
  /\ Fetch.accessToken
       (Fetch.resumeAll
          [(listFirewallsCall, tokenReply "token-2");
           (listZonesCall, tokenReply "token-1")]
          (Fetch.beginAll "id" "secret" "refresh"
             [listZonesCall; listFirewallsCall] freshClient))
     = Some "token-1".
Proof.
  destruct (calls_without_token_each_refresh "id" "secret" "refresh"
              [listZonesCall; listFirewallsCall]
              [(listFirewallsCall, tokenReply "token-2");
               (listZonesCall, tokenReply "token-1")]
              freshClient eq_refl) as (Hstarted & _ & Hsent & Htoken & _).
  rewrite Hsent, Hstarted, Htoken. split; reflexivity.
Defined.

(** A client with a token, a call that is answered and one that is
    refused with a 401. *)
Lemma held_token_is_kept_after_401 :
  Fetch.accessToken
    (fst (Fetch.fetchAll "id" "secret" "refresh"
            [(listZonesCall, tokenReply "token-2",
              Fetch.Responded 401 "Unauthorized" (Fetch.Parsed tt));
             (listFirewallsCall, tokenReply "token-3",
              Fetch.Responded 200 "OK" (Fetch.Parsed tt))]
            {| Fetch.accessToken := Some "token-1"; Fetch.sent := [] |}))
  = Some "token-1".
Proof.
  apply (held_token_is_kept "id" "secret" "refresh"
           [(listZonesCall, tokenReply "token-2",
             Fetch.Responded 401 "Unauthorized" (Fetch.Parsed tt));
            (listFirewallsCall, tokenReply "token-3",
             Fetch.Responded 200 "OK" (Fetch.Parsed tt))]
           {| Fetch.accessToken := Some "token-1"; Fetch.sent := [] |}
           "token-1").
  - reflexivity.
  - discriminate.
Defined.

(** ** Form data *)

Section FormFacts.

Local Arguments String.append !_ _ : simpl nomatch.

Import Fetch.

(** Neither of the two separators of form data. *)
Lemma encodeUnit_separators (c : ascii) :
  forallb (fun x => negb (Ascii.eqb x "&") && negb (Ascii.eqb x "="))
    (Js.chars (encodeUnit c)) = true.
Proof. destruct c as [[] [] [] [] [] [] [] []]; reflexivity. Qed.

Lemma decodeComponent_unit (c : ascii) (rest : string) :
  decodeComponent (encodeUnit c +:+ rest) = String c <$> decodeComponent rest.
Proof. destruct c as [[] [] [] [] [] [] [] []]; reflexivity. Qed.

Lemma decodeComponent_encodeURIComponent (s : string) :
  decodeComponent (encodeURIComponent s) = Some s.
Proof.
  induction s as [|c s IH]; [done|]. simpl.
  by rewrite decodeComponent_unit, IH.
Qed.

(** No character of [s] is [sep]. *)
Lemma free_append (sep : ascii) (a b : string) :
  forallb (fun x => negb (Ascii.eqb x sep)) (Js.chars (a +:+ b))
  = forallb (fun x => negb (Ascii.eqb x sep)) (Js.chars a)
    && forallb (fun x => negb (Ascii.eqb x sep)) (Js.chars b).
Proof. by rewrite chars_append, forallb_app. Qed.

Lemma encodeURIComponent_free (sep : ascii) (s : string) :
  sep = "&"%char \/ sep = "="%char ->
  forallb (fun x => negb (Ascii.eqb x sep)) (Js.chars (encodeURIComponent s)) = true.
Proof.
  intros Hsep. induction s as [|c s IH]; [done|]. simpl.
  rewrite free_append, IH, andb_true_r.
  pose proof (encodeUnit_separators c) as H.
  rewrite forallb_forall in *. intros x Hx. apply H in Hx.
  apply andb_true_iff in Hx as [H1 H2]. by destruct Hsep as [-> | ->].
Qed.

Lemma cut_free (sep : ascii) (a b : string) :
  forallb (fun x => negb (Ascii.eqb x sep)) (Js.chars a) = true ->
  cut sep (a +:+ String sep b) = (a, Some b).
Proof.
  induction a as [|c a IH]; simpl.
  - intros _. by rewrite Ascii.eqb_refl.
  - intros [Hc Ha]%andb_true_iff. apply negb_true_iff in Hc.
    by rewrite Hc, IH.
Qed.

Lemma pieces_free (sep : ascii) (a : string) :
  forallb (fun x => negb (Ascii.eqb x sep)) (Js.chars a) = true ->
  pieces sep a = [a].
Proof.
  induction a as [|c a IH]; simpl; [done|].
  intros [Hc Ha]%andb_true_iff. apply negb_true_iff in Hc.
  by rewrite Hc, IH.
Qed.

Lemma pieces_free_cons (sep : ascii) (a b : string) :
  forallb (fun x => negb (Ascii.eqb x sep)) (Js.chars a) = true ->
  pieces sep (a +:+ String sep b) = a :: pieces sep b.
Proof.
  induction a as [|c a IH]; simpl.
  - intros _. by rewrite Ascii.eqb_refl.
  - intros [Hc Ha]%andb_true_iff. apply negb_true_iff in Hc.
    by rewrite Hc, IH.
Qed.

(** An entry as [encodeFormData] writes it. *)
Lemma parseEntry_encoded (key value : string) :
  parseEntry (encodeURIComponent key +:+ "=" +:+ encodeURIComponent value)
  = Some (key, value).
Proof.
  unfold parseEntry.
  change ("=" +:+ encodeURIComponent value)
    with (String "=" (encodeURIComponent value)).
  rewrite cut_free by (apply encodeURIComponent_free; by right).
  by rewrite !decodeComponent_encodeURIComponent.
Qed.

Lemma entry_free (key value : string) :
  forallb (fun x => negb (Ascii.eqb x "&"))
    (Js.chars (encodeURIComponent key +:+ "=" +:+ encodeURIComponent value))
  = true.
Proof.
  change ("=" +:+ encodeURIComponent value)
    with (String "=" (encodeURIComponent value)).
  rewrite free_append. simpl.
  by rewrite !encodeURIComponent_free by (by left).
Qed.

Lemma mapM_pieces_encoded (entry : string * string) (data : list (string * string)) :
  mapM parseEntry (pieces "&" (encodeFormData (entry :: data)))
  = Some (entry :: data).
Proof.
  revert entry. induction data as [|next data IH]; intros [key value].
  - unfold encodeFormData. cbn [map String.concat fst snd].
    rewrite pieces_free by apply entry_free. cbn [mapM].
    by rewrite parseEntry_encoded.
  - specialize (IH next).
    unfold encodeFormData in *. cbn [map String.concat fst snd] in *.
    change ("&" +:+ ?rest) with (String "&" rest).
    rewrite pieces_free_cons by apply entry_free.
    cbn [mapM]. rewrite parseEntry_encoded. cbn [mbind option_bind].
    by rewrite IH.
Qed.

(** X13: the form data of [encodeFormData] can be read back: split at
    [&], each piece cut at its first [=], and the escapes undone, it gives
    the entries in their order, whatever the characters of the keys and
    values are.  So two lists of entries with the same encoding are the
    same list, and in the body of the token request the refresh token
    cannot pass for another field. *)
Theorem encodeFormData_round_trip (data : list (string * string)) :
  parseFormData (encodeFormData data) = Some data
  /\ (forall other, encodeFormData other = encodeFormData data -> other = data)
  /\ forall clientId clientSecret refreshToken,
       bodyOf (Fetch.data (refreshCall clientId clientSecret refreshToken))
       ≫= parseFormData
       = Some [("client_id", clientId); ("client_secret", clientSecret);
               ("refresh_token", refreshToken);
               ("grant_type", "refresh_token")].
Proof.
  assert (Hround : forall entries,
            parseFormData (encodeFormData entries) = Some entries).
  { intros [|[key value] entries]; [done|].
    unfold parseFormData.
    destruct (encodeFormData ((key, value) :: entries)) as [|c text] eqn:Henc.
    - exfalso. pose proof (mapM_pieces_encoded (key, value) entries) as H.
      rewrite Henc in H. discriminate H.
    - rewrite <- Henc. apply mapM_pieces_encoded. }
  split; [apply Hround|]. split.
  - intros other Heq. pose proof (Hround other) as H.
    rewrite Heq, Hround in H. by injection H.
  - intros clientId clientSecret refreshToken. simpl Fetch.data.
    unfold bodyOf.
    destruct (encodeFormData _) as [|c text] eqn:Henc.
    + pose proof (Hround [("client_id", clientId); ("client_secret", clientSecret);
                          ("refresh_token", refreshToken);
                          ("grant_type", "refresh_token")]) as H.
      rewrite Henc in H. discriminate H.
    + cbn [mbind option_bind]. rewrite <- Henc. apply Hround.
Qed.

End FormFacts.
Example encodeURIComponent_example :
  Fetch.encodeURIComponent
    ("1//0g-Xy_z.~!*'() &=+/?#%" +:+ String (ascii_of_N 233) (String (ascii_of_N 128) ""))
  = "1%2F%2F0g-Xy_z.~!*'()%20%26%3D%2B%2F%3F%23%25%C3%A9%C2%80".
Proof. reflexivity. Qed.

(** ** [createServer] *)

Section CreateServerFacts.

Variable accountId : string.
Variable getInstallScript : string -> bool -> string.
Variable firewallsListed : Result (option Account.ListFirewallsResponse).
Variables firewallPosted firewallWaited : Result Cloud.ComputeEngineOperation.
Variables instancePosted instanceWaited : Result Cloud.ComputeEngineOperation.

Lemma createFirewallIfNeeded_spec (projectId : string) :
  let run :=
    Account.createFirewallIfNeeded firewallsListed firewallPosted
      firewallWaited projectId in
  (snd run = Returned tt
   <-> firewallReady firewallsListed firewallPosted firewallWaited)
  /\ ((exists data, Account.PostFirewall projectId data ∈ fst run)
      <-> exists response,
            firewallsListed = Returned response
            /\ Account.firewallMissing response = true)
  /\ (forall c, c ∈ fst run ->
        match c with
        | Account.PostInstance _ _ | Account.WaitZoneOperation _ _ => False
        | _ => True
        end).
Proof.
  cbv zeta.
  unfold Account.createFirewallIfNeeded, Account.createFirewall, Account.bind,
    Account.call, Account.ret, Account.throw,
    Cloud.computeEngineOperationGlobalWait, firewallReady.
  destruct firewallsListed as [response|e]; simpl.
  2: { split; [split; [done | by intros (? & [=] & _)]|].
       split; [|by intros c [->|[]%elem_of_nil]%elem_of_cons].
       split; [|by intros (? & [=] & _)].
       by intros [data [[=]|[]%elem_of_nil]%elem_of_cons]. }
  destruct (Account.firewallMissing response) eqn:Hmissing; simpl.
  2: { split; [split; [intros _; exists response; by split; [|left] | done]|].
       split; [|by intros c [->|[]%elem_of_nil]%elem_of_cons].
       split; [|by intros (? & [= <-] & ?); congruence].
       by intros [data [[=]|[]%elem_of_nil]%elem_of_cons]. }
  destruct firewallPosted as [operation|e]; simpl.
  2: { split.
       - split; [done|]. intros (? & [= <-] & [?|(? & ? & [=] & _)]). congruence.
       - split.
         + split; [by eauto|]. intros _. eexists.
           apply elem_of_cons. right. apply elem_of_cons. by left.
         + intros c Hc. repeat (apply elem_of_cons in Hc as [->|Hc]; [done|]).
           by apply elem_of_nil in Hc. }
  destruct firewallWaited as [resolved|e]; simpl.
  2: { split.
       - split; [done|]. intros (? & [= <-] & [?|(? & ? & _ & [=] & _)]). congruence.
       - split.
         + split; [by eauto|]. intros _. eexists.
           apply elem_of_cons. right. apply elem_of_cons. by left.
         + intros c Hc. repeat (apply elem_of_cons in Hc as [->|Hc]; [done|]).
           by apply elem_of_nil in Hc. }
  destruct (Cloud.errors resolved) as [errors|] eqn:Herrors; simpl.
  - split.
    + split; [done|].
      intros (? & [= <-] & [?|(? & ? & _ & [= <-] & ?)]); congruence.
    + split.
      * split; [by eauto|]. intros _. eexists.
        apply elem_of_cons. right. apply elem_of_cons. by left.
      * intros c Hc. repeat (apply elem_of_cons in Hc as [->|Hc]; [done|]).
        by apply elem_of_nil in Hc.
  - split.
    + split; [|done]. intros _. exists response. split; [done|]. right.
      by exists operation, resolved.
    + split.
      * split; [by eauto|]. intros _. eexists.
        apply elem_of_cons. right. apply elem_of_cons. by left.
      * intros c Hc. repeat (apply elem_of_cons in Hc as [->|Hc]; [done|]).
        by apply elem_of_nil in Hc.
Qed.

(** X14: [createServer].  The instance is requested exactly when the
    firewall is ready: it was listed, or it was created and its operation
    resolved without an error list.  The call returns a server exactly
    when, besides, the instance request succeeds and its operation has no
    error list; the server then has the target of the operation as its
    instance, the name made from the time of the call, and the zone wait
    as its creation.  When the wait resolves without an error list the
    server records [INSTANCE_CREATED] and goes on to the static address;
    with an error list it records [FAILED] and rejects its readiness with
    the first error's code and message, and with a failed request it
    records [FAILED] and rejects with the error of the request. *)
Theorem createServer_outcome (now : Account.Date)
    (projectId name zoneId : string) (metricsEnabled : bool) :
  let run :=
    Account.createServer accountId getInstallScript firewallsListed
      firewallPosted firewallWaited instancePosted instanceWaited now
      projectId name zoneId metricsEnabled in
  let zone := {| Cloud.projectId := projectId; Cloud.zoneId := zoneId |} in
  ((exists data, Account.PostInstance zone data ∈ fst run)
   <-> firewallReady firewallsListed firewallPosted firewallWaited)
  /\ (forall created,
        snd run = Returned created
        <-> firewallReady firewallsListed firewallPosted firewallWaited
            /\ exists operation,
                 instancePosted = Returned operation
                 /\ Cloud.errors operation = None
                 /\ created
                    = {| Account.id := accountId +:+ ":" +:+ Cloud.targetId operation;
                         Account.locator :=
                           {| Cloud.zoneOf := zone;
                              Cloud.instanceId := Cloud.targetId operation |};
                         Account.yandexInstanceName :=
                           Account.makeYandexInstanceName now;
                         Account.instanceCreation :=
                           Cloud.computeEngineOperationZoneWait instanceWaited |})
  /\ (forall created,
        snd run = Returned created ->
        let s :=
          Install.step Install.new
            (Install.InstanceCreationSettled
               (settledAs (Account.instanceCreation created))) in
        match instanceWaited with
        | Returned resolved =>
            match Cloud.errors resolved with
            | None =>
                Install.state s = Install.INSTANCE_CREATED
                /\ Install.chain s = Install.AwaitHasStaticIp
            | Some errors =>
                Install.state s = Install.FAILED
                /\ Install.chain s
                   = Install.Settled
                       (Thrown (GcpError (Cloud.firstCode errors)
                                  (Cloud.firstMessage errors)))
            end
        | Thrown e =>
            Install.state s = Install.FAILED
            /\ Install.chain s = Install.Settled (Thrown e)
        end).
Proof.
  intros run zone.
  destruct (createFirewallIfNeeded_spec projectId) as (Hready & _ & Hcalls).
  subst run. unfold Account.createServer, Account.bind at 1.
  destruct (Account.createFirewallIfNeeded firewallsListed firewallPosted
              firewallWaited projectId) as [calls [[]|e]]; simpl in Hready, Hcalls.
  2: { simpl. split; [|split; [|done]].
       - split; [|by intros ?%Hready].
         intros [data Hin]. by apply Hcalls in Hin.
       - intros created. split; [done | by intros [?%Hready _]]. }
  assert (Hfirewall : firewallReady firewallsListed firewallPosted firewallWaited)
    by by apply Hready.
  unfold Account.bind, Account.call, Account.ret, Account.throw.
  fold zone.
  destruct instancePosted as [operation|e]; simpl.
  2: { split; [|split; [|done]].
       - split; [done|]. intros _. eexists. apply elem_of_app. right.
         apply elem_of_cons. by left.
       - intros created. split; [done | by intros (_ & ? & [=] & _)]. }
  destruct (Cloud.errors operation) as [errors|] eqn:Herrors; simpl.
  - split; [|split; [|done]].
    + split; [done|]. intros _. eexists. apply elem_of_app. right.
      apply elem_of_cons. by left.
    + intros created. split; [done|].
      intros (_ & ? & [= <-] & ? & _). congruence.
  - split; [|split].
    + split; [done|]. intros _. eexists. apply elem_of_app. right.
      apply elem_of_cons. by left.
    + intros created. split.
      * intros [= <-]. split; [done|]. by exists operation.
      * by intros (_ & ? & [= <-] & _ & ->).
    + intros created [= <-]. simpl.
      destruct instanceWaited as [resolved|e]; simpl; [|done].
      by destruct (Cloud.errors resolved).
Qed.

End CreateServerFacts.

(** ** [listServers] *)

Section ListServersFacts.

Variable pathname : string -> option string.
Variables accountId projectId : string.

Lemma listed_returns (instance : Account.InstanceSummary) (server : Account.Listed) :
  Account.listed pathname accountId projectId instance = Returned server
  <-> exists zoneId,
        zoneOfUrl pathname instance zoneId
        /\ server = serverIn accountId projectId instance zoneId.
Proof.
  unfold Account.listed, Cloud.parseZoneUrl, zoneOfUrl.
  destruct (pathname (Account.summaryZone instance)) as [path|].
  2: { split; [done | by intros (? & (? & ? & [=] & _) & _)]. }
  destruct (Cloud.matchZoneUrl path) as [[p z]|] eqn:Hm.
  - pose proof (matchZoneUrl_sound _ _ _ Hm) as Hpath. split.
    + intros [= <-]. exists z. split; [by exists path, p | done].
    + intros (z' & (path' & p' & [= <-] & Hpath') & ->). simpl.
      by destruct (matchesZonePath_unique _ _ _ _ _ Hpath Hpath') as [_ ->].
  - split; [done|].
    intros (z' & (path' & p' & [= <-] & Hpath') & _).
    apply matchZoneUrl_complete in Hpath' as [groups Hg]. congruence.
Qed.

Lemma listed_throws (instance : Account.InstanceSummary) (e : JsError) :
  Account.listed pathname accountId projectId instance = Thrown e ->
  Cloud.parseZoneUrl pathname (Account.summaryZone instance) = Thrown e
  /\ exists cause, e = TypeError cause.
Proof.
  unfold Account.listed, Cloud.parseZoneUrl.
  destruct (pathname (Account.summaryZone instance)) as [path|];
    [|intros [= <-]; by eauto].
  destruct (Cloud.matchZoneUrl path) as [[p z]|]; [done|].
  intros [= <-]. by eauto.
Qed.

Lemma pushEach_returns (instances : list Account.InstanceSummary)
    (result servers : list Account.Listed) :
  Account.pushEach pathname accountId projectId instances result = Returned servers
  <-> exists zones,
        Forall2 (zoneOfUrl pathname) instances zones
        /\ servers
           = result ++ zip_with (serverIn accountId projectId) instances zones.
Proof.
  revert result. induction instances as [|instance instances IH]; intros result.
  - simpl. split.
    + intros [= <-]. exists []. split; [constructor | by rewrite app_nil_r].
    + intros (zones & Hz & ->). apply Forall2_nil_inv_l in Hz as ->.
      by rewrite app_nil_r.
  - simpl.
    destruct (Account.listed pathname accountId projectId instance)
      as [server|e] eqn:Hl.
    + apply listed_returns in Hl as (z & Hz & ->). rewrite IH. split.
      * intros (zones & Hzones & ->). exists (z :: zones).
        split; [by constructor|]. by rewrite <- app_assoc.
      * intros (zones & Hzones & ->).
        apply Forall2_cons_inv_l in Hzones as (z' & zones' & Hz' & Hzones' & ->).
        exists zones'. split; [done|]. rewrite <- app_assoc. simpl.
        destruct Hz as (path & p & Hpath & Hm).
        destruct Hz' as (path' & p' & Hpath' & Hm').
        rewrite Hpath in Hpath'. injection Hpath' as <-.
        by destruct (matchesZonePath_unique _ _ _ _ _ Hm Hm') as [_ ->].
    + split; [done|]. intros (zones & Hzones & _).
      apply Forall2_cons_inv_l in Hzones as (z' & zones' & Hz' & _ & _).
      assert (Hr : Account.listed pathname accountId projectId instance
                   = Returned (serverIn accountId projectId instance z')).
      { apply listed_returns. by exists z'. }
      congruence.
Qed.

Lemma pushEach_throws (instances : list Account.InstanceSummary)
    (result : list Account.Listed) (e : JsError) :
  Account.pushEach pathname accountId projectId instances result = Thrown e ->
  exists instance cause,
    instance ∈ instances
    /\ e = TypeError cause
    /\ Cloud.parseZoneUrl pathname (Account.summaryZone instance) = Thrown e.
Proof.
  revert result. induction instances as [|instance instances IH]; intros result;
    [done|]. simpl.
  destruct (Account.listed pathname accountId projectId instance)
    as [server|e'] eqn:Hl.
  - intros (i & cause & Hin & H)%IH. exists i, cause.
    split; [|done]. apply elem_of_cons. by right.
  - intros [= ->]. apply listed_throws in Hl as (Hp & cause & ->).
    exists instance, cause. split; [|done]. apply elem_of_cons. by left.
Qed.

(** X15: [listServers] lists all the instances of the response or none.
    It returns exactly when the URL of every instance names a zone, with
    one server for each instance, in the order of the response: the
    server has the instance as its locator's instance, the zone of the
    URL as its zone, and the project of the call as its project, whatever
    project the URL names.  Otherwise it fails with the [TypeError] of
    [parseZoneUrl] on one of the URLs. *)
Theorem listServers_all_or_none
    (response : option Account.ListAllInstancesResponse) :
  let run :=
    Account.listServers pathname accountId projectId (Returned response) in
  (forall servers,
     run = Returned servers
     <-> exists zones,
           Forall2 (zoneOfUrl pathname) (Account.visited response) zones
           /\ servers
              = zip_with (serverIn accountId projectId)
                  (Account.visited response) zones)
  /\ (forall e,
        run = Thrown e ->
        exists instance cause,
          instance ∈ Account.visited response
          /\ e = TypeError cause
          /\ Cloud.parseZoneUrl pathname (Account.summaryZone instance) = Thrown e).
Proof.
  cbv zeta. unfold Account.listServers. split.
  - intros servers. by rewrite pushEach_returns.
  - intros e. apply pushEach_throws.
Qed.

End ListServersFacts.

(** ** Billing accounts and projects *)

Section BillingFacts.

Local Arguments String.append !_ _ : simpl nomatch.

Import Account.

Lemma lastIndexOfFrom_spec (i : Z) (s : string) (c : ascii) :
  0 <= i ->
  ((lastIndexOfFrom i s c = -1) /\ c ∉ Js.chars s)
  \/ exists before after,
       s = before +:+ String c after
       /\ (c ∉ Js.chars after)
       /\ lastIndexOfFrom i s c = i + Z.of_nat (String.length before).
Proof.
  revert i. induction s as [|x s IH]; intros i Hi; simpl.
  - left. split; [done | apply not_elem_of_nil].
  - destruct (IH (i + 1)) as [[Hnone Hnot]|(before & after & -> & Hnot & Hfound)];
      [lia| |].
    + rewrite Hnone. simpl. destruct (Ascii.eqb_spec x c) as [->|Hne].
      * right. exists "", s. repeat split; [done|]. simpl. lia.
      * left. split; [done|]. by apply not_elem_of_cons.
    + right. exists (String x before), after. rewrite Hfound.
      destruct (Z.leb_spec 0 (i + 1 + Z.of_nat (String.length before))); [|lia].
      repeat split; [done|]. simpl String.length. lia.
Qed.

Lemma dropChars_after (before after : string) (c : ascii) :
  dropChars (S (String.length before)) (before +:+ String c after) = after.
Proof. induction before as [|x before IH]; [by destruct after | done]. Qed.

(** The identifier of a billing account. *)
Lemma substring_lastIndexOf (name : string) :
  afterLastSlash name (substring name (lastIndexOf name "/" + 1)).
Proof.
  unfold afterLastSlash, lastIndexOf, substring, slashFree.
  assert (Hfree : forall s, "/"%char ∉ Js.chars s ->
            Forall (fun c => Cloud.notSlash c = true) (Js.chars s)).
  { intros s Hs. apply Forall_forall. intros c Hc. unfold Cloud.notSlash.
    destruct (Ascii.eqb_spec c "/") as [->|]; done. }
  destruct (lastIndexOfFrom_spec 0 name "/")
    as [[-> Hnot]|(before & after & -> & Hnot & ->)]; [lia| |].
  - simpl. split; [by apply Hfree | by left].
  - replace (Z.to_nat (0 + Z.of_nat (String.length before) + 1))
      with (S (String.length before)) by lia.
    rewrite dropChars_after. split; [by apply Hfree|]. right. by exists before.
Qed.

(** X16: [listOpenBillingAccounts] gives one account for each open billing
    account of the response, in their order, none when the response has
    no list: its identifier is what follows the last slash of the
    resource name, all of the name when it has no slash, and its name is
    the display name.  [listProjects] gives one project for each project
    of the response, with its identifier and name. *)
Theorem listOpenBillingAccounts_ids (response : ListBillingAccountsResponse)
    (listed : ListProjectsResponse) :
  Forall2 (fun info account =>
             afterLastSlash (billingName info) (billingId account)
             /\ billingDisplayName account = displayName info)
    (List.filter open (default [] (billingAccounts response)))
    (listOpenBillingAccounts response)
  /\ Forall2 (fun info project =>
                projectId project = infoProjectId info
                /\ projectName project = infoName info)
       (default [] (projects listed)) (listProjects listed).
Proof.
  split.
  - unfold listOpenBillingAccounts.
    destruct (billingAccounts response) as [[|info infos]|];
      cbn -[List.filter]; [constructor| |constructor].
    generalize (List.filter open (info :: infos)). intros l.
    induction l as [|x l IH]; simpl; constructor; [|done].
    split; [apply substring_lastIndexOf | done].
  - unfold listProjects.
    destruct (projects listed) as [[|info infos]|];
      cbn -[map]; [constructor| |constructor].
    generalize (info :: infos). intros l.
    induction l as [|x l IH]; simpl; constructor; done.
Qed.

End BillingFacts.

(** ** The instance name *)

Section NameFacts.

Local Arguments String.append !_ _ : simpl nomatch.

Import Account.

Lemma decimal_inj (a b : Z) : decimal a = decimal b -> a = b.
Proof.
  assert (Hread : forall z,
            NilZero.int_of_string (decimal z) = Some (Z.to_int z)).
  { intros z. unfold decimal. apply NilZero.isi.
    - destruct z; simpl; try discriminate.
      intros [= H]. by apply Unsigned.to_uint_nonnil in H.
    - destruct z; simpl; try discriminate.
      intros [= H]. by apply Unsigned.to_uint_nonnil in H. }
  intros H. apply DecimalZ.to_int_inj.
  pose proof (Hread a) as Ha. rewrite H, Hread in Ha. by injection Ha.
Qed.

Lemma pad2Table_lookup (n : Z) :
  0 <= n < 100 -> pad2Table !! Z.to_nat n = Some (pad2 n).
Proof.
  intros Hn. unfold pad2Table. rewrite list_lookup_fmap, lookup_seq_lt by lia.
  simpl. f_equal. f_equal. lia.
Qed.

Lemma pad2_inj (n m : Z) :
  0 <= n < 100 -> 0 <= m < 100 -> pad2 n = pad2 m -> n = m.
Proof.
  intros Hn Hm H.
  assert (Hdup : NoDup pad2Table).
  { apply (bool_decide_unpack _). vm_compute. exact I. }
  pose proof (pad2Table_lookup n Hn) as Hln.
  pose proof (pad2Table_lookup m Hm) as Hlm. rewrite <- H in Hlm.
  pose proof (NoDup_lookup _ _ _ _ Hdup Hln Hlm). lia.
Qed.

Lemma pad2_length (n : Z) : 0 <= n < 100 -> length (Js.chars (pad2 n)) = 2%nat.
Proof.
  intros Hn.
  assert (Hall : Forall (fun s => length (Js.chars s) = 2%nat) pad2Table).
  { apply (bool_decide_unpack _). vm_compute. exact I. }
  rewrite Forall_lookup in Hall. exact (Hall _ _ (pad2Table_lookup n Hn)).
Qed.

Lemma digit_isLabelChar (c : ascii) :
  Js.inRange "0" "9" c = true -> isLabelChar c = true.
Proof. intros H. unfold isLabelChar. by rewrite H, orb_true_r. Qed.

Lemma decimal_label (n : Z) :
  0 <= n -> Forall (fun c => isLabelChar c = true) (Js.chars (decimal n)).
Proof.
  intros Hn. eapply Forall_impl; [by apply decimal_nonneg_chars|].
  apply digit_isLabelChar.
Qed.

Lemma pad2_label (n : Z) :
  0 <= n -> Forall (fun c => isLabelChar c = true) (Js.chars (pad2 n)).
Proof.
  intros Hn. pose proof (decimal_label n Hn) as H. unfold pad2, padStart2.
  destruct (decimal n) as [|c [|d rest]]; try done.
  - by repeat constructor.
  - by constructor.
Qed.

Lemma makeYandexInstanceName_chars (now : Date) :
  Js.chars (makeYandexInstanceName now)
  = Js.chars "outline-" ++ Js.chars (decimal (fullYear now))
    ++ Js.chars (pad2 (month now + 1)) ++ Js.chars (pad2 (date now))
    ++ Js.chars "-" ++ Js.chars (pad2 (hours now))
    ++ Js.chars (pad2 (minutes now)) ++ Js.chars (pad2 (seconds now)).
Proof. unfold makeYandexInstanceName. by rewrite !chars_append. Qed.

(** X17: the name that [makeYandexInstanceName] makes of a date.  It has
    only lower-case letters, digits and hyphens, begins with a letter and
    ends with a digit; and it tells the second of the date: two dates
    with the same name are the same second, so that names are as unique
    as the seconds of the calls (and two calls in one second get one
    name). *)
Theorem makeYandexInstanceName_tells_the_second (now other : Date) :
  validDate now ->
  validDate other ->
  (makeYandexInstanceName now = makeYandexInstanceName other <-> now = other)
  /\ Forall (fun c => isLabelChar c = true)
       (Js.chars (makeYandexInstanceName now))
  /\ (exists rest, makeYandexInstanceName now = String "o" rest)
  /\ (exists digit, Js.inRange "0" "9" digit = true
                    /\ last (Js.chars (makeYandexInstanceName now)) = Some digit).
Proof.
  intros (Hy & HM & HD & Hh & Hm & Hs) (Hy' & HM' & HD' & Hh' & Hm' & Hs').
  split; [|split; [|split]].
  - split; [|by intros ->]. intros H.
    apply (f_equal Js.chars) in H. rewrite !makeYandexInstanceName_chars in H.
    apply app_inv_head in H.
    assert (Hlen : forall d, validDate d ->
              length (Js.chars (pad2 (month d + 1)) ++ Js.chars (pad2 (date d))
                      ++ Js.chars "-" ++ Js.chars (pad2 (hours d))
                      ++ Js.chars (pad2 (minutes d)) ++ Js.chars (pad2 (seconds d)))
              = 11%nat).
    { intros d (? & ? & ? & ? & ? & ?).
      rewrite !length_app, !pad2_length by lia. done. }
    apply app_inj_2 in H as [HY H];
      [|by rewrite !Hlen by (repeat split; lia)].
    apply app_inj_1 in H as [HMo H]; [|by rewrite !pad2_length by lia].
    apply app_inj_1 in H as [HDa H]; [|by rewrite !pad2_length by lia].
    apply app_inv_head in H.
    apply app_inj_1 in H as [Hho H]; [|by rewrite !pad2_length by lia].
    apply app_inj_1 in H as [Hmi Hse]; [|by rewrite !pad2_length by lia].
    apply chars_inj, decimal_inj in HY.
    apply chars_inj, pad2_inj in HMo; [|lia..].
    apply chars_inj, pad2_inj in HDa; [|lia..].
    apply chars_inj, pad2_inj in Hho; [|lia..].
    apply chars_inj, pad2_inj in Hmi; [|lia..].
    apply chars_inj, pad2_inj in Hse; [|lia..].
    destruct now, other. simpl in *. f_equal; lia.
  - rewrite makeYandexInstanceName_chars.
    repeat (apply Forall_app; split);
      try (apply pad2_label; lia); try (apply decimal_label; lia);
      by repeat constructor.
  - by eexists.
  - rewrite makeYandexInstanceName_chars, !app_assoc.
    pose proof (pad2_length (seconds now) ltac:(lia)) as Hlen.
    pose proof (decimal_nonneg_chars (seconds now) ltac:(lia)) as Hdigits.
    assert (Hpad : Forall (fun c => Js.inRange "0" "9" c = true)
                     (Js.chars (pad2 (seconds now)))).
    { unfold pad2, padStart2.
      destruct (decimal (seconds now)) as [|c [|d rest]]; try done.
      - by repeat constructor.
      - by constructor. }
    destruct (Js.chars (pad2 (seconds now))) as [|a [|b [|c l]]]; try done.
    exists b. rewrite last_app. simpl. split; [|done].
    by inversion Hpad as [|? ? _ [|? ? ? _]].
Qed.

(** Two names of the same second. *)
Lemma makeYandexInstanceName_tells_the_second_example :
  makeYandexInstanceName exampleDate = "outline-20240103-040506"
  /\ (makeYandexInstanceName exampleDate = makeYandexInstanceName exampleDate
      <-> exampleDate = exampleDate).
Proof.
  split; [reflexivity|].
  apply (makeYandexInstanceName_tells_the_second exampleDate exampleDate);
    unfold validDate; simpl; lia.
Defined.

End NameFacts.

(** ** [createProject] *)

Section ProjectFacts.

Import Account.

Lemma pollUntilDone_ends (get : Step) (reply : nat -> Result (option Operation))
    (k : nat) (operation : Operation) (fuel polled : nat)
    (before : option Operation) :
  notDone before = true ->
  (forall j, (polled <= j < polled + k)%nat ->
     exists o, reply j = Returned o /\ notDone o = true) ->
  reply (polled + k)%nat = Returned (Some operation) ->
  done operation = true ->
  (k < fuel)%nat ->
  pollUntilDone fuel get reply polled before
  = (rounds (S k) get, Some (Returned (Some operation))).
Proof.
  revert fuel polled before.
  induction k as [|k IH]; intros fuel polled before Hbefore Hearlier Hat Hdone Hfuel;
    (destruct fuel as [|fuel]; [lia|]); simpl; rewrite Hbefore.
  - rewrite Nat.add_0_r in Hat. rewrite Hat.
    destruct fuel; simpl; by rewrite Hdone.
  - destruct (Hearlier polled) as (o & Ho & Hnot); [lia|]. rewrite Ho.
    rewrite (IH fuel (S polled) o); try done; try lia.
    + intros j Hj. apply Hearlier. lia.
    + by replace (S polled + k)%nat with (polled + S k)%nat by lia.
Qed.

Lemma pollUntilDone_pending (get : Step) (reply : nat -> Result (option Operation))
    (fuel polled : nat) (before : option Operation) :
  notDone before = true ->
  (forall j, exists o, reply j = Returned o /\ notDone o = true) ->
  pollUntilDone fuel get reply polled before = (rounds fuel get, None).
Proof.
  intros Hbefore Hnever. revert polled before Hbefore.
  induction fuel as [|fuel IH]; intros polled before Hbefore; simpl;
    rewrite Hbefore; [done|].
  destruct (Hnever polled) as (o & -> & Ho). by rewrite IH.
Qed.

(** X18: [createProject] and the loops that wait for its operations.
    When the requests succeed and the polls of the two operations first
    report [done] at the polls [k] and [k'], the steps are the project
    request, [k + 1] rounds of a 2000 ms sleep and a poll, the billing
    and service requests, and [k' + 1] such rounds; the result is the
    project with the identifier of the call and the name "Outline
    servers", whether the operations carry an error or not.  When no poll
    of the first operation reports [done], the loop polls without an end:
    no bound of the unfolding brings a result or the billing request. *)
Theorem createProject_waits_and_ignores_errors
    (projectPosted servicesPosted : Result Operation)
    (projectPolled servicesPolled : nat -> Result (option Operation))
    (billingPut : Result unit)
    (posted enabled : Operation) (projectId billingAccountId : string) :
  projectPosted = Returned posted ->
  billingPut = Returned tt ->
  servicesPosted = Returned enabled ->
  (forall k k' created configured fuel,
     firstDone projectPolled k created ->
     firstDone servicesPolled k' configured ->
     (k < fuel)%nat -> (k' < fuel)%nat ->
     createProject projectPosted projectPolled billingPut servicesPosted
       servicesPolled fuel projectId billingAccountId
     = ([PostProject projectId "Outline servers" [("outline", "true")]]
        ++ rounds (S k) (GetResourceManagerOperation (operationName posted))
        ++ [PutBillingInfo projectId ("projects/" +:+ projectId +:+ "/billingInfo")
              ("billingAccounts/" +:+ billingAccountId);
            PostEnableServices projectId ["compute.cloud.yandex.net"]]
        ++ rounds (S k') (GetServiceUsageOperation (operationName enabled)),
        Some (Returned {| projectId := projectId;
                          projectName := "Outline servers" |})))
  /\ ((forall j, exists o, projectPolled j = Returned o /\ notDone o = true) ->
      forall fuel,
        createProject projectPosted projectPolled billingPut servicesPosted
          servicesPolled fuel projectId billingAccountId
        = (PostProject projectId "Outline servers" [("outline", "true")]
           :: rounds fuel (GetResourceManagerOperation (operationName posted)),
           None)).
Proof.
  intros -> -> ->. split.
  - intros k k' created configured fuel (Hbefore & Hat & Hdone)
      (Hbefore' & Hat' & Hdone') Hfuel Hfuel'.
    unfold createProject, configureProject, request. cbn [andThen].
    rewrite (pollUntilDone_ends _ _ k created); try done;
      [|intros j Hj; apply Hbefore; lia].
    cbn [andThen].
    rewrite (pollUntilDone_ends _ _ k' configured); try done;
      [|intros j Hj; apply Hbefore'; lia].
    cbn [andThen app]. by rewrite !app_nil_r.
  - intros Hnever fuel.
    unfold createProject, request. cbn [andThen].
    by rewrite pollUntilDone_pending.
Qed.

End ProjectFacts.

(** Both operations are done, with an error, at their third poll. *)
Lemma createProject_waits_and_ignores_errors_example :
  snd (Account.createProject
         (Returned {| Account.operationName := "operations/1";
                      Account.done := false; Account.error := false |})
         doneAtThird (Returned tt)
         (Returned {| Account.operationName := "operations/1";
                      Account.done := false; Account.error := false |})
         doneAtThird 3 "outline-1" "0A1B2C")
  = Some (Returned {| Account.projectId := "outline-1";
                      Account.projectName := "Outline servers" |}).
Proof.
  assert (Hthird : firstDone doneAtThird 2
                     {| Account.operationName := "operations/1";
                        Account.done := true; Account.error := true |}).
  { split; [|split; reflexivity].
    intros [|[|j]] Hj; [by eexists | by eexists | lia]. }
  destruct (createProject_waits_and_ignores_errors
              (Returned {| Account.operationName := "operations/1";
                           Account.done := false; Account.error := false |})
              (Returned {| Account.operationName := "operations/1";
                           Account.done := false; Account.error := false |})
              doneAtThird doneAtThird (Returned tt) _ _ "outline-1" "0A1B2C"
              eq_refl eq_refl eq_refl) as [Hends _].
  rewrite (Hends 2%nat 2%nat _ _ 3%nat Hthird Hthird); [reflexivity | lia | lia].
Defined.

(** ** The OAuth session *)

Section OauthFacts.

Local Arguments String.append !_ _ : simpl nomatch.

Import Oauth.

Lemma isTwoHundred_spec (status : Z) : isTwoHundred status = true <-> status = 200.
Proof.
  unfold isTwoHundred. rewrite Qeq_bool_iff.
  unfold Qeq, Qdiv, Qmult, Qinv, inject_Z. simpl. lia.
Qed.

Lemma oauth_isFalsy_false (s : option string) :
  isFalsy s = false <-> exists text, s = Some text /\ text <> "".
Proof.
  destruct s as [[|c text]|]; simpl.
  - split; [done | by intros (? & [= <-] & ?)].
  - split; [by eauto | done].
  - split; [done | by intros (? & [=] & _)].
Qed.

Lemma find_granted (requiredScope : string) (granted : list string) :
  requiredScope <> "" ->
  negb (isFalsy (List.find (String.eqb requiredScope) granted)) = true
  <-> requiredScope ∈ granted.
Proof.
  intros Hne. induction granted as [|g granted IH]; simpl.
  - split; [done | by intros ?%elem_of_nil].
  - destruct (String.eqb_spec requiredScope g) as [<-|Hg].
    + split; [intros _; by apply elem_of_cons; left|].
      intros _. by destruct requiredScope.
    + rewrite IH. split; [intros ?; apply elem_of_cons; by right|].
      by intros [?|?]%elem_of_cons.
Qed.

Lemma all_granted (required granted : list string) :
  Forall (fun scope => scope <> "") required ->
  forallb (fun requiredScope =>
             negb (isFalsy (List.find (String.eqb requiredScope) granted)))
    required = true
  <-> forall scope, scope ∈ required -> scope ∈ granted.
Proof.
  intros Hne. rewrite forallb_forall. rewrite Forall_forall in Hne. split.
  - intros H scope Hin. apply find_granted; [by apply Hne|].
    apply H. by apply list_elem_of_In.
  - intros H scope Hin%list_elem_of_In. apply find_granted; [by apply Hne|].
    by apply H.
Qed.

Lemma verifyGrantedScopes_spec (granted : list string) :
  verifyGrantedScopes (Returned granted) = Returned true
  <-> forall scope, scope ∈ scopes -> scope ∈ granted.
Proof.
  rewrite <- all_granted by (by repeat constructor).
  unfold verifyGrantedScopes. generalize scopes. intros required.
  split; [by intros [= ->] | by intros ->].
Qed.

(** The [try] block gives the token exactly in this case. *)
Lemma exchange_resolves (tokenGot : Result GetTokenResponse)
    (tokenInfo : Result (list string)) (page token : string) :
  exchange tokenGot tokenInfo = Returned (page, Returned token)
  <-> page = responseHtml "Authentication successful"
      /\ token <> ""
      /\ exists response granted,
           tokenGot = Returned response
           /\ status response = Some 200
           /\ tokenInfo = Returned granted
           /\ (forall scope, scope ∈ scopes -> scope ∈ granted)
           /\ refresh_token response = Some token.
Proof.
  unfold exchange. split.
  - destruct tokenGot as [response|e]; [|done].
    destruct (status response) as [code|] eqn:Hcode; [|done].
    destruct (isTwoHundred code) eqn:H200; [|done].
    apply isTwoHundred_spec in H200 as ->.
    destruct tokenInfo as [granted|e]; [|done].
    destruct (verifyGrantedScopes (Returned granted)) as [[]|e] eqn:Hv;
      try done; simpl.
    destruct (isFalsy (refresh_token response)) eqn:Hf; [done|].
    apply oauth_isFalsy_false in Hf as (text & Ht & Hne). rewrite Ht.
    intros [= <- <-]. split; [done|]. split; [done|].
    exists response, granted. repeat (split; [done|]). split; [|done].
    by apply verifyGrantedScopes_spec.
  - intros (-> & Hne & response & granted & -> & -> & -> & Hall & Hr).
    assert (H200 : isTwoHundred 200 = true) by by apply isTwoHundred_spec.
    rewrite H200.
    apply verifyGrantedScopes_spec in Hall. rewrite Hall. simpl.
    rewrite Hr. by destruct token.
Qed.

(** X19: one redirect to a session that [runOauth] has just started.
    Whatever the request brings, the handler sends one page, settles the
    promise and closes the server; it sets the cancellation flag exactly
    when the error of the query is access_denied.  The promise is
    fulfilled exactly when the query has no error, [getToken] answers with
    the status 200 (no other status of the 2xx range will do), every
    required scope is among the granted ones, and the refresh token is
    not empty; it is fulfilled with that refresh token.  Another status
    is named in the rejection, while an exception of [getToken] is not:
    the message of the [catch] names the error of the query, which is
    absent or empty there. *)
Theorem handler_outcome (queryError : option string)
    (tokenGot : Result GetTokenResponse) (tokenInfo : Result (list string)) :
  let after := handler queryError tokenGot tokenInfo started in
  closed after = true
  /\ (exists page outcome, pages after = [page] /\ result after = Some outcome)
  /\ (isCancelled after = true <-> queryError = Some "access_denied")
  /\ (forall token,
        result after = Some (Returned token)
        <-> isFalsy queryError = true
            /\ token <> ""
            /\ exists response granted,
                 tokenGot = Returned response
                 /\ status response = Some 200
                 /\ tokenInfo = Returned granted
                 /\ (forall scope, scope ∈ scopes -> scope ∈ granted)
                 /\ refresh_token response = Some token)
  /\ (forall response code,
        isFalsy queryError = true ->
        tokenGot = Returned response ->
        status response = Some code ->
        code <> 200 ->
        result after
        = Some (Thrown ("Authentication failed with HTTP status code: "
                        +:+ decimal code)))
  /\ (forall e,
        isFalsy queryError = true ->
        tokenGot = Thrown e ->
        result after
        = Some (Thrown ("Authentication failed with error: "
                        +:+ render queryError))).
Proof.
  cbv zeta. unfold handler.
  destruct (isFalsy queryError) eqn:Hfalsy; cbn [negb].
  - assert (Hdenied : queryError <> Some "access_denied")
      by (intros ->; discriminate Hfalsy).
    destruct (exchange tokenGot tokenInfo) as [[page outcome]|e] eqn:Hx.
    + split; [done|]. split; [by exists page, outcome|].
      split; [done|]. split; [|split].
      * intros token. cbn. split.
        -- intros [= ->]. apply exchange_resolves in Hx as (_ & H). by split.
        -- intros (_ & Hne & H).
           assert (Hx' : exchange tokenGot tokenInfo
                         = Returned (responseHtml "Authentication successful",
                                     Returned token))
             by (apply exchange_resolves; by split).
           congruence.
      * intros response code _ -> Hcode Hne. cbn. revert Hx.
        unfold exchange. rewrite Hcode.
        destruct (isTwoHundred code) eqn:H200;
          [by apply isTwoHundred_spec in H200|].
        by intros [= <- <-].
      * intros e _ ->. done.
    + split; [done|]. split; [by eexists _, _|].
      split; [done|]. split; [|split].
      * intros token. split; [done|]. intros (_ & Hne & H).
        assert (Hx' : exchange tokenGot tokenInfo
                      = Returned (responseHtml "Authentication successful",
                                  Returned token))
          by (apply exchange_resolves; by split).
        congruence.
      * intros response code _ -> Hcode Hne. revert Hx.
        unfold exchange. rewrite Hcode.
        destruct (isTwoHundred code) eqn:H200;
          [by apply isTwoHundred_spec in H200 | done].
      * done.
  - case_bool_decide as Hdenied.
    + split; [done|]. split; [by eexists _, _|]. split; [done|].
      split; [|done]. intros token. split; [done | by intros [[=] _]].
    + split; [done|]. split; [by eexists _, _|]. split; [done|].
      split; [|done]. intros token. split; [done | by intros [[=] _]].
Qed.

Lemma settled_stays (s : Session) (ev : OauthEvent) (outcome : Outcome string string) :
  result s = Some outcome -> result (oauthStep s ev) = Some outcome.
Proof.
  intros Hs. destruct ev as [queryError tokenGot tokenInfo|]; simpl.
  - unfold handler.
    destruct (negb (isFalsy queryError)); [case_bool_decide|];
      try destruct (exchange tokenGot tokenInfo) as [[page o]|e];
      simpl; by rewrite Hs.
  - by rewrite Hs.
Qed.

Lemma oauthStep_settles (s : Session) (ev : OauthEvent) :
  closed (oauthStep s ev) = true
  /\ is_Some (result (oauthStep s ev))
  /\ isCancelled (oauthStep s ev) = isCancelled s || cancels ev.
Proof.
  destruct ev as [queryError tokenGot tokenInfo|]; simpl.
  - unfold handler.
    destruct (negb (isFalsy queryError)) eqn:Hq; [case_bool_decide|];
      try destruct (exchange tokenGot tokenInfo) as [[page o]|e]; simpl;
      (split; [done|]); (split; [by destruct (result s)|]);
      rewrite ?orb_true_r, ?orb_false_r; try done.
    all: case_bool_decide as Hd; [|by rewrite orb_false_r].
    all: subst queryError; discriminate Hq.
  - split; [done|]. split; [by destruct (result s)|]. by rewrite orb_true_r.
Qed.

(** X20: a session over any events, redirects and calls of [cancel] in
    any order.  The first event settles the promise and nothing after it
    changes how: a call of [cancel] after the token has arrived leaves
    the token, and a token that arrives after [cancel] is dropped.  The
    server is closed from the first event on, and the cancellation flag
    is set exactly when one of the events was a call of [cancel] or a
    redirect with the error access_denied, so that a session can be
    fulfilled and cancelled. *)
Theorem session_settles_once (first : OauthEvent) (later : list OauthEvent) :
  let after := foldl oauthStep started (first :: later) in
  result after = result (oauthStep started first)
  /\ is_Some (result after)
  /\ closed after = true
  /\ isCancelled after = existsb cancels (first :: later).
Proof.
  cbv zeta. cbn [foldl existsb].
  destruct (oauthStep_settles started first) as (Hclosed & [outcome Hsettled] & Hflag).
  simpl in Hflag. revert Hclosed Hsettled Hflag.
  generalize (oauthStep started first) (cancels first). intros s flag.
  revert s flag. induction later as [|ev later IH]; intros s flag Hclosed Hs Hflag.
  - simpl. by rewrite orb_false_r, Hs.
  - cbn [foldl existsb].
    destruct (oauthStep_settles s ev) as (Hclosed' & _ & Hflag').
    pose proof (settled_stays s ev outcome Hs) as Hs'.
    destruct (IH (oauthStep s ev) (flag || cancels ev)) as (Hr & Hsome & Hc & Hf);
      [done | done | by rewrite Hflag', Hflag|].
    rewrite Hr, Hs', Hs. repeat (split; [done|]).
    by rewrite Hf, orb_assoc.
Qed.

End OauthFacts.

(** The token arrives, then the caller cancels. *)
Example fulfilled_and_cancelled :
  Oauth.result
    (foldl oauthStep Oauth.started
       [Redirected None (Returned grantedReply) (Returned Oauth.scopes);
        CancelCalled])
  = Some (Returned "refresh")
  /\ Oauth.isCancelled
       (foldl oauthStep Oauth.started
          [Redirected None (Returned grantedReply) (Returned Oauth.scopes);
           CancelCalled])
     = true.
Proof. split; reflexivity. Qed.

(** ** The progress of the installation *)

Section ProgressFacts.

Import Install.

Lemma fraction_by_rank (a b : InstallState) :
  (rank a <= rank b)%nat ->
  (getCompletionFraction a <= getCompletionFraction b
   \/ getCompletionFraction b == 0)%Q.
Proof.
  destruct a, b; simpl; intros H; try lia;
    first [by right | left; unfold Qle; simpl; lia].
Qed.

Lemma fractions_rise (states : list InstallState) :
  nonDecreasing states = true ->
  risesOrResets (map getCompletionFraction states).
Proof.
  induction states as [|a [|b states] IH]; [done..|].
  intros [Hab Hrest]%andb_true_iff. apply Nat.leb_le in Hab.
  split; [by apply fraction_by_rank | by apply IH].
Qed.

(** X21: the progress that [monitorInstallProgress] yields for the states
    a fresh server records.  When the certificate, once observed, stays in
    the snapshots, no value is smaller than the one before it, unless it
    is the 0 of [FAILED] or [CANCELED]; and every value lies between 0
    and 1. *)
Theorem progress_rises_or_resets (events : list Event) :
  certificateStays false events ->
  let yielded :=
    fst (monitorInstallProgress (history events)
           (installState (run new events))) in
  risesOrResets (map getCompletionFraction (history events))
  /\ (exists last, yielded = map getCompletionFraction (history events) ++ last)
  /\ Forall (fun value => 0 <= value <= 1)%Q yielded.
Proof.
  intros Hstays yielded. split; [|split].
  - apply fractions_rise. unfold history.
    by apply (recorded_nonDecreasing new false events new_invariant).
  - subst yielded. unfold monitorInstallProgress.
    repeat case_bool_decide; cbn [fst];
      [exists []; by rewrite app_nil_r..|by eexists].
  - assert (Hall : forall states,
              Forall (fun value => 0 <= value <= 1)%Q
                (map getCompletionFraction states)).
    { intros states. apply Forall_forall. intros value Hin.
      apply list_elem_of_In, in_map_iff in Hin as (state & <- & _).
      destruct state; unfold Qle; simpl; lia. }
    subst yielded. unfold monitorInstallProgress.
    repeat case_bool_decide; cbn [fst]; try apply Hall.
    apply Forall_app. split; [apply Hall|].
    apply (Hall [ValueStream.get (installState (run new events))]).
Qed.

(** The installation of [installEvents]. *)
Lemma progress_rises_or_resets_installed :
  risesOrResets (map getCompletionFraction (history installEvents)).
Proof.
  apply (progress_rises_or_resets installEvents).
  vm_compute. tauto.
Defined.

End ProgressFacts.

(** ** The guest attributes *)

Section AttributeFacts.

Import Install.

Lemma foldl_insert_lookup (entries : list Cloud.Item) (key : string) :
  foldl (fun result entry => <[Cloud.key entry := Cloud.value entry]> result)
    (∅ : gmap string string) entries !! key
  = lastValue key entries.
Proof.
  unfold lastValue.
  induction entries as [|entry entries IH] using rev_ind; [done|].
  rewrite foldl_app, filter_app. cbn [foldl].
  destruct (decide (Cloud.key entry = key)) as [<-|Hne].
  - rewrite lookup_insert_eq.
    rewrite (filter_cons_True _ entry []) by done.
    by rewrite filter_nil, last_snoc.
  - rewrite lookup_insert_ne by done. rewrite IH.
    rewrite (filter_cons_False _ entry []) by done.
    by rewrite filter_nil, app_nil_r.
Qed.

(** X22: the map that the poll loop reads holds, for each key, the value
    of the last entry of the snapshot with that key, and nothing for a
    key without an entry; a reply without a list and a failed fetch give
    the empty map.  So when a key comes twice, the later entry decides
    what the loop sees. *)
Theorem getOutlineGuestAttributes_last_wins
    (fetched : Result Cloud.GuestAttributes) (key : string) :
  exists attributes,
    getOutlineGuestAttributes fetched = Returned attributes
    /\ attributes !! key
       = match fetched with
         | Returned {| Cloud.items := Some entries |} => lastValue key entries
         | _ => None
         end.
Proof.
  destruct fetched as [[[entries|]]|e]; simpl; eexists; (split; [reflexivity|]).
  - apply foldl_insert_lookup.
  - done.
  - done.
Qed.

End AttributeFacts.

(** The endpoint is published twice. *)
Example later_apiUrl_decides :
  attributesOf [("apiUrl", "https://10.0.0.1:1/first");
                ("certSha256", "AAEC");
                ("apiUrl", "https://10.0.0.1:2/second")] !! "apiUrl"
  = Some "https://10.0.0.1:2/second".
Proof. vm_compute. reflexivity. Qed.

(** ** Locator URLs *)

Section LocatorFacts.

Local Arguments String.append !_ _ : simpl nomatch.

Variable pathname : string -> option string.
Variable projectUrl : string -> string.

(** X23: [parseZoneUrl] undoes [zoneUrl].  When the path of the URL of a
    zone is some prefix, then [/compute/v1/projects/], the project,
    [/zones/] and the zone, and both identifiers are non-empty and have
    no slash, [parseZoneUrl] gives back the locator; the URL of an
    instance of the zone, whose path goes on with [/instances/] and an
    identifier without a slash, does not parse: the pattern is anchored
    at the end. *)
Theorem parseZoneUrl_zoneUrl (zone : Cloud.ZoneLocator) (before : string)
    (instanceId : string) :
  let path :=
    before +:+ "/compute/v1/projects/" +:+ Cloud.projectId zone
    +:+ "/zones/" +:+ Cloud.zoneId zone in
  let instance :=
    {| Cloud.zoneOf := zone; Cloud.instanceId := instanceId |} in
  pathname (zoneUrl projectUrl zone) = Some path ->
  pathname (instanceUrl projectUrl instance)
  = Some (path +:+ "/instances/" +:+ instanceId) ->
  Cloud.projectId zone <> "" -> Cloud.zoneId zone <> "" ->
  slashFree (Cloud.projectId zone) -> slashFree (Cloud.zoneId zone) ->
  slashFree instanceId ->
  Cloud.parseZoneUrl pathname (zoneUrl projectUrl zone) = Returned zone
  /\ Cloud.parseZoneUrl pathname (instanceUrl projectUrl instance)
     = Thrown (TypeError (PropertyOfNull "groups")).
Proof.
  intros path instance Hzone Hinstance Hp Hz Fp Fz Fi.
  unfold Cloud.parseZoneUrl. rewrite Hzone, Hinstance. split.
  - assert (Hm : matchesZonePath path (Cloud.projectId zone) (Cloud.zoneId zone))
      by by exists before.
    destruct (matchZoneUrl_complete _ _ _ Hm) as [[p z] Hfound].
    rewrite Hfound.
    apply matchZoneUrl_sound in Hfound.
    destruct (matchesZonePath_unique _ _ _ _ _ Hm Hfound) as [<- <-].
    by destruct zone.
  - destruct (Cloud.matchZoneUrl (path +:+ "/instances/" +:+ instanceId))
      as [[p z]|] eqn:Hfound; [|done].
    exfalso. apply matchZoneUrl_sound in Hfound as (pre & Heq & _ & Hz' & _ & Fz').
    (* the last segment is the instance, and before it comes "instances" *)
    apply (f_equal Js.chars) in Heq. subst path.
    rewrite !chars_append in Heq.
    change (Js.chars "/instances/") with (Js.chars "/instances" ++ ["/"%char]) in Heq.
    change (Js.chars "/zones/") with (Js.chars "/zones" ++ ["/"%char]) in Heq.
    rewrite !app_assoc in Heq. rewrite <- !(app_assoc _ ["/"%char]) in Heq.
    simpl in Heq.
    apply last_segment in Heq as [Heq _]; [|done..].
    rewrite <- !app_assoc in Heq.
    apply (f_equal (@rev ascii)) in Heq. rewrite !rev_app_distr in Heq.
    simpl in Heq. rewrite <- !app_assoc in Heq. simpl in Heq. discriminate Heq.
Qed.

End LocatorFacts.

(** A zone of the examples, under [exampleProjectUrl]. *)
Lemma parseZoneUrl_zoneUrl_example :
  Cloud.parseZoneUrl plainPathname
    (zoneUrl exampleProjectUrl
       {| Cloud.projectId := "b1gexample"; Cloud.zoneId := "ru-central1-a" |})
  = Returned {| Cloud.projectId := "b1gexample"; Cloud.zoneId := "ru-central1-a" |}
  /\ Cloud.parseZoneUrl plainPathname
       (instanceUrl exampleProjectUrl
          {| Cloud.zoneOf := {| Cloud.projectId := "b1gexample";
                                Cloud.zoneId := "ru-central1-a" |};
             Cloud.instanceId := "epd1" |})
     = Thrown (TypeError (PropertyOfNull "groups")).
Proof.
  apply (parseZoneUrl_zoneUrl plainPathname exampleProjectUrl
           {| Cloud.projectId := "b1gexample"; Cloud.zoneId := "ru-central1-a" |}
           "" "epd1").
  - reflexivity.
  - reflexivity.
  - discriminate.
  - discriminate.
  - by repeat constructor.
  - by repeat constructor.
  - by repeat constructor.
Defined.

(** ** [isProjectHealthy] *)

Section HealthFacts.

Import Account.

Lemma findService_found (name : string) (services : list Service) :
  (exists service, findService name services = Returned (Some service))
  <-> enabledIn name services.
Proof.
  unfold enabledIn. induction services as [|s services IH]; simpl.
  - split; [by intros [? [=]]|]. by intros ([|??] & ? & ? & [=] & _).
  - destruct (config s) as [[n]|] eqn:Hs; simpl.
    + destruct (String.eqb_spec n name) as [->|Hne].
      * split; [|by eauto]. intros _. exists [], s, services. by repeat split.
      * rewrite IH. split.
        -- intros (before & service & after & -> & Hbefore & Hservice).
           exists (s :: before), service, after. split; [done|].
           split; [|done]. constructor; [by eexists | done].
        -- intros ([|s' before] & service & after & Heq & Hbefore & Hservice);
             simpl in Heq; injection Heq as <- ->.
           ++ rewrite Hs in Hservice. by injection Hservice.
           ++ exists before, service, after. split; [done|]. split; [|done].
              by inversion Hbefore.
    + split; [by intros [? [=]]|].
      intros ([|s' before] & service & after & Heq & Hbefore & Hservice);
        simpl in Heq; injection Heq as <- ->.
      * congruence.
      * inversion Hbefore as [|? ? (c & Hc & _) _]. congruence.
Qed.

(** X24: [isProjectHealthy] asks for the enabled services only when the
    billing of the project is enabled, and answers [true] exactly when
    the billing is enabled and the list of the services has an entry named
    compute.cloud.yandex.net with no entry before it that lacks a
    configuration. *)
Theorem isProjectHealthy_iff (projectId : string)
    (billingFetched : Result ProjectBillingInfo)
    (servicesFetched : Result ListEnabledServicesResponse) :
  let run := isProjectHealthy projectId billingFetched servicesFetched in
  (ListEnabledServices projectId ∈ fst run
   <-> billingFetched = Returned {| billingEnabled := true |})
  /\ (snd run = Returned true
      <-> billingFetched = Returned {| billingEnabled := true |}
          /\ exists enabled,
               servicesFetched = Returned {| services := Some enabled |}
               /\ enabledIn "compute.cloud.yandex.net" enabled).
Proof.
  cbv zeta. unfold isProjectHealthy.
  destruct billingFetched as [[[]]|e]; simpl.
  - split.
    + split; [done|]. intros _. apply elem_of_cons. right.
      apply elem_of_cons. by left.
    + destruct servicesFetched as [[[enabled|]]|e]; simpl.
      * destruct (findService "compute.cloud.yandex.net" enabled)
          as [[service|]|e] eqn:Hfind.
        -- split; [|done]. intros _. split; [done|]. exists enabled.
           split; [done|]. apply findService_found. by exists service.
        -- split; [done|]. intros (_ & ? & [= <-] & H).
           apply findService_found in H as [? H]. congruence.
        -- split; [done|]. intros (_ & ? & [= <-] & H).
           apply findService_found in H as [? H]. congruence.
      * split; [done | by intros (_ & ? & [=] & _)].
      * split; [done | by intros (_ & ? & [=] & _)].
  - split; [|split; [done | by intros [[=] _]]].
    split; [|done]. intros [[=]|[]%elem_of_nil]%elem_of_cons.
  - split; [|split; [done | by intros [[=] _]]].
    split; [|done]. intros [[=]|[]%elem_of_nil]%elem_of_cons.
Qed.

End HealthFacts.

(** ** [getInstancesByTag] *)

Section TagFacts.

Local Arguments String.append !_ _ : simpl nomatch.

Lemma encodeURI_keeps (s : string) :
  forallb isUriChar (Js.chars s) = true -> encodeURI s = s.
Proof.
  induction s as [|c s IH]; [done|]. simpl.
  intros [Hc Hs]%andb_true_iff. by rewrite Hc, IH.
Qed.

(** X25: the path of [getInstancesByTag] holds the tag as it is whenever
    the tag consists of letters, digits and the marks that [encodeURI]
    leaves alone, among them [&], [=] and [#]: such a tag can add
    parameters to the query or end it.  [encodeURIComponent], which the
    fetch client uses for form data, leaves none of the three in its
    result. *)
Theorem getInstancesByTag_keeps_separators (tag : string) :
  forallb isUriChar (Js.chars tag) = true ->
  Session.actionPath (getInstancesByTag tag) = "instances?tag_name=" +:+ tag
  /\ forallb isUriChar (Js.chars "&=#") = true
  /\ forallb (fun c => negb (Ascii.eqb c "&") && negb (Ascii.eqb c "=")
                       && negb (Ascii.eqb c "#"))
       (Js.chars (Fetch.encodeURIComponent tag)) = true.
Proof.
  intros Htag. split; [|split; [done|]].
  - unfold getInstancesByTag. simpl. by rewrite encodeURI_keeps.
  - clear. induction tag as [|c tag IH]; [done|].
    cbn [Fetch.encodeURIComponent].
    rewrite chars_append, forallb_app, IH, andb_true_r.
    clear. destruct c as [[] [] [] [] [] [] [] []]; reflexivity.
Qed.

End TagFacts.

(** A tag that brings a second parameter. *)
Lemma getInstancesByTag_keeps_separators_example :
  Session.actionPath (getInstancesByTag "outline&page=2")
  = "instances?tag_name=outline&page=2".
Proof.
  apply (getInstancesByTag_keeps_separators "outline&page=2"). reflexivity.
Defined.

Example encodeURI_example :
  encodeURI ("a b&c=d/e?f#g%h;i:@+$,"
             +:+ String (ascii_of_N 233) (String "[" (String "]" (String "<" ">"))))
  = "a%20b&c=d/e?f#g%25h;i:@+$,%C3%A9%5B%5D%3C%3E".
Proof. reflexivity. Qed.

(** ** After the deletion *)

Section CancelFacts.

Import Install.

Lemma pollResume_poll (fetched : Result Cloud.GuestAttributes) (s : YandexServer) :
  poll (pollResume fetched s) <> AwaitAttributes.
Proof.
  unfold pollResume.
  by destruct ((attributes <- lift (getOutlineGuestAttributes fetched);;
                pollIteration attributes)%server s) as [t [[]|e]].
Qed.

Lemma closed_step (s : YandexServer) (ev : Event) :
  ValueStream.closed (installState s) = true ->
  installState (step s ev) = installState s
  /\ (poll (step s ev) = AwaitAttributes ->
      poll s = AwaitAttributes
      /\ forall fetched, ev <> GuestAttributesFetched fetched).
Proof.
  intros Hclosed. split.
  { destruct (step_writes s ev) as [H|[H _]]; [done | congruence]. }
  destruct ev as [r|r|r|r| |]; unfold step.
  - destruct (chain s); try done.
    destruct s as [[v c] m ch p]. simpl in *. subst c. by destruct r as [[]|e].
  - destruct (chain s); try done.
    destruct s as [[v c] m ch p]. simpl in *. subst c.
    unfold advance, bind, lift. by destruct (hasStaticIp r) as [[]|e].
  - destruct (chain s); try done.
    destruct s as [[v c] m ch p]. simpl in *. subst c. by destruct r as [[]|e].
  - destruct (poll s) eqn:Hp; try done; try (by rewrite Hp).
    intros H. by apply pollResume_poll in H.
  - destruct (poll s) eqn:Hp; try done; try (by rewrite Hp).
    unfold pollLoopTest, ValueStream.isClosed. by rewrite Hclosed.
  - rewrite onDelete_spec, Hclosed. done.
Qed.

Lemma closed_run (s : YandexServer) (events : list Event) :
  ValueStream.closed (installState s) = true ->
  installState (run s events) = installState s
  /\ (poll (run s events) = AwaitAttributes ->
      poll s = AwaitAttributes
      /\ forall fetched, GuestAttributesFetched fetched ∉ events).
Proof.
  revert s. induction events as [|ev events IH]; intros s Hclosed.
  - split; [done|]. intros H. split; [done|]. intros fetched. apply not_elem_of_nil.
  - unfold run. cbn [foldl]. fold (run (step s ev) events).
    destruct (closed_step s ev Hclosed) as [Hsame Hpoll].
    destruct (IH (step s ev)) as [Hstream Hlater]; [by rewrite Hsame|].
    split; [by rewrite Hstream|].
    intros H. destruct (Hlater H) as [Hp Hnone].
    destruct (Hpoll Hp) as [Hs Hev]. split; [done|].
    intros fetched [Heq|Hin]%elem_of_cons;
      [by apply (Hev fetched) | by apply (Hnone fetched)].
Qed.

(** X26: a server whose stream is closed, as after [onDelete], starts no
    fetch of the guest attributes any more.  Whatever events follow, the
    recorded state stays, and the poll loop waits for attributes only if
    it did so when the stream was closed and that fetch has not come
    back: the loop test after the sleep ends the loop, and the chain of
    the constructor does not start it. *)
Theorem closed_server_fetches_no_more (s : YandexServer) (events : list Event) :
  ValueStream.closed (installState s) = true ->
  installState (run s events) = installState s
  /\ (poll (run s events) = AwaitAttributes ->
      poll s = AwaitAttributes
      /\ forall fetched, GuestAttributesFetched fetched ∉ events).
Proof. apply closed_run. Qed.

(** X28: [delete] stops the installation.  For a server after any events
    and a deletion that settles in any way: when [delete] has run, the
    recorded state is final; and whatever events follow, the state stays
    the same, and no fetch of the guest attributes is started: the loop
    waits for attributes only if a fetch was under way when [delete] was
    called and has not come back. *)
Theorem delete_stops_the_installation (regionIdOf : string -> string)
    (host : Host.YandexHost) (instanceReadiness : Result unit)
    (staticIpDeletion instanceDeletion : Result Cloud.ComputeEngineOperation)
    (before after : list Event) (trace : list Host.Action) :
  let s := run new before in
  let deleted :=
    Host.server
      (fst (Host.delete regionIdOf host instanceReadiness staticIpDeletion
              instanceDeletion {| Host.server := s; Host.trace := trace |})) in
  isFinal (state deleted) = true
  /\ state (run deleted after) = state deleted
  /\ (poll (run deleted after) = AwaitAttributes ->
      poll s = AwaitAttributes
      /\ forall fetched, GuestAttributesFetched fetched ∉ after).
Proof.
  intros s deleted.
  assert (Hdeleted : deleted = fst (onDelete s)).
  { subst deleted.
    unfold Host.delete, Host.deleteCallback, Host.waitForDelete, Host.tryCatch,
      Host.bind, Host.act, Host.await, Host.ret, Host.throw.
    simpl. rewrite onDelete_spec.
    destruct instanceReadiness as [[]|e0]; simpl;
      destruct staticIpDeletion as [x|e1]; simpl;
      try destruct (is404 e1); simpl;
      try destruct instanceDeletion as [y|e2]; simpl;
      try destruct (is404 e2); simpl; done. }
  assert (Hinv : phaseInvariant s) by apply run_invariant, new_invariant.
  assert (Hclosed : ValueStream.closed (installState deleted) = true
                    /\ isFinal (state deleted) = true
                    /\ poll deleted = poll s).
  { rewrite Hdeleted, onDelete_spec. destruct Hinv as [Hcons _].
    unfold consistent in Hcons.
    destruct (ValueStream.closed (installState s)) eqn:Hc; simpl.
    - by rewrite <- Hcons.
    - done. }
  destruct Hclosed as (Hclosed & Hfinal & Hpoll).
  destruct (closed_run deleted after Hclosed) as [Hstream Hfetch].
  split; [done|]. split; [unfold state; by rewrite Hstream|].
  intros H. rewrite <- Hpoll. by apply Hfetch.
Qed.

(** The deletion is requested during the sleep of the poll loop. *)
Lemma closed_server_fetches_no_more_example :
  poll (run (run polling [GuestAttributesFetched (snapshot []); DeleteRequested])
          [SleepElapsed; SleepElapsed])
  = NotPolling
  /\ installState
       (run (run polling [GuestAttributesFetched (snapshot []); DeleteRequested])
          [SleepElapsed; SleepElapsed])
     = installState (run polling [GuestAttributesFetched (snapshot []); DeleteRequested]).
Proof.
  split; [reflexivity|].
  apply (closed_server_fetches_no_more
           (run polling [GuestAttributesFetched (snapshot []); DeleteRequested])
           [SleepElapsed; SleepElapsed]).
  reflexivity.
Defined.

End CancelFacts.

(** ** The static address, from reservation to release *)

Section AddressFacts.

Variable regionIdOf : string -> string.

Lemma delete_requests_address (host : Host.YandexHost)
    (instanceReadiness : Result unit)
    (staticIpDeletion instanceDeletion : Result Cloud.ComputeEngineOperation)
    (w : Host.World) :
  Host.RequestDeleteStaticIp (Host.regionLocator regionIdOf host)
    (Host.yandexInstanceName host)
  ∈ Host.trace
      (fst (Host.delete regionIdOf host instanceReadiness staticIpDeletion
              instanceDeletion w)).
Proof.
  unfold Host.delete, Host.deleteCallback, Host.waitForDelete, Host.tryCatch,
    Host.bind, Host.act, Host.await, Host.ret, Host.throw.
  destruct w as [s tr]. simpl. rewrite onDelete_spec.
  destruct instanceReadiness as [[]|e0]; simpl;
    destruct staticIpDeletion as [x|e1]; simpl;
    try destruct (is404 e1); simpl;
    try destruct instanceDeletion as [y|e2]; simpl;
    try destruct (is404 e2); simpl;
    rewrite <- ?app_assoc; simpl;
    repeat (apply elem_of_app; right);
    repeat first [ apply elem_of_cons; left; reflexivity
                 | apply elem_of_cons; right ].
Qed.

Lemma createServer_fields
    (accountId : string) (getInstallScript : string -> bool -> string)
    (firewallsListed : Result (option Account.ListFirewallsResponse))
    (firewallPosted firewallWaited instancePosted instanceWaited
       : Result Cloud.ComputeEngineOperation)
    (now : Account.Date) (projectId name zoneId : string) (metricsEnabled : bool)
    (created : Account.Created) :
  snd (Account.createServer accountId getInstallScript firewallsListed
         firewallPosted firewallWaited instancePosted instanceWaited now
         projectId name zoneId metricsEnabled) = Returned created ->
  Account.locator created
  = {| Cloud.zoneOf := {| Cloud.projectId := projectId; Cloud.zoneId := zoneId |};
       Cloud.instanceId := Cloud.instanceId (Account.locator created) |}
  /\ Account.yandexInstanceName created = Account.makeYandexInstanceName now
  /\ exists data,
       Account.PostInstance {| Cloud.projectId := projectId; Cloud.zoneId := zoneId |}
         data
       ∈ fst (Account.createServer accountId getInstallScript firewallsListed
                firewallPosted firewallWaited instancePosted instanceWaited now
                projectId name zoneId metricsEnabled)
       /\ Account.instanceName data = Account.makeYandexInstanceName now.
Proof.
  unfold Account.createServer, Account.bind at 1 3.
  destruct (Account.createFirewallIfNeeded firewallsListed firewallPosted
              firewallWaited projectId) as [calls [[]|e]]; [|done].
  unfold Account.bind, Account.call, Account.ret, Account.throw.
  destruct instancePosted as [operation|e]; [|done].
  destruct (Cloud.errors operation); [done|]. simpl.
  intros [= <-]. cbn [fst snd Account.locator Account.yandexInstanceName].
  split; [done|]. split; [done|].
  eexists. split; [apply elem_of_app; right; apply elem_of_cons; by left|].
  reflexivity.
Qed.

(** X27: the static address is reserved where it is looked for and
    released.  For a server that [createServer] returns: the instance is
    requested under the name that the server keeps; when the cloud gives
    the instance back under this name, the promotion reserves the address
    under the name, in the region of the server's zone; and [delete]
    requests the release of the address of this name in this region. *)
Theorem address_reserved_where_released
    (accountId : string) (getInstallScript : string -> bool -> string)
    (firewallsListed : Result (option Account.ListFirewallsResponse))
    (firewallPosted firewallWaited instancePosted instanceWaited
       : Result Cloud.ComputeEngineOperation)
    (now : Account.Date) (projectId name zoneId : string) (metricsEnabled : bool)
    (created : Account.Created)
    (instance : Promote.Instance) (ipAddress : option string)
    (addressPosted addressWaited : Result Cloud.ComputeEngineOperation)
    (instanceReadiness : Result unit)
    (staticIpDeletion instanceDeletion : Result Cloud.ComputeEngineOperation)
    (w : Host.World) :
  let creation :=
    Account.createServer accountId getInstallScript firewallsListed
      firewallPosted firewallWaited instancePosted instanceWaited now
      projectId name zoneId metricsEnabled in
  let promotion :=
    Promote.promoteEphemeralIp regionIdOf (Account.locator created)
      (Returned instance) addressPosted addressWaited in
  let deletion :=
    Host.delete regionIdOf (hostOf created) instanceReadiness staticIpDeletion
      instanceDeletion w in
  let region :=
    {| Cloud.regionProjectId := projectId; Cloud.regionId := regionIdOf zoneId |} in
  snd creation = Returned created ->
  Promote.name instance = Some (Account.yandexInstanceName created) ->
  Promote.firstNatIP instance = Returned ipAddress ->
  (exists data,
     Account.PostInstance {| Cloud.projectId := projectId; Cloud.zoneId := zoneId |}
       data ∈ fst creation
     /\ Account.instanceName data = Account.yandexInstanceName created)
  /\ (exists data,
        Promote.PostAddress region data ∈ fst promotion
        /\ Promote.dataName data = Some (Account.yandexInstanceName created))
  /\ Host.RequestDeleteStaticIp region (Account.yandexInstanceName created)
     ∈ Host.trace (fst deletion).
Proof.
  intros creation promotion deletion region Hcreated Hname Hip.
  destruct (createServer_fields accountId getInstallScript firewallsListed
              firewallPosted firewallWaited instancePosted instanceWaited now
              projectId name zoneId metricsEnabled created Hcreated)
    as (Hlocator & Hkept & data & Hposted & Hdata).
  split; [|split].
  - exists data. by rewrite Hkept.
  - subst promotion.
    unfold Promote.promoteEphemeralIp, Promote.createStaticIp, Promote.bind,
      Promote.call, Promote.getRegionLocator.
    rewrite Hip, Hlocator. simpl. fold region.
    exists {| Promote.dataName := Promote.name instance;
              Promote.dataDescription := Promote.description instance;
              Promote.address := ipAddress |}.
    split; [|exact Hname].
    destruct addressPosted as [operation|e]; simpl.
    + destruct (Cloud.computeEngineOperationRegionWait addressWaited)
        as [resolved|e]; simpl; [destruct (Cloud.errors resolved)|]; simpl;
        apply elem_of_cons; right; apply elem_of_cons; by left.
    + apply elem_of_cons. right. apply elem_of_cons. by left.
  - subst deletion.
    replace region with (Host.regionLocator regionIdOf (hostOf created)).
    + apply (delete_requests_address (hostOf created)).
    + unfold Host.regionLocator, hostOf. cbn [Host.locator].
      by rewrite Hlocator.
Qed.

End AddressFacts.

(** The server of [createdExample], from its creation to its deletion. *)
Lemma address_reserved_where_released_example :
  Host.RequestDeleteStaticIp
    {| Cloud.regionProjectId := "b1gexample"; Cloud.regionId := "ru-central1-a" |}
    "outline-20240102-030405"
  ∈ Host.trace
      (fst (Host.delete (fun zoneId => zoneId) (hostOf createdExample)
              (Returned tt) (Returned cleanOperation) (Returned cleanOperation)
              {| Host.server := Install.new; Host.trace := [] |})).
Proof.
  apply (address_reserved_where_released (fun zoneId => zoneId) "account"
           (fun _ _ => "#!/bin/bash")
           (Returned (Some {| Account.items := Some ["outline"] |}))
           (Returned cleanOperation) (Returned cleanOperation)
           (Returned cleanOperation) (Returned cleanOperation)
           {| Account.fullYear := 2024; Account.month := 0; Account.date := 2;
              Account.hours := 3; Account.minutes := 4; Account.seconds := 5 |}
           "b1gexample" "My server" "ru-central1-a" true createdExample
           ephemeralInstance (Some "203.0.113.7")
           (Returned cleanOperation) (Returned cleanOperation)).
  - reflexivity.
  - reflexivity.
  - reflexivity.
Defined.
